(** * securesystemslib: canonical JSON encoding, timestamps and software keys

    A shallow embedding of [securesystemslib/formats.py] (the canonical
    encoder and the timestamp helpers) and of [securesystemslib/signer/_key.py]
    (the [Key] interface and [SSlibKey]), with the properties the
    specification states about them.

    Conventions of the embedding:
    - a Python [str] is a [string]: the sequence of its UTF-8 code units.
      UTF-8 keeps the code point order, and the two characters the encoder
      escapes are ASCII, so ordering, escaping and the emitted bytes are those
      of the Python text;
    - a raised exception is a value [Exn cls msg cause] returned in [Raise];
    - a callable with side effects is a state transformer;
    - builtins and library functions the code calls ([repr], [bytes.fromhex],
      [time.gmtime], [calendar.timegm], the crypto provider) are parameters
      or are modelled after their documentation; the recursion limit of the
      interpreter and its limit on the digits of an [int] turned into text
      are left out. *)

From Stdlib Require Import ZArith Ascii String List Bool Lia Permutation Sorted.
From Stdlib Require Import DecimalString.
From Stdlib Require DecimalZ DecimalPos.
From Stdlib.Strings Require Import Byte.
From stdpp Require Import base gmap list strings sorting.

Import ListNotations.
Local Open Scope Z_scope.
Set Warnings "-register-all".

(** ** Python exceptions and results *)

Inductive exn_class :=
| FormatError
| TypeError
| ValueError
| KeyError
| UnboundLocalError
| UnsupportedLibraryError
| SignatureMismatch          (* vendored ed25519 *)
| InvalidSignature           (* cryptography.exceptions *)
| UnverifiedSignatureError
| VerificationError
| OtherException (name : string).

Inductive exn := Exn (cls : exn_class) (msg : string) (cause : option exn).

Definition exn_cls (e : exn) : exn_class := let 'Exn c _ _ := e in c.
Definition exn_str (e : exn) : string := let 'Exn _ m _ := e in m.
Definition exn_cause (e : exn) : option exn := let 'Exn _ _ c := e in c.

Inductive result (A : Type) :=
| Return (a : A)
| Raise (e : exn).
Arguments Return {A} a.
Arguments Raise {A} e.

Definition exn_class_eqb (a b : exn_class) : bool :=
  match a, b with
  | FormatError, FormatError | TypeError, TypeError | ValueError, ValueError
  | KeyError, KeyError | UnboundLocalError, UnboundLocalError
  | UnsupportedLibraryError, UnsupportedLibraryError
  | SignatureMismatch, SignatureMismatch | InvalidSignature, InvalidSignature
  | UnverifiedSignatureError, UnverifiedSignatureError
  | VerificationError, VerificationError => true
  | OtherException n, OtherException m => String.eqb n m
  | _, _ => false
  end.

(** ** Text and bytes *)

Definition dquote : ascii := "034"%char.
Definition backslash : ascii := "\"%char.
Definition char (c : ascii) : string := String c EmptyString.

Definition bytes := list Byte.byte.

(** ** Python values

    The values the encoder and the key (de)serialisers can meet.  A [dict]
    keeps its insertion order and has unique keys; its keys are text, as in
    every JSON-decoded object. *)

Inductive value :=
| VStr (s : string)
| VBool (b : bool)
| VNone
| VInt (z : Z)
| VFloat (mantissa exponent : Z)
| VBytes (b : bytes)
| VList (l : list value)
| VTuple (l : list value)
| VDict (d : list (string * value))
| VObject (type_name : string) (hashable : bool).

Definition pydict := list (string * value).

(** ** formats.py: the canonical encoder *)

(** The [re.sub] of [_canonical_string_encoder]: its pattern is the class of
    the double quote and the backslash, captured as group 1; its template is a
    backslash followed by group 1.  So every character of the class is
    replaced by a backslash followed by the character itself, left to right,
    and every other character is kept. *)
Fixpoint re_sub_quote_backslash (s : string) : string :=
  match s with
  | EmptyString => EmptyString
  | String c rest =>
      if (Ascii.eqb c dquote || Ascii.eqb c backslash)%bool
      then String backslash (String c (re_sub_quote_backslash rest))
      else String c (re_sub_quote_backslash rest)
  end.

Definition _canonical_string_encoder (s : string) : string :=
  char dquote +:+ re_sub_quote_backslash s +:+ char dquote.

(** [str(object)] of an integer: its decimal form. *)
Definition str_int (z : Z) : string := NilZero.string_of_int (Z.to_int z).

(** [sorted(six.iteritems(object))]: the items are compared as tuples, and as
    the keys of a dict are pairwise different the first components decide.
    A stable insertion sort on the keys. *)
Section Sorted.
Context {A : Type}.

Fixpoint insert_item (x : string * A) (l : list (string * A)) : list (string * A) :=
  match l with
  | [] => [x]
  | y :: rest =>
      if String.leb (fst x) (fst y) then x :: y :: rest
      else y :: insert_item x rest
  end.

Definition sorted (l : list (string * A)) : list (string * A) :=
  foldr (fun x acc => insert_item x acc) [] l.
End Sorted.

(** Code that calls [output_function] and may raise: a state transformer on
    the state of the sink with a result. *)
Definition Py (S A : Type) : Type := S -> S * result A.

Definition ret {S A} (a : A) : Py S A := fun st => (st, Return a).
Definition raise {S A} (e : exn) : Py S A := fun st => (st, Raise e).
Definition bind {S A B} (m : Py S A) (k : A -> Py S B) : Py S B :=
  fun st => match m st with
            | (st', Return a) => k a st'
            | (st', Raise e) => (st', Raise e)
            end.

Declare Scope py_scope.
Delimit Scope py_scope with py.
Notation "m ;; k" := (bind m (fun _ => k))
  (at level 100, k at level 200, right associativity) : py_scope.
Notation "'let*' x := m 'in' k" := (bind m (fun x => k))
  (at level 10, x name, m at level 100, k at level 200) : py_scope.
Local Open Scope py_scope.

Section Encoder.
Context {S : Type}.
(** Python's [repr], a builtin. *)
Variable repr : value -> string.
Variable output_function : string -> S -> S.

Definition output (chunk : string) : Py S unit :=
  fun st => (output_function chunk st, Return tt).

(** The loop over a non-empty list or tuple: every element but the last
    is encoded and followed by a comma, then the last one is encoded.  The
    elements come as their encoders. *)
Fixpoint encode_elements (elements : list (Py S unit)) : Py S unit :=
  match elements with
  | [] => ret tt
  | encode_item :: rest =>
      encode_item ;;
      match rest with
      | [] => ret tt
      | _ :: _ => output "," ;; encode_elements rest
      end
  end.

(** The same loop over the sorted items of a dict; the encoder of each
    value comes with its key. *)
Fixpoint encode_items (items : list (string * Py S unit)) : Py S unit :=
  match items with
  | [] => ret tt
  | (key, encode_value) :: rest =>
      output (_canonical_string_encoder key) ;;
      output ":" ;;
      encode_value ;;
      match rest with
      | [] => ret tt
      | _ :: _ => output "," ;; encode_items rest
      end
  end.

(** [_encode_canonical(object, output_function)].  The recursion is on the
    elements of [object]: in the case of a dict each value is paired with its
    encoder before the items are sorted, and sorting looks at the keys only
    (lemma [sorted_map] below), so the items are encoded in the order of
    [sorted(six.iteritems(object))]. *)
Fixpoint _encode_canonical (object : value) : Py S unit :=
  match object with
  | VStr s => output (_canonical_string_encoder s)
  | VBool true => output "true"
  | VBool false => output "false"
  | VNone => output "null"
  | VInt z => output (str_int z)
  | VList l | VTuple l =>
      output "[" ;;
      encode_elements (map _encode_canonical l) ;;
      output "]"
  | VDict d =>
      output "{" ;;
      encode_items
        (sorted (map (fun kv => (fst kv, _encode_canonical (snd kv))) d)) ;;
      output "}"
  | VFloat _ _ | VBytes _ | VObject _ _ =>
      raise (Exn FormatError ("I cannot encode " +:+ repr object) None)
  end.
End Encoder.

(** [result.append], the sink of the one-shot form. *)
Definition list_append (chunk : string) (result : list string) : list string :=
  result ++ [chunk].

(** The handler of [encode_canonical]:
    [except (TypeError, securesystemslib.exceptions.FormatError) as e]. *)
Definition encode_handler (repr : value -> string) (object : value) (e : exn)
  : exn :=
  match exn_cls e with
  | TypeError | FormatError =>
      Exn FormatError
        ("Could not encode " +:+ repr object +:+ ": " +:+ exn_str e) None
  | _ => e
  end.

(** [encode_canonical(object, output_function=None)].  Without a sink the
    chunks are appended to a local list and joined; with one they go to the
    sink and [None] is returned. *)
Definition encode_canonical {S : Type} (repr : value -> string)
    (object : value) (output_function : option (string -> S -> S))
  : Py S (option string) :=
  fun st =>
    match output_function with
    | None =>
        match _encode_canonical repr list_append object [] with
        | (_, Raise e) => (st, Raise (encode_handler repr object e))
        | (result, Return _) =>
            (st, Return (Some (String.concat EmptyString result)))
        end
    | Some f =>
        match _encode_canonical repr f object st with
        | (st', Raise e) => (st', Raise (encode_handler repr object e))
        | (st', Return _) => (st', Return None)
        end
    end.

(** ** formats.py: timestamps *)

(** Modelled from the spec: [securesystemslib/schema.py], the module of the
    schema classes, is not part of the sources.  The spec (4.1) gives
    [IntegerRange(lo, hi)]: it passes iff the value is an integer and
    [lo <= v] (and [v <= hi] if [hi] is given); [checkMatch] fails with a
    FormatError carrying a description of the mismatch when [matches] is
    false, and has no effect otherwise. *)
Record Integer := { lo : Z; hi : option Z }.

Definition matches (schema : Integer) (object : value) : bool :=
  match object with
  | VInt v =>
      (lo schema <=? v) && match hi schema with Some h => v <=? h | None => true end
  | _ => false
  end.

Definition check_match (describe_mismatch : value -> string)
    (schema : Integer) (object : value) : result unit :=
  if matches schema object then Return tt
  else Raise (Exn FormatError (describe_mismatch object) None).

(** [UNIX_TIMESTAMP_SCHEMA = SCHEMA.Integer(lo=0, hi=2147483647)] *)
Definition UNIX_TIMESTAMP_SCHEMA : Integer := {| lo := 0; hi := Some 2147483647 |}.

(** [datetime.datetime]: the date and the time of day, the microsecond, the
    tzinfo object ([None] for a naive datetime) and the fold. *)
Record datetime := datetime_object {
  year : Z; month : Z; day : Z; hour : Z; minute : Z; second : Z;
  microsecond : Z; tzinfo : option value; fold : Z }.

(** The constructor with the six arguments year to second: the microsecond
    is 0, there is no tzinfo, and the fold is 0. *)
Definition mk_datetime (y m d hh mm ss : Z) : datetime :=
  datetime_object y m d hh mm ss 0 None 0.

Definition is_leap (y : Z) : bool :=
  (y mod 4 =? 0) && (negb (y mod 100 =? 0) || (y mod 400 =? 0)).

Definition days_in_month (y m : Z) : Z :=
  if m =? 2 then (if is_leap y then 29 else 28)
  else if (m =? 4) || (m =? 6) || (m =? 9) || (m =? 11) then 30 else 31.

(** The constructor [datetime.datetime(year, month, day, hour, minute, second)]
    applied to an unpacked sequence: it takes between three and six (here)
    integers and checks their ranges. *)
Definition datetime_datetime (args : list Z) : result datetime :=
  match args with
  | [y; m; d; hh; mm; ss] =>
      if (1 <=? y) && (y <=? 9999) && (1 <=? m) && (m <=? 12)
         && (1 <=? d) && (d <=? days_in_month y m)
         && (0 <=? hh) && (hh <=? 23) && (0 <=? mm) && (mm <=? 59)
         && (0 <=? ss) && (ss <=? 59)
      then Return (mk_datetime y m d hh mm ss)
      else Raise (Exn ValueError "datetime field out of range" None)
  | _ => Raise (Exn TypeError "datetime() arguments" None)
  end.

(** The proleptic Gregorian date of a day number counted from 1970-01-01. *)
Definition civil_from_days (days : Z) : Z * Z * Z :=
  let z := days + 719468 in
  let era := z / 146097 in
  let doe := z - era * 146097 in
  let yoe := (doe - doe / 1460 + doe / 36524 - doe / 146096) / 365 in
  let doy := doe - (365 * yoe + yoe / 4 - yoe / 100) in
  let mp := (5 * doy + 2) / 153 in
  let d := doy - (153 * mp + 2) / 5 + 1 in
  let m := if mp <? 10 then mp + 3 else mp - 9 in
  ((if m <=? 2 then yoe + era * 400 + 1 else yoe + era * 400), m, d).

Definition days_from_civil (y m d : Z) : Z :=
  let y' := if m <=? 2 then y - 1 else y in
  let era := y' / 400 in
  let yoe := y' - era * 400 in
  let doy := (153 * (if 2 <? m then m - 3 else m + 9) + 2) / 5 + d - 1 in
  let doe := yoe * 365 + yoe / 4 - yoe / 100 + doy in
  era * 146097 + doe - 719468.

(** [time.gmtime(secs)] of the standard library: the broken-down time of
    [secs] seconds since the epoch in UTC, as the nine fields of a
    [struct_time] (year, month, day, hour, minute, second, weekday with
    Monday 0, day of the year from 1, DST flag 0). *)
Definition time_gmtime (secs : Z) : list Z :=
  let days := secs / 86400 in
  let rem := secs mod 86400 in
  let '(y, m, d) := civil_from_days days in
  [y; m; d; rem / 3600; (rem mod 3600) / 60; rem mod 60;
   (days + 3) mod 7; days - days_from_civil y 1 1 + 1; 0].

(** [calendar.timegm(tuple)] of the standard library: the inverse of
    [time.gmtime] on the first six fields. *)
Definition calendar_timegm (t : list Z) : result Z :=
  match firstn 6 t with
  | [y; m; d; hh; mm; ss] =>
      Return ((((days_from_civil y m 1 + d - 1) * 24 + hh) * 60 + mm) * 60 + ss)
  | _ => Raise (Exn ValueError "not enough values to unpack" None)
  end.

(** [datetime_object.timetuple()], first six fields: the date and the time
    of day of the object itself, whatever its tzinfo, without the
    microsecond. *)
Definition timetuple (dt : datetime) : list Z :=
  [year dt; month dt; day dt; hour dt; minute dt; second dt].

Section Timestamps.
Variable describe_mismatch : value -> string.
Variable repr : value -> string.
(** The conversion of the platform, [time.gmtime]. *)
Variable gmtime : Z -> list Z.

Definition unix_timestamp_to_datetime (unix_timestamp : value)
  : result datetime :=
  match check_match describe_mismatch UNIX_TIMESTAMP_SCHEMA unix_timestamp with
  | Raise e => Raise e
  | Return _ =>
      match unix_timestamp with
      | VInt secs =>
          let struct_time := gmtime secs in
          datetime_datetime (firstn 6 struct_time)
      | _ => Raise (Exn TypeError "an integer is required" None)
      end
  end.

(** The argument is a [datetime.datetime] or another Python value. *)
Definition datetime_to_unix_timestamp (datetime_object : datetime + value)
  : result Z :=
  match datetime_object with
  | inr v =>
      Raise (Exn FormatError
               (repr v +:+ " is not a datetime.datetime() object.") None)
  | inl dt => calendar_timegm (timetuple dt)
  end.
End Timestamps.

(** ** formats.py: base64 *)

Definition newline : ascii := "010"%char.

(** A [str] holds its text as UTF-8 code units, so [s.encode('utf-8')] and
    [b.decode('utf-8')] keep the units. *)
Definition encode_utf8 (s : string) : bytes := list_byte_of_string s.
Definition decode_utf8 (b : bytes) : string := string_of_list_byte b.

(** [len(s)] of a [str], the number of its characters: every code unit but
    a continuation byte (10xxxxxx) starts one. *)
Definition is_continuation (c : ascii) : bool :=
  let n := N_of_ascii c in ((128 <=? n) && (n <? 192))%N.

Fixpoint py_len (s : string) : nat :=
  match s with
  | EmptyString => 0%nat
  | String c rest =>
      ((if is_continuation c then 0 else 1) + py_len rest)%nat
  end.

(** [s.rstrip(chars)]: the trailing characters that are in [chars] go. *)
Definition in_chars (c : ascii) (chars : string) : bool :=
  existsb (Ascii.eqb c) (list_ascii_of_string chars).

Fixpoint rstrip (chars : string) (s : string) : string :=
  match s with
  | EmptyString => EmptyString
  | String c rest =>
      match rstrip chars rest with
      | EmptyString =>
          if in_chars c chars then EmptyString else String c EmptyString
      | String c' rest' => String c (String c' rest')
      end
  end.

(** [c * n] for a [str] of one character *)
Fixpoint str_repeat (c : ascii) (n : nat) : string :=
  match n with
  | O => EmptyString
  | S n' => String c (str_repeat c n')
  end.

(** The name of the type of a value, as error messages show it. *)
Definition type_name (v : value) : string :=
  match v with
  | VStr _ => "str"
  | VBool _ => "bool"
  | VNone => "NoneType"
  | VInt _ => "int"
  | VFloat _ _ => "float"
  | VBytes _ => "bytes"
  | VList _ => "list"
  | VTuple _ => "tuple"
  | VDict _ => "dict"
  | VObject n _ => n
  end.

(** [binascii.b2a_base64(data)] of the standard library: the base64 encoding
    of RFC 4648 in the standard alphabet.  Every three bytes give four
    characters of six bits each, a last group of one or two bytes is filled
    up with equal signs, and a newline ends the line. *)
Definition base64_alphabet : string :=
  "ABCDEFGHIJKLMNOPQRSTUVWXYZabcdefghijklmnopqrstuvwxyz0123456789+/".

Definition base64_char (sextet : N) : ascii :=
  match String.get (N.to_nat sextet) base64_alphabet with
  | Some c => c
  | None => "="%char
  end.

Fixpoint base64_encode (data : bytes) : string :=
  match data with
  | [] => EmptyString
  | [a] =>
      let a := Byte.to_N a in
      String (base64_char (a / 4))
        (String (base64_char (a mod 4 * 16)) "==")
  | [a; b] =>
      let a := Byte.to_N a in
      let b := Byte.to_N b in
      String (base64_char (a / 4))
        (String (base64_char (a mod 4 * 16 + b / 16))
           (String (base64_char (b mod 16 * 4)) "="))
  | a :: b :: c :: rest =>
      let a := Byte.to_N a in
      let b := Byte.to_N b in
      let c := Byte.to_N c in
      String (base64_char (a / 4))
        (String (base64_char (a mod 4 * 16 + b / 16))
           (String (base64_char (b mod 16 * 4 + c / 64))
              (String (base64_char (c mod 64)) (base64_encode rest))))
  end%N.

(** The handler of both functions:
    [except (TypeError, binascii.Error) as e]. *)
Definition base64_handler (e : exn) : exn :=
  if (exn_class_eqb (exn_cls e) TypeError
      || exn_class_eqb (exn_cls e) (OtherException "binascii.Error"))%bool
  then Exn FormatError ("Invalid base64 encoding: " +:+ exn_str e) None
  else e.

Section Base64Format.
(** The buffer protocol on an object of another type than the builtin ones
    of [value]: the bytes of a bytes-like object (a bytearray, a memoryview,
    an array), or the exception of asking an object for a buffer that it
    does not have or cannot give. *)
Variable object_buffer : value -> result bytes.

(** The bytes a function of [binascii] gets of its argument: [bytes] is
    bytes-like, text, numbers, [None], lists, tuples and dicts are not. *)
Definition get_buffer (data : value) : result bytes :=
  match data with
  | VBytes b => Return b
  | VObject _ _ => object_buffer data
  | _ =>
      Raise (Exn TypeError
               ("a bytes-like object is required, not '" +:+ type_name data
                  +:+ "'") None)
  end.

Definition b2a_base64 (data : value) : result bytes :=
  match get_buffer data with
  | Return b => Return (encode_utf8 (base64_encode b +:+ char newline))
  | Raise e => Raise e
  end.

(** [format_base64(data)] *)
Definition format_base64 (data : value) : result string :=
  match b2a_base64 data with
  | Return b =>
      Return (rstrip (String "="%char (String newline " ")) (decode_utf8 b))
  | Raise e => Raise (base64_handler e)
  end.
End Base64Format.

Section Base64.
Variable repr : value -> string.
(** [binascii.a2b_base64] of the standard library, on the bytes of a text. *)
Variable a2b_base64 : bytes -> result bytes.

(** [parse_base64(base64_string)] *)
Definition parse_base64 (base64_string : value) : result bytes :=
  match base64_string with
  | VStr s =>
      let extra := (py_len s mod 4)%nat in
      let s :=
        if (extra =? 0)%nat then s
        else s +:+ str_repeat "="%char (4 - extra) in
      match a2b_base64 (encode_utf8 s) with
      | Return b => Return b
      | Raise e => Raise (base64_handler e)
      end
  | _ =>
      Raise (Exn FormatError ("Invalid argument: " +:+ repr base64_string) None)
  end.
End Base64.

(** ** Python dicts as objects

    A dict passed to a function is passed by reference: the callee's [pop]
    is seen by the caller.  The store maps the identity of a dict object to
    its items. *)

Definition loc := nat.
Abbreviation heap := (gmap loc pydict).

Fixpoint dict_get (d : pydict) (k : string) : option value :=
  match d with
  | [] => None
  | (k', v) :: rest => if String.eqb k' k then Some v else dict_get rest k
  end.

Fixpoint dict_remove (d : pydict) (k : string) : pydict :=
  match d with
  | [] => []
  | (k', v) :: rest =>
      if String.eqb k' k then rest else (k', v) :: dict_remove rest k
  end.

(** [d[k] = v]: an existing key keeps its place, a new one goes last. *)
Fixpoint dict_set (d : pydict) (k : string) (v : value) : pydict :=
  match d with
  | [] => [(k, v)]
  | (k', v') :: rest =>
      if String.eqb k' k then (k, v) :: rest else (k', v') :: dict_set rest k v
  end.

(** [{**base, **extra}]: the items of [extra] are set in their order. *)
Definition dict_update (base extra : pydict) : pydict :=
  foldl (fun d kv => dict_set d (fst kv) (snd kv)) base extra.

(** [str(v)] as an f-string formats it: the text itself for a [str], and for
    the other builtin types the same as [repr]. *)
Definition py_str (repr : value -> string) (v : value) : string :=
  match v with VStr s => s | _ => repr v end.

Definition deref (l : loc) : Py heap pydict :=
  fun h => match h !! l with
           | Some d => (h, Return d)
           | None => (h, Raise (Exn (OtherException "SystemError")
                                    "no object at this reference" None))
           end.

(** [key_dict.pop(k)] *)
Definition dict_pop (l : loc) (k : string) : Py heap value :=
  let* d := deref l in
  match dict_get d k with
  | Some v => fun h => (<[l := dict_remove d k]> h, Return v)
  | None => raise (Exn KeyError k None)
  end.

(** [key_dict.get(k)], [None] when the key is absent. *)
Definition dict_get_default (l : loc) (k : string) : Py heap value :=
  let* d := deref l in
  ret (match dict_get d k with Some v => v | None => VNone end).

(** [hash(v)] returns: lists and dicts are unhashable, a tuple is hashable
    when its elements are. *)
Fixpoint hashable (v : value) : bool :=
  match v with
  | VList _ | VDict _ => false
  | VTuple l => forallb hashable l
  | VObject _ h => h
  | _ => true
  end.

(** A new dict object. *)
Definition alloc (d : pydict) : Py heap loc :=
  fun h => let l := fresh (dom h) in (<[l := d]> h, Return l).

(** ** signer/_key.py *)

Module Key.

(** The attributes of a [Key] instance.  [unrecognized_fields] is a
    reference: [SSlibKey.from_dict] stores the caller's dict itself. *)
Record t := mk {
  keyid : string;
  keytype : string;
  scheme : string;
  keyval : pydict;
  unrecognized_fields : loc }.

(** [Key.__init__] *)
Definition __init__ (keyid keytype scheme keyval : value)
    (unrecognized_fields : option loc) : Py heap t :=
  match keyid, keytype, scheme, keyval with
  | VStr i, VStr kt, VStr sch, VDict kv =>
      match unrecognized_fields with
      | None => let* l := alloc [] in ret (mk i kt sch kv l)
      | Some l => ret (mk i kt sch kv l)
      end
  | _, _, _, _ =>
      raise (Exn TypeError "Unexpected Key attributes types!" None)
  end.

(** [Key._to_dict] *)
Definition _to_dict (self : t) : Py heap pydict :=
  let* unrecognized := deref (unrecognized_fields self) in
  ret (dict_update
         [("keytype", VStr (keytype self));
          ("scheme", VStr (scheme self));
          ("keyval", VDict (keyval self))]
         unrecognized).

(** [Key._from_dict] *)
Definition _from_dict (key_dict : loc) : Py heap (value * value * value) :=
  let* keytype := dict_pop key_dict "keytype" in
  let* scheme := dict_pop key_dict "scheme" in
  let* keyval := dict_pop key_dict "keyval" in
  ret (keytype, scheme, keyval).

(** What [KEY_FOR_TYPE_AND_SCHEME] holds for a pair: a key class, used
    through its [from_dict] only. *)
Definition key_impl : Type := string -> loc -> Py heap t.

(** One component of the pair looked up in the dispatch table, whose keys
    are pairs of a [str] or [None]: the component itself, [None] inside
    [Some] for a hashable value no key of the table is equal to, or the
    TypeError of hashing a list, a dict or another unhashable object. *)
Definition table_component (v : value) : result (option (option string)) :=
  match v with
  | VStr s => Return (Some (Some s))
  | VNone => Return (Some None)
  | _ => if hashable v then Return None
         else Raise (Exn TypeError "unhashable type" None)
  end.

Section Dispatch.
Variable repr : value -> string.
(** The module-level table, filled in [__init__.py] and by users. *)
Variable KEY_FOR_TYPE_AND_SCHEME : gmap (option string * option string) key_impl.

Definition lookup_impl (keytype scheme : value) : result (option key_impl) :=
  match table_component keytype with
  | Raise e => Raise e
  | Return kt =>
      match table_component scheme with
      | Raise e => Raise e
      | Return sch =>
          match kt, sch with
          | Some a, Some b => Return (KEY_FOR_TYPE_AND_SCHEME !! (a, b))
          | _, _ => Return None
          end
      end
  end.

(** [Key.from_dict] *)
Definition from_dict (keyid : string) (key_dict : loc) : Py heap t :=
  let* keytype := dict_get_default key_dict "keytype" in
  let* scheme := dict_get_default key_dict "scheme" in
  match lookup_impl keytype scheme with
  | Raise e => raise e
  | Return None =>
      raise (Exn ValueError
               ("Unsupported public key " +:+ py_str repr keytype
                  +:+ "/" +:+ py_str repr scheme) None)
  | Return (Some key_impl) => key_impl keyid key_dict
  end.
End Dispatch.

End Key.

(** Modelled from the spec: the class [Signature] of
    [securesystemslib/signer/_signature.py] is not part of the sources.  The
    spec (3) gives it the fields [keyid] and [signature], the latter the
    hex-encoded bytes of the signature as text. *)
Module Signature.
Record t := mk { keyid : string; signature : string }.
End Signature.

(** [bytes.fromhex(string)] of Python 3.7 and later: ASCII whitespace between
    the bytes is skipped, and every byte is two hexadecimal digits; anything
    else is a ValueError. *)
Definition is_space (c : ascii) : bool :=
  let n := N_of_ascii c in
  ((n =? 32) || (n =? 9) || (n =? 10) || (n =? 11) || (n =? 12) || (n =? 13))%N.

Definition hex_digit (c : ascii) : option N :=
  let n := N_of_ascii c in
  if ((48 <=? n) && (n <=? 57))%N then Some (n - 48)%N
  else if ((97 <=? n) && (n <=? 102))%N then Some (n - 87)%N
  else if ((65 <=? n) && (n <=? 70))%N then Some (n - 55)%N
  else None.

Fixpoint fromhex (s : string) : option bytes :=
  match s with
  | EmptyString => Some []
  | String c rest =>
      if is_space c then fromhex rest
      else
        match hex_digit c, rest with
        | Some top, String c' rest' =>
            match hex_digit c' with
            | Some bot =>
                match fromhex rest' with
                | Some bs => Some (byte_of_ascii (ascii_of_N (16 * top + bot)) :: bs)
                | None => None
                end
            | None => None
            end
        | _, _ => None
        end
  end.

(** [string.split("-")] *)
Fixpoint split_dash_aux (s : string) (current : string) : list string :=
  match s with
  | EmptyString => [current]
  | String c rest =>
      if Ascii.eqb c "-"%char then current :: split_dash_aux rest EmptyString
      else split_dash_aux rest (current +:+ char c)
  end.
Definition split_dash (s : string) : list string := split_dash_aux s EmptyString.

(** [string[-3:]] *)
Definition last3 (s : string) : string :=
  String.substring (String.length s - 3) 3 s.

(** [needle in haystack] for two [str] *)
Definition substringb (needle haystack : string) : bool :=
  match String.index 0 needle haystack with Some _ => true | None => false end.

(** The classes of the provider that the module constructs. *)
Inductive HashAlgorithm := SHA224 | SHA256 | SHA384 | SHA512.
Inductive AsymmetricPadding :=
| PSS (mgf1 : HashAlgorithm)   (* PSS(mgf=MGF1(h), salt_length=PSS.AUTO) *)
| PKCS1v15.

(** The arguments of [key.verify] after the signature and the data. *)
Inductive verify_arguments :=
| RSA_arguments (padding : AsymmetricPadding) (algorithm : HashAlgorithm)
| EC_arguments (ecdsa_algorithm : HashAlgorithm)   (* ECDSA(h) *)
| Ed25519_arguments.

(** What [verify_signature] does besides returning or raising. *)
Inductive event :=
| Ev_fromhex (s : value)
| Ev_load_pem_public_key (pem : bytes)
| Ev_from_public_bytes (public_bytes : bytes)
| Ev_verify (sig data : bytes) (args : verify_arguments)
| Ev_checkvalid (sig data public_bytes : bytes)
| Ev_logger_info (keyid : string) (e : string).

Definition emit (ev : event) : Py (list event) unit :=
  fun log => (log ++ [ev], Return tt).

Definition lift {S A} (r : result A) : Py S A := fun st => (st, r).

(** [try: body  except Exception as e: handler(e)] *)
Definition try_except {S A} (body : Py S A) (handler : exn -> Py S A) : Py S A :=
  fun st => match body st with
            | (st', Raise e) => handler e st'
            | (st', Return a) => (st', Return a)
            end.

(** [x in names] for a list of literals *)
Definition in_list (x : string) (names : list string) : bool :=
  existsb (String.eqb x) names.

(** [d[k]] for a dict [d] *)
Definition dict_getitem (d : pydict) (k : string) : result value :=
  match dict_get d k with
  | Some v => Return v
  | None => Raise (Exn KeyError k None)
  end.

(** [v[k]] for any value [v] and a [str] [k]: only a dict is indexed by
    text. *)
Definition getitem (v : value) (k : string) : result value :=
  match v with
  | VDict d => dict_getitem d k
  | VStr _ | VBytes _ | VList _ | VTuple _ =>
      Raise (Exn TypeError
               (type_name v +:+ " indices must be integers") None)
  | _ =>
      Raise (Exn TypeError
               ("'" +:+ type_name v +:+ "' object is not subscriptable") None)
  end.

Module SSlibKey.

(** ["public" not in keyval or not isinstance(keyval["public"], str)] for
    whatever the dict held under ["keyval"]. *)
Definition public_missing (keyval : value) : result bool :=
  match keyval with
  | VDict d =>
      Return (match dict_get d "public" with
              | Some (VStr _) => false
              | _ => true
              end)
  | VStr s =>
      if substringb "public" s
      then Raise (Exn TypeError "string indices must be integers" None)
      else Return true
  | VList l | VTuple l =>
      if existsb (fun x => match x with
                           | VStr s => String.eqb s "public"
                           | _ => false
                           end) l
      then Raise (Exn TypeError "indices must be integers or slices" None)
      else Return true
  | _ => Raise (Exn TypeError "argument is not iterable" None)
  end.

(** [SSlibKey.from_dict] *)
Definition from_dict (repr : value -> string) (keyid : string)
    (key_dict : loc) : Py heap Key.t :=
  let* fields := Key._from_dict key_dict in
  let '(keytype, scheme, keyval) := fields in
  let* missing := lift (public_missing keyval) in
  if (missing : bool) then
    raise (Exn ValueError
             ("public key string required for scheme " +:+ py_str repr scheme)
             None)
  else
    (* All fields left in the key_dict are unrecognized. *)
    Key.__init__ (VStr keyid) keytype scheme keyval (Some key_dict).

(** [SSlibKey.to_dict] *)
Definition to_dict (self : Key.t) : Py heap pydict := Key._to_dict self.

(** [SSlibKey.to_securesystemslib_key] *)
Definition to_securesystemslib_key (self : Key.t) : pydict :=
  [("keyid", VStr (Key.keyid self));
   ("keytype", VStr (Key.keytype self));
   ("scheme", VStr (Key.scheme self));
   ("keyval", VDict (Key.keyval self))].

(** [SSlibKey.from_securesystemslib_key]: the arguments of the constructor
    are evaluated from left to right, and no [unrecognized_fields] is
    passed. *)
Definition from_securesystemslib_key (key_dict : pydict) : Py heap Key.t :=
  let* keyid := lift (dict_getitem key_dict "keyid") in
  let* keytype := lift (dict_getitem key_dict "keytype") in
  let* scheme := lift (dict_getitem key_dict "scheme") in
  let* keyval := lift (dict_getitem key_dict "keyval") in
  let* public := lift (getitem keyval "public") in
  Key.__init__ keyid keytype scheme (VDict [("public", public)]) None.

(** [SSlibKey._get_hash_algorithm]: four [if]s in a row assign the local
    [algorithm]; returning it unassigned is an UnboundLocalError. *)
Definition _get_hash_algorithm (name : string) : result HashAlgorithm :=
  let algorithm := None in
  let algorithm := if String.eqb name "sha224" then Some SHA224 else algorithm in
  let algorithm := if String.eqb name "sha256" then Some SHA256 else algorithm in
  let algorithm := if String.eqb name "sha384" then Some SHA384 else algorithm in
  let algorithm := if String.eqb name "sha512" then Some SHA512 else algorithm in
  match algorithm with
  | Some a => Return a
  | None => Raise (Exn UnboundLocalError "algorithm" None)
  end.

(** [SSlibKey._get_rsa_padding] *)
Definition _get_rsa_padding (name : string) (hash_algorithm : HashAlgorithm)
  : result AsymmetricPadding :=
  let padding := None in
  let padding := if String.eqb name "pss" then Some (PSS hash_algorithm) else padding in
  let padding := if String.eqb name "pkcs1v15" then Some PKCS1v15 else padding in
  match padding with
  | Some p => Return p
  | None => Raise (Exn UnboundLocalError "padding" None)
  end.

Section Verify.
(** The module constant: [None], or the message set when importing
    pyca/cryptography failed. *)
Variable CRYPTO_IMPORT_ERROR : option string.
(** [checkvalid] of the vendored pure-Python ed25519: returns, raises
    SignatureMismatch, or raises another exception. *)
Variable checkvalid : bytes -> bytes -> bytes -> result unit.
(** pyca/cryptography: the public key objects, the two loaders and the
    method [verify] of a key object.  All exceptions of the provider are
    taken to derive from [Exception]. *)
Variable PublicKey : Type.
Variable load_pem_public_key : bytes -> result PublicKey.
Variable from_public_bytes : bytes -> result PublicKey.
Variable verify : PublicKey -> bytes -> bytes -> verify_arguments -> result unit.

(** The truth value of [CRYPTO_IMPORT_ERROR] in [if CRYPTO_IMPORT_ERROR:] *)
Definition crypto_import_failed : bool :=
  match CRYPTO_IMPORT_ERROR with
  | Some s => negb (String.eqb s EmptyString)
  | None => false
  end.

(** [self.keyval["public"]] *)
Definition keyval_public (self : Key.t) : Py (list event) value :=
  match dict_get (Key.keyval self) "public" with
  | Some v => ret v
  | None => raise (Exn KeyError "public" None)
  end.

(** [bytes.fromhex(x)] *)
Definition bytes_fromhex (x : value) : Py (list event) bytes :=
  emit (Ev_fromhex x) ;;
  match x with
  | VStr s =>
      match fromhex s with
      | Some b => ret b
      | None =>
          raise (Exn ValueError
                   "non-hexadecimal number found in fromhex() arg" None)
      end
  | _ => raise (Exn TypeError "fromhex() argument must be str" None)
  end.

(** [SSlibKey._from_pem] *)
Definition _from_pem (self : Key.t) : Py (list event) PublicKey :=
  let* public := keyval_public self in
  match public with
  | VStr s =>
      let public_bytes := list_byte_of_string s in
      emit (Ev_load_pem_public_key public_bytes) ;;
      lift (load_pem_public_key public_bytes)
  | _ => raise (Exn (OtherException "AttributeError")
                    "object has no attribute 'encode'" None)
  end.

(** [key.verify(sig, data, ...)] *)
Definition key_verify (key : PublicKey) (sig data : bytes)
    (args : verify_arguments) : Py (list event) unit :=
  emit (Ev_verify sig data args) ;; lift (verify key sig data args).

(** The two [except] clauses that close each branch: the mismatch
    exception of the verifier in use, then [Exception]. *)
Definition handlers (mismatch : exn_class) (self : Key.t) (e : exn)
  : Py (list event) unit :=
  if exn_class_eqb (exn_cls e) mismatch then
    raise (Exn UnverifiedSignatureError
             ("Failed to verify signature by " +:+ Key.keyid self) (Some e))
  else
    emit (Ev_logger_info (Key.keyid self) (exn_str e)) ;;
    raise (Exn VerificationError
             ("Unknown failure to verify signature by " +:+ Key.keyid self)
             (Some e)).

(** [SSlibKey.verify_signature] *)
Definition verify_signature (self : Key.t) (signature : Signature.t)
    (data : bytes) : Py (list event) unit :=
  if negb (String.eqb (Signature.keyid signature) (Key.keyid self)) then
    raise (Exn VerificationError EmptyString
             (Some (Exn ValueError
                      ("keyid mismatch: 'key id: " +:+ Key.keyid self
                         +:+ " != signature keyid: "
                         +:+ Signature.keyid signature +:+ "'") None)))
  else
    let* sig := bytes_fromhex (VStr (Signature.signature signature)) in
    if crypto_import_failed then
      try_except
        ((if negb (String.eqb (Key.scheme self) "ed25519")
          then raise (Exn UnsupportedLibraryError
                        (default EmptyString CRYPTO_IMPORT_ERROR) None)
          else ret tt) ;;
         let* public := keyval_public self in
         let* public_bytes := bytes_fromhex public in
         emit (Ev_checkvalid sig data public_bytes) ;;
         lift (checkvalid sig data public_bytes))
        (handlers SignatureMismatch self)
    else
      try_except
        (if in_list (Key.scheme self)
              ["rsassa-pss-sha224"; "rsassa-pss-sha256";
               "rsassa-pss-sha384"; "rsassa-pss-sha512";
               "rsa-pkcs1v15-sha224"; "rsa-pkcs1v15-sha256";
               "rsa-pkcs1v15-sha384"; "rsa-pkcs1v15-sha512"]
         then
           let* key := _from_pem self in
           match tail (split_dash (Key.scheme self)) with
           | [padding_name; hash_name] =>
               let* hash_algorithm := lift (_get_hash_algorithm hash_name) in
               let* padding :=
                 lift (_get_rsa_padding padding_name hash_algorithm) in
               key_verify key sig data (RSA_arguments padding hash_algorithm)
           | _ => raise (Exn ValueError "values to unpack" None)
           end
         else if in_list (Key.scheme self)
                   ["ecdsa-sha2-nistp256"; "ecdsa-sha2-nistp384"]
         then
           let* key := _from_pem self in
           let hash_name := "sha" +:+ last3 (Key.scheme self) in
           let* hash_algorithm := lift (_get_hash_algorithm hash_name) in
           key_verify key sig data (EC_arguments hash_algorithm)
         else if in_list (Key.scheme self) ["ed25519"]
         then
           let* public := keyval_public self in
           let* public_bytes := bytes_fromhex public in
           emit (Ev_from_public_bytes public_bytes) ;;
           let* key := lift (from_public_bytes public_bytes) in
           key_verify key sig data Ed25519_arguments
         else
           raise (Exn ValueError
                    ("unknown scheme '" +:+ Key.scheme self +:+ "'") None))
        (handlers InvalidSignature self).
End Verify.

End SSlibKey.

(** ** Definitions used to state the properties *)

(** Induction on values that reaches the elements of lists, tuples and
    dicts. *)
Section value_induction.
Variable P : value -> Prop.
Hypothesis HStr : forall s, P (VStr s).
Hypothesis HBool : forall b, P (VBool b).
Hypothesis HNone : P VNone.
Hypothesis HInt : forall z, P (VInt z).
Hypothesis HFloat : forall m e, P (VFloat m e).
Hypothesis HBytes : forall b, P (VBytes b).
Hypothesis HList : forall l, Forall P l -> P (VList l).
Hypothesis HTuple : forall l, Forall P l -> P (VTuple l).
Hypothesis HDict : forall d, Forall (fun kv => P (snd kv)) d -> P (VDict d).
Hypothesis HObject : forall n h, P (VObject n h).

Fixpoint value_ind' (v : value) : P v :=
  match v with
  | VStr s => HStr s
  | VBool b => HBool b
  | VNone => HNone
  | VInt z => HInt z
  | VFloat m e => HFloat m e
  | VBytes b => HBytes b
  | VList l =>
      HList l ((fix go (l : list value) : Forall P l :=
                  match l with
                  | [] => List.Forall_nil P
                  | x :: r => @List.Forall_cons _ P x r (value_ind' x) (go r)
                  end) l)
  | VTuple l =>
      HTuple l ((fix go (l : list value) : Forall P l :=
                   match l with
                   | [] => List.Forall_nil P
                   | x :: r => @List.Forall_cons _ P x r (value_ind' x) (go r)
                   end) l)
  | VDict d =>
      HDict d ((fix go (d : list (string * value))
                  : Forall (fun kv => P (snd kv)) d :=
                  match d with
                  | [] => List.Forall_nil _
                  | kv :: r =>
                      @List.Forall_cons _ (fun kv => P (snd kv)) kv r
                        (value_ind' (snd kv)) (go r)
                  end) d)
  | VObject n h => HObject n h
  end.
End value_induction.

(** The replacement of one character as the specification words it: a quote
    or a backslash gets a backslash in front, any other character stays. *)
Definition spec_escape_char (c : ascii) : string :=
  if Ascii.eqb c dquote then String backslash (char dquote)
  else if Ascii.eqb c backslash then String backslash (char backslash)
  else char c.

(** The number of quotes and backslashes of a text. *)
Fixpoint count_escaped (s : string) : nat :=
  match s with
  | EmptyString => 0%nat
  | String c rest =>
      ((if (Ascii.eqb c dquote || Ascii.eqb c backslash)%bool then 1 else 0)
       + count_escaped rest)%nat
  end.

(** The text of five characters a, quote, b, backslash, c, and its encoding
    of nine: quote, a, backslash, quote, b, backslash, backslash, c, quote. *)
Definition sample_text : string := "a" +:+ char dquote +:+ "b\c".
Definition sample_encoding : string :=
  char dquote +:+ "a\" +:+ char dquote +:+ "b\\c" +:+ char dquote.

(** The one-shot form: [encode_canonical(object)]. *)
Definition encode_canonical_oneshot (repr : value -> string) (object : value)
  : result (option string) :=
  snd (encode_canonical (S := unit) repr object None tt).

(** The text the one-shot form returns, [None] if it raises. *)
Definition encoded_text (repr : value -> string) (object : value)
  : option string :=
  match encode_canonical_oneshot repr object with
  | Return text => text
  | Raise _ => None
  end.

(** The chunks handed to a sink that records them, and the outcome. *)
Definition chunks_of (repr : value -> string) (v : value)
  : list string * result unit :=
  _encode_canonical repr list_append v [].

(** A sink fed with chunks one after the other. *)
Definition feed {S : Type} (f : string -> S -> S) (st : S) (chunks : list string) : S :=
  foldl (fun s c => f c s) st chunks.

(** Runs in a row with a separator chunk between them, up to the first that
    raises. *)
Fixpoint join_traces (sep : string) (runs : list (list string * result unit))
  : list string * result unit :=
  match runs with
  | [] => ([], Return tt)
  | (c, Raise e) :: _ => (c, Raise e)
  | (c, Return _) :: rest =>
      match rest with
      | [] => (c, Return tt)
      | _ :: _ => let '(c', r) := join_traces sep rest in (c ++ sep :: c', r)
      end
  end.

(** A run between an opening and a closing chunk. *)
Definition wrap_trace (opening closing : string) (run : list string * result unit)
  : list string * result unit :=
  match run with
  | (c, Return _) => (opening :: c ++ [closing], Return tt)
  | (c, Raise e) => (opening :: c, Raise e)
  end.

(** The run of one item of a dict, given the run of its value. *)
Definition item_trace (key : string) (run : list string * result unit)
  : list string * result unit :=
  (_canonical_string_encoder key :: ":" :: fst run, snd run).

(** The values the encoder accepts: text, booleans, [None], integers, and
    lists, tuples and dicts of such values. *)
Fixpoint encodable (v : value) : bool :=
  match v with
  | VStr _ | VBool _ | VNone | VInt _ => true
  | VList l | VTuple l => forallb encodable l
  | VDict d => forallb (fun kv => encodable (snd kv)) d
  | VFloat _ _ | VBytes _ | VObject _ _ => false
  end.

(** A value of a type the encoder has no case for. *)
Definition outside_model (v : value) : bool :=
  match v with
  | VFloat _ _ | VBytes _ | VObject _ _ => true
  | _ => false
  end.

(** [occurs_in w v]: [w] is [v] or occurs inside [v]. *)
Inductive occurs_in (w : value) : value -> Prop :=
| occurs_here : occurs_in w w
| occurs_list l x : In x l -> occurs_in w x -> occurs_in w (VList l)
| occurs_tuple l x : In x l -> occurs_in w x -> occurs_in w (VTuple l)
| occurs_dict d k x : In (k, x) d -> occurs_in w x -> occurs_in w (VDict d).

(** Whitespace, and how many whitespace characters a text and the texts of a
    value (its strings and the keys of its dicts) hold. *)
Fixpoint count_space (s : string) : nat :=
  match s with
  | EmptyString => 0%nat
  | String c rest => ((if is_space c then 1 else 0) + count_space rest)%nat
  end.

Fixpoint count_space_value (v : value) : nat :=
  match v with
  | VStr s => count_space s
  | VList l | VTuple l => list_sum (map count_space_value l)
  | VDict d =>
      list_sum (map (fun kv => (count_space (fst kv) + count_space_value (snd kv))%nat) d)
  | _ => 0%nat
  end.

(** The order of the items of a dict: the order of their keys. *)
Definition key_le {A : Type} (x y : string * A) : Prop :=
  String.leb (fst x) (fst y) = true.

(** The action [a] hands the chunks of [run] to the sink [f] and ends as
    [run] does. *)
Definition traces_as {S : Type} (f : string -> S -> S) (a : Py S unit)
    (run : list string * result unit) : Prop :=
  forall st, a st = (feed f st (fst run), snd run).

(** The run ends without an exception. *)
Definition returns (run : list string * result unit) : Prop :=
  snd run = Return tt.

(** The exception of the last case of [_encode_canonical]. *)
Definition cannot_encode (repr : value -> string) (w : value) : exn :=
  Exn FormatError ("I cannot encode " +:+ repr w) None.

(** The date of a day number is a date [datetime.datetime] accepts, and
    [calendar.timegm] maps it back to the day number. *)
Definition day_ok (days : Z) : bool :=
  let '(y, m, d) := civil_from_days days in
  (1 <=? y) && (y <=? 9999) && (1 <=? m) && (m <=? 12)
  && (1 <=? d) && (d <=? days_in_month y m)
  && (days_from_civil y m 1 + d - 1 =? days).

(** [day_ok] on [count] days in a row. *)
Fixpoint days_ok_from (count : nat) (start : Z) : bool :=
  match count with
  | O => true
  | S count' => day_ok start && days_ok_from count' (start + 1)
  end.

(** The fields left of a key dict once [_from_dict] has popped its three. *)
Definition unrecognized_of (D : pydict) : pydict :=
  dict_remove (dict_remove (dict_remove D "keytype") "scheme") "keyval".

(** In every dict of the value the keys are pairwise different, as they are
    in any Python dict. *)
Fixpoint keys_unique (v : value) : bool :=
  match v with
  | VList l | VTuple l => forallb keys_unique l
  | VDict d =>
      bool_decide (NoDup (map fst d))
      && forallb (fun kv => keys_unique (snd kv)) d
  | _ => true
  end.

(** Two values that differ at most in the insertion order of their dicts,
    at any depth. *)
Inductive same_items : value -> value -> Prop :=
| same_value v : same_items v v
| same_list l l' :
    Forall2 same_items l l' -> same_items (VList l) (VList l')
| same_tuple l l' :
    Forall2 same_items l l' -> same_items (VTuple l) (VTuple l')
| same_dict d d' d'' :
    Forall2 (fun kv kv' => fst kv = fst kv' /\ same_items (snd kv) (snd kv')) d d' ->
    Permutation d' d'' ->
    same_items (VDict d) (VDict d'').

(** A character of the base64 alphabet. *)
Definition is_base64_char (c : ascii) : bool := in_chars c base64_alphabet.

(** Every character of the text satisfies [P]. *)
Definition string_forall (P : ascii -> bool) (s : string) : bool :=
  forallb P (list_ascii_of_string s).

(** The characters [format_base64] strips from the end. *)
Definition stripped_chars : string := String "="%char (String newline " ").





(** The names of the base fields of a key dict. *)
Definition base_fields : list string := ["keytype"; "scheme"; "keyval"].

(** A call of a verifier: [key.verify] of the provider or [checkvalid]. *)
Definition verifier_event (ev : event) : bool :=
  match ev with
  | Ev_verify _ _ _ | Ev_checkvalid _ _ _ => true
  | _ => false
  end.

(** A call into pyca/cryptography. *)
Definition provider_event (ev : event) : bool :=
  match ev with
  | Ev_load_pem_public_key _ | Ev_from_public_bytes _ | Ev_verify _ _ _ => true
  | _ => false
  end.

(** A call into the vendored ed25519. *)
Definition fallback_event (ev : event) : bool :=
  match ev with
  | Ev_checkvalid _ _ _ => true
  | _ => false
  end.

(** The action adds events to the record, all of them allowed by [P], at
    most [n] of them calls of a verifier; the record it found stays. *)
Definition emits {A : Type} (P : event -> bool) (n : nat)
    (m : Py (list event) A) : Prop :=
  forall log : list event,
    exists evs : list event,
      fst (m log) = log ++ evs
      /\ forallb P evs = true
      /\ (length (filter (fun ev => verifier_event ev = true) evs) <= n)%nat.

(** The digits that end the name of a scheme. *)
Definition hash_bits (h : HashAlgorithm) : string :=
  match h with
  | SHA224 => "224"
  | SHA256 => "256"
  | SHA384 => "384"
  | SHA512 => "512"
  end.

(** Reading an encoded text back, as a reader of the canonical form does:
    after the opening quote a backslash makes the next character literal,
    and the first quote without a backslash before it ends the text.  The
    result is the text read and what follows the closing quote. *)
Fixpoint scan_escaped (t : string) : option (string * string) :=
  match t with
  | EmptyString => None
  | String c rest =>
      if Ascii.eqb c dquote then Some (EmptyString, rest)
      else if Ascii.eqb c backslash then
        match rest with
        | EmptyString => None
        | String c' rest' =>
            match scan_escaped rest' with
            | Some (s, after) => Some (String c' s, after)
            | None => None
            end
        end
      else
        match scan_escaped rest with
        | Some (s, after) => Some (String c s, after)
        | None => None
        end
  end.

Definition scan_string (t : string) : option (string * string) :=
  match t with
  | String c rest => if Ascii.eqb c dquote then scan_escaped rest else None
  | EmptyString => None
  end.

(** The canonical form of a value: tuples are lists, and the items of every
    dict are in the order of [sorted]. *)
Fixpoint canonical_form (v : value) : value :=
  match v with
  | VList l | VTuple l => VList (map canonical_form l)
  | VDict d =>
      VDict (sorted (map (fun kv => (fst kv, canonical_form (snd kv))) d))
  | _ => v
  end.

(** The chunks of a run, joined. *)
Definition text_of (repr : value -> string) (v : value) : string :=
  String.concat EmptyString (fst (chunks_of repr v)).

(** A decimal digit. *)
Definition is_digit (c : ascii) : bool :=
  let n := N_of_ascii c in ((48 <=? n) && (n <=? 57))%N.

Definition starts_with_digit (t : string) : bool :=
  match t with
  | String c _ => is_digit c
  | EmptyString => false
  end.

(** The digits at the front of a text, and what follows them. *)
Fixpoint span_digits (t : string) : string * string :=
  match t with
  | EmptyString => (EmptyString, EmptyString)
  | String c rest =>
      if is_digit c then
        let '(digits, after) := span_digits rest in (String c digits, after)
      else (EmptyString, t)
  end.

(** An integer in decimal form at the front of a text. *)
Definition scan_int (t : string) : option (Z * string) :=
  let '(sign, t') :=
    match t with
    | String c rest =>
        if Ascii.eqb c "-" then (String c EmptyString, rest) else (EmptyString, t)
    | EmptyString => (EmptyString, t)
    end in
  let '(digits, after) := span_digits t' in
  match NilZero.int_of_string (sign +:+ digits) with
  | Some i => Some (Z.of_int i, after)
  | None => None
  end.

(** [t] without [p] at its front. *)
Fixpoint strip_prefix (p t : string) : option string :=
  match p, t with
  | EmptyString, _ => Some t
  | String a p', String b t' => if Ascii.eqb a b then strip_prefix p' t' else None
  | String _ _, EmptyString => None
  end.

(** The elements of a non-empty list up to the closing bracket. *)
Fixpoint parse_elements (parse_value : string -> option (value * string))
    (fuel : nat) (t : string) : option (list value * string) :=
  match fuel with
  | O => None
  | S fuel' =>
      match parse_value t with
      | Some (v, String c after) =>
          if Ascii.eqb c "," then
            match parse_elements parse_value fuel' after with
            | Some (vs, after') => Some (v :: vs, after')
            | None => None
            end
          else if Ascii.eqb c "]" then Some ([v], after)
          else None
      | _ => None
      end
  end.

(** The items of a non-empty dict up to the closing brace. *)
Fixpoint parse_items (parse_value : string -> option (value * string))
    (fuel : nat) (t : string) : option (list (string * value) * string) :=
  match fuel with
  | O => None
  | S fuel' =>
      match scan_string t with
      | Some (key, String c after) =>
          if Ascii.eqb c ":" then
            match parse_value after with
            | Some (v, String c' after') =>
                if Ascii.eqb c' "," then
                  match parse_items parse_value fuel' after' with
                  | Some (items, after'') => Some ((key, v) :: items, after'')
                  | None => None
                  end
                else if Ascii.eqb c' "}" then Some ([(key, v)], after')
                else None
            | _ => None
            end
          else None
      | _ => None
      end
  end.

(** A reader of the canonical form: the value at the front of a text and
    what follows it.  [fuel] bounds the nesting and the number of elements. *)
Fixpoint parse (fuel : nat) (t : string) : option (value * string) :=
  match fuel with
  | O => None
  | S fuel' =>
      match t with
      | EmptyString => None
      | String c rest =>
          if Ascii.eqb c dquote then
            match scan_string t with
            | Some (s, after) => Some (VStr s, after)
            | None => None
            end
          else if Ascii.eqb c "[" then
            match strip_prefix "]" rest with
            | Some after => Some (VList [], after)
            | None =>
                match parse_elements (parse fuel') fuel' rest with
                | Some (vs, after) => Some (VList vs, after)
                | None => None
                end
            end
          else if Ascii.eqb c "{" then
            match strip_prefix "}" rest with
            | Some after => Some (VDict [], after)
            | None =>
                match parse_items (parse fuel') fuel' rest with
                | Some (items, after) => Some (VDict items, after)
                | None => None
                end
            end
          else
            match strip_prefix "true" t with
            | Some after => Some (VBool true, after)
            | None =>
                match strip_prefix "false" t with
                | Some after => Some (VBool false, after)
                | None =>
                    match strip_prefix "null" t with
                    | Some after => Some (VNone, after)
                    | None =>
                        match scan_int t with
                        | Some (z, after) => Some (VInt z, after)
                        | None => None
                        end
                    end
                end
            end
      end
  end.

(** The value a whole text of the canonical form stands for. *)
Definition decode (text : string) : option value :=
  match parse (S (String.length text)) text with
  | Some (v, EmptyString) => Some v
  | _ => None
  end.

(** A character a value of the canonical form can start with. *)
Definition opens_value (c : ascii) : bool :=
  (Ascii.eqb c dquote || Ascii.eqb c "[" || Ascii.eqb c "{" || Ascii.eqb c "t"
   || Ascii.eqb c "f" || Ascii.eqb c "n" || Ascii.eqb c "-" || is_digit c)%bool.

(** What a reader of values has to do on the text of [x], whatever follows
    it, a digit apart. *)
Definition reads (repr : value -> string)
    (parse_value : string -> option (value * string)) (x : value) : Prop :=
  forall after : string,
    starts_with_digit after = false ->
    parse_value (text_of repr x +:+ after) = Some (canonical_form x, after).

(** ** Sample inputs *)

Definition sample_repr (v : value) : string := "<value>".

(** A provider that accepts whatever it is given. *)
Definition accept_checkvalid (sig data public_bytes : bytes) : result unit :=
  Return tt.
Definition accept_load (b : bytes) : result unit := Return tt.
Definition accept_verify (key : unit) (sig data : bytes) (args : verify_arguments)
  : result unit := Return tt.

Definition crypto_missing : option string :=
  Some "'pyca/cryptography' library required".

Definition sample_rsa_key : Key.t :=
  Key.mk "k1" "rsa" "rsassa-pss-sha256" [("public", VStr "PEM")] 0%nat.
Definition sample_unknown_scheme_key : Key.t :=
  Key.mk "k1" "rsa" "no-such-scheme" [("public", VStr "PEM")] 0%nat.

(** A signature by another key, and one whose text has an odd number of
    hexadecimal digits (it matches HEX_SCHEMA, the pattern of one or more
    hexadecimal digits). *)
Definition signature_of_other_key : Signature.t := Signature.mk "k2" "00".
Definition signature_odd_hex : Signature.t := Signature.mk "k1" "abc".

Definition sample_key_dict : pydict :=
  [("keytype", VStr "ed25519"); ("scheme", VStr "ed25519");
   ("keyval", VDict [("public", VStr "abcd")]); ("custom", VStr "x")].
Definition sample_heap : heap := {[ 0%nat := sample_key_dict ]}.
Definition sample_table : gmap (option string * option string) Key.key_impl :=
  {[ (Some "ed25519", Some "ed25519") := SSlibKey.from_dict sample_repr ]}.

Definition dict_xy : list (string * value) := [("x", VInt 3); ("y", VInt 2)].
Definition dict_yx : list (string * value) := [("y", VInt 2); ("x", VInt 3)].

(** A key whose unrecognized fields hold a field named like a base field,
    and the store with its dict. *)
Definition sample_shadowing_key : Key.t :=
  Key.mk "k1" "ed25519" "ed25519" [("public", VStr "abcd")] 0%nat.
Definition sample_shadowing_heap : heap :=
  {[ 0%nat := [("keytype", VStr "other"); ("custom", VStr "x")] ]}.

(** The key that [from_dict] makes of [sample_key_dict], with the dict left
    of it. *)
Definition sample_ed25519_key : Key.t :=
  Key.mk "k1" "ed25519" "ed25519" [("public", VStr "abcd")] 0%nat.
Definition sample_unrecognized_heap : heap := {[ 0%nat := [("custom", VStr "x")] ]}.

(** Key dicts that [SSlibKey.from_dict] refuses: no scheme, and a keyval
    without a public key. *)
Definition sample_dict_without_scheme : pydict :=
  [("keytype", VStr "ed25519"); ("keyval", VDict [("public", VStr "abcd")])].
Definition sample_dict_without_public : pydict :=
  [("keytype", VStr "ed25519"); ("scheme", VStr "ed25519");
   ("keyval", VDict [("private", VStr "abcd")]); ("custom", VStr "x")].

(** A key dict without keytype and scheme, and a table with an
    implementation under the pair of two [None]. *)
Definition sample_dict_without_type : pydict := [("keyval", VDict [])].
Definition sample_wildcard_table
  : gmap (option string * option string) Key.key_impl :=
  {[ (None, None) := SSlibKey.from_dict sample_repr ]}.

(** A key with the same keyid, scheme and public key as [sample_rsa_key]
    and nothing else in common with it. *)
Definition sample_rsa_key_with_private : Key.t :=
  Key.mk "k1" "other" "rsassa-pss-sha256"
    [("private", VStr "secret"); ("public", VStr "PEM")] 7%nat.

(** A signature by the key [k1] with a text of two hexadecimal digits. *)
Definition signature_of_k1 : Signature.t := Signature.mk "k1" "00".

(** A provider whose [verify] finds every signature invalid. *)
Definition reject_verify (key : unit) (sig data : bytes) (args : verify_arguments)
  : result unit := Raise (Exn InvalidSignature EmptyString None).

(** The datetime of the docstring of [datetime_to_unix_timestamp], and the
    same date and time of day with a microsecond and a tzinfo object. *)
Definition sample_datetime : datetime := mk_datetime 1985 10 26 1 22 0.

(** Objects of other types asked for their buffer: none gives one, and a
    bytearray that holds the two bytes of the text Ma. *)
Definition no_buffer (v : value) : result bytes :=
  Raise (Exn TypeError
           ("a bytes-like object is required, not '" +:+ type_name v +:+ "'")
           None).
Definition sample_bytearray : value := VObject "bytearray" false.
Definition sample_buffer (v : value) : result bytes :=
  match v with
  | VObject "bytearray" _ => Return (list_byte_of_string "Ma")
  | _ => no_buffer v
  end.

(** A list the encoder gives up on at its second element. *)
Definition sample_unencodable : value := VList [VInt 1; VFloat 1 0].

(** A value with a tuple and a dict not in the order of its keys. *)
Definition sample_nested : value :=
  VTuple [VDict dict_yx; VStr "a"; VInt (-7); VNone; VBool true].

(** ** Properties of the canonical encoder *)

Lemma re_sub_concat (s : string) :
  re_sub_quote_backslash s =
  String.concat EmptyString (map spec_escape_char (list_ascii_of_string s)).
Proof.
  induction s as [|c s IH]; [reflexivity|].
  cbn [re_sub_quote_backslash list_ascii_of_string map].
  assert (Hc : forall l, String.concat EmptyString (spec_escape_char c :: l)
                         = spec_escape_char c +:+ String.concat EmptyString l).
  { intros [|x l]; cbn [String.concat]; [|reflexivity].
    unfold spec_escape_char.
    destruct (Ascii.eqb c dquote), (Ascii.eqb c backslash); reflexivity. }
  rewrite Hc, <- IH. unfold spec_escape_char.
  destruct (Ascii.eqb_spec c dquote) as [->|Hq]; [reflexivity|].
  destruct (Ascii.eqb_spec c backslash) as [->|Hb]; reflexivity.
Qed.

Lemma string_length_app (a b : string) :
  String.length (a +:+ b) = (String.length a + String.length b)%nat.
Proof.
  induction a as [|c a IH]; [reflexivity|].
  change (S (String.length (a +:+ b)) = S (String.length a + String.length b)).
  now rewrite IH.
Qed.

Lemma re_sub_length (s : string) :
  String.length (re_sub_quote_backslash s) = (String.length s + count_escaped s)%nat.
Proof.
  induction s as [|c s IH]; [reflexivity|].
  cbn [re_sub_quote_backslash count_escaped].
  destruct (Ascii.eqb c dquote || Ascii.eqb c backslash)%bool; cbn; rewrite IH; lia.
Qed.

(** C5.  For every text [encode_canonical] returns what
    [_canonical_string_encoder] makes of it, and with a sink hands it that
    one chunk.  This is the text wrapped in double quotes with each character
    replaced on its own: a quote or a backslash by a backslash and the
    character, any other character (control characters too) by itself; so the
    result is longer by the two quotes and one character per escaped one.
    The five characters of [sample_text] are encoded to the nine of
    [sample_encoding]. *)
Theorem canonical_string_encoder_minimal_escaping :
  (forall (repr : value -> string) (s : string) (S : Type) (st : S),
      encode_canonical repr (VStr s) None st
      = (st, Return (Some (_canonical_string_encoder s))))
  /\ (forall (repr : value -> string) (s : string) (S : Type)
        (output_function : string -> S -> S) (st : S),
        encode_canonical repr (VStr s) (Some output_function) st
        = (output_function (_canonical_string_encoder s) st, Return None))
  /\ (forall (repr : value -> string) (s : string),
        encoded_text repr (VStr s)
        = Some (char dquote
                  +:+ String.concat EmptyString
                        (map spec_escape_char (list_ascii_of_string s))
                  +:+ char dquote))
  /\ (forall repr : value -> string,
        encoded_text repr (VStr sample_text) = Some sample_encoding)
  /\ (forall s : string,
      _canonical_string_encoder s =
      char dquote
        +:+ String.concat EmptyString (map spec_escape_char (list_ascii_of_string s))
        +:+ char dquote)
  /\ (forall s : string,
        String.length (_canonical_string_encoder s)
        = (String.length s + count_escaped s + 2)%nat)
  /\ (forall c : ascii,
        c <> dquote -> c <> backslash -> spec_escape_char c = char c)
  /\ String.length sample_text = 5%nat
  /\ _canonical_string_encoder sample_text = sample_encoding
  /\ String.length sample_encoding = 9%nat.
Proof.
  repeat split.
  - intros repr s. unfold encoded_text, encode_canonical_oneshot, encode_canonical.
    cbn [_encode_canonical output list_append app snd String.concat].
    unfold _canonical_string_encoder. now rewrite re_sub_concat.
  - intros s. unfold _canonical_string_encoder. now rewrite re_sub_concat.
  - intros s. unfold _canonical_string_encoder.
    rewrite !string_length_app, re_sub_length. cbn. lia.
  - intros c Hq Hb. unfold spec_escape_char.
    destruct (Ascii.eqb_spec c dquote); [contradiction|].
    destruct (Ascii.eqb_spec c backslash); [contradiction|reflexivity].
Qed.

(** *** The order of the keys *)


Lemma ascii_compare_N (a b : ascii) :
  Ascii.compare a b = N.compare (N_of_ascii a) (N_of_ascii b).
Proof. reflexivity. Qed.

Lemma string_compare_refl (s : string) : String.compare s s = Eq.
Proof.
  induction s as [|c s IH]; [reflexivity|].
  cbn [String.compare]. rewrite ascii_compare_N, N.compare_refl. exact IH.
Qed.

Lemma string_compare_lt_trans (a b c : string) :
  String.compare a b = Lt -> String.compare b c = Lt -> String.compare a c = Lt.
Proof.
  revert b c. induction a as [|x a IH]; intros [|y b] [|z c]; cbn [String.compare];
    try discriminate; try reflexivity.
  rewrite !ascii_compare_N.
  destruct (N.compare_spec (N_of_ascii x) (N_of_ascii y)) as [Hxy|Hxy|Hxy];
    try discriminate;
    destruct (N.compare_spec (N_of_ascii y) (N_of_ascii z)) as [Hyz|Hyz|Hyz];
    try discriminate; intros H1 H2.
  - rewrite Hxy, Hyz, N.compare_refl. eauto.
  - rewrite Hxy. now apply N.compare_lt_iff in Hyz as ->.
  - rewrite <- Hyz. now apply N.compare_lt_iff in Hxy as ->.
  - assert (Hxz : (N_of_ascii x < N_of_ascii z)%N) by lia.
    now apply N.compare_lt_iff in Hxz as ->.
Qed.

Lemma string_leb_trans (a b c : string) :
  String.leb a b = true -> String.leb b c = true -> String.leb a c = true.
Proof.
  unfold String.leb.
  destruct (String.compare a b) eqn:Hab; try discriminate;
    destruct (String.compare b c) eqn:Hbc; try discriminate; intros _ _.
  - apply String.compare_eq_iff in Hab, Hbc. subst.
    now rewrite string_compare_refl.
  - apply String.compare_eq_iff in Hab. subst. now rewrite Hbc.
  - apply String.compare_eq_iff in Hbc. subst. now rewrite Hab.
  - now rewrite (string_compare_lt_trans a b c).
Qed.

Lemma string_leb_false (a b : string) :
  String.leb a b = false -> String.leb b a = true.
Proof.
  intros H. destruct (String.leb_total a b) as [H'|H']; congruence.
Qed.

Section SortedFacts.
Context {A : Type}.
Implicit Types (x : string * A) (l : list (string * A)).

#[local] Instance key_le_trans : Transitive (@key_le A).
Proof. intros x y z. unfold key_le. apply string_leb_trans. Qed.

Lemma insert_item_perm x l : Permutation (insert_item x l) (x :: l).
Proof.
  induction l as [|y l IH]; cbn [insert_item]; [reflexivity|].
  destruct (String.leb (fst x) (fst y)); [reflexivity|].
  rewrite IH. apply perm_swap.
Qed.

Lemma sorted_perm l : Permutation (sorted l) l.
Proof.
  induction l as [|x l IH]; [reflexivity|].
  unfold sorted in *. cbn [foldr]. rewrite insert_item_perm. now constructor.
Qed.

Lemma insert_item_sorted x l :
  StronglySorted key_le l -> StronglySorted key_le (insert_item x l).
Proof.
  induction l as [|y l IH]; intros Hl; cbn [insert_item].
  - repeat constructor.
  - destruct (String.leb (fst x) (fst y)) eqn:Hxy.
    + constructor; [exact Hl|].
      apply StronglySorted_inv in Hl as [_ Hy].
      constructor; [exact Hxy|].
      eapply List.Forall_impl; [|exact Hy].
      intros z Hz. unfold key_le in *. eapply string_leb_trans; eauto.
    + apply StronglySorted_inv in Hl as [Hl Hy].
      constructor; [now apply IH|].
      rewrite insert_item_perm. constructor; [|exact Hy].
      now apply string_leb_false.
Qed.

Lemma sorted_StronglySorted l : StronglySorted key_le (sorted l).
Proof.
  induction l as [|x l IH]; [constructor|].
  unfold sorted in *. cbn [foldr]. now apply insert_item_sorted.
Qed.

Lemma NoDup_keys_functional l k (a b : A) :
  NoDup (map fst l) -> In (k, a) l -> In (k, b) l -> a = b.
Proof.
  induction l as [|[k' c] l IH]; intros Hnd Ha Hb; [destruct Ha|].
  cbn in Hnd. apply NoDup_cons in Hnd as [Hk Hnd].
  assert (Hin : forall v, In (k', v) l -> False).
  { intros v Hv. apply Hk. apply list_elem_of_In.
    change k' with (fst (k', v)). now apply in_map. }
  destruct Ha as [Ha|Ha], Hb as [Hb|Hb].
  - congruence.
  - inversion Ha; subst. now destruct (Hin b).
  - inversion Hb; subst. now destruct (Hin a).
  - eauto.
Qed.

(** With pairwise different keys the sorted sequence depends on the items
    only, not on their order. *)
Lemma sorted_unique l1 l2 :
  NoDup (map fst l1) -> Permutation l1 l2 -> sorted l1 = sorted l2.
Proof.
  intros Hnd Hp.
  apply (StronglySorted_unique_strong key_le).
  - intros [k1 v1] [k2 v2] H1 H2 H12 H21. unfold key_le in *. cbn in *.
    assert (k1 = k2) as ->.
    { apply String.leb_antisym; assumption. }
    f_equal. apply (NoDup_keys_functional l1 k2); [exact Hnd| |].
    + apply list_elem_of_In in H1. now rewrite sorted_perm in H1.
    + apply list_elem_of_In in H2. now rewrite sorted_perm, <- Hp in H2.
  - apply sorted_StronglySorted.
  - apply sorted_StronglySorted.
  - now rewrite !sorted_perm.
Qed.
End SortedFacts.

Lemma insert_item_map {A B : Type} (g : A -> B) (x : string * A) l :
  insert_item (fst x, g (snd x)) (map (fun kv => (fst kv, g (snd kv))) l)
  = map (fun kv => (fst kv, g (snd kv))) (insert_item x l).
Proof.
  induction l as [|y l IH]; [reflexivity|].
  cbn [map insert_item fst]. destruct (String.leb (fst x) (fst y)); [reflexivity|].
  cbn [map]. now rewrite IH.
Qed.

(** Sorting looks at the keys only. *)
Lemma sorted_map {A B : Type} (g : A -> B) (l : list (string * A)) :
  sorted (map (fun kv => (fst kv, g (snd kv))) l)
  = map (fun kv => (fst kv, g (snd kv))) (sorted l).
Proof.
  induction l as [|x l IH]; [reflexivity|].
  unfold sorted in *. cbn [map foldr]. now rewrite IH, insert_item_map.
Qed.

(** *** What a run hands to its sink *)

Lemma feed_app {S : Type} (f : string -> S -> S) st (a b : list string) :
  feed f st (a ++ b) = feed f (feed f st a) b.
Proof. unfold feed. apply foldl_app. Qed.

Lemma feed_list_append (st chunks : list string) :
  feed list_append st chunks = st ++ chunks.
Proof.
  revert st. induction chunks as [|c chunks IH]; intros st; cbn.
  - now rewrite app_nil_r.
  - change (feed list_append (list_append c st) chunks = st ++ c :: chunks).
    rewrite IH. unfold list_append. now rewrite <- app_assoc.
Qed.

Section Traces.
Context {S : Type}.
Variable f : string -> S -> S.


Lemma traces_output chunk : traces_as f (output f chunk) ([chunk], Return tt).
Proof. intros st. reflexivity. Qed.

Lemma traces_wrap opening closing a run :
  traces_as f a run ->
  traces_as f (output f opening ;; a ;; output f closing)
            (wrap_trace opening closing run).
Proof.
  intros Ha st. unfold bind, output at 1. rewrite Ha.
  destruct run as [c [[]|e]]; cbn [fst snd wrap_trace].
  - unfold output. change (opening :: c ++ [closing]) with ([opening] ++ c ++ [closing]).
    now rewrite !feed_app.
  - reflexivity.
Qed.

Lemma traces_elements acts runs :
  Forall2 (traces_as f) acts runs ->
  traces_as f (encode_elements f acts) (join_traces "," runs).
Proof.
  induction 1 as [|a [c r] acts runs Ha Hrest IH]; intros st; [reflexivity|].
  cbn [encode_elements join_traces]. unfold bind at 1. rewrite Ha.
  cbn [fst snd]. destruct r as [[]|e]; [|reflexivity].
  destruct Hrest as [|a' run' acts' runs' Ha' Hrest']; [reflexivity|].
  unfold bind, output. rewrite IH.
  destruct (join_traces "," (run' :: runs')) as [c' r'].
  cbn [fst snd]. now rewrite feed_app.
Qed.

Lemma traces_items (items : list (string * Py S unit))
    (runs : list (string * (list string * result unit))) :
  Forall2 (fun ka kr => fst ka = fst kr /\ traces_as f (snd ka) (snd kr)) items runs ->
  traces_as f (encode_items f items)
            (join_traces "," (map (fun kr => item_trace (fst kr) (snd kr)) runs)).
Proof.
  induction 1 as [|[k a] [k' [c r]] items runs [Hk Ha] Hrest IH]; intros st;
    [reflexivity|].
  cbn [fst snd] in Hk, Ha. subst k'.
  cbn [encode_items join_traces map item_trace fst snd].
  unfold bind at 1 2 3, output at 1 2. rewrite Ha.
  cbn [fst snd]. destruct r as [[]|e]; [|reflexivity].
  destruct Hrest as [|ka' kr' items' runs' Ha' Hrest']; [reflexivity|].
  unfold bind, output. rewrite IH. cbn [map].
  destruct (join_traces "," _) as [c' r'].
  cbn [fst snd].
  change (_canonical_string_encoder k :: ":" :: c ++ "," :: c')
    with ([_canonical_string_encoder k; ":"] ++ c ++ [","] ++ c').
  now rewrite !feed_app.
Qed.
End Traces.

Lemma Forall_exists_Forall2 {A B : Type} (Q : A -> B -> Prop) (l : list A) :
  Forall (fun x => exists y, Q x y) l -> exists l', Forall2 Q l l'.
Proof.
  induction 1 as [|x l [y Hy] _ [l' IH]]; [exists []; constructor|].
  exists (y :: l'). now constructor.
Qed.

Section EncoderRuns.
Variable repr : value -> string.

(** Every run of the encoder hands the same chunks to whatever sink it is
    given, and ends the same way. *)
Lemma encode_run_exists (v : value) :
  exists run, forall (S : Type) (f : string -> S -> S),
    traces_as f (_encode_canonical repr f v) run.
Proof.
  induction v as [s|b| |z|m e|b|l IH|l IH|d IH|n h] using value_ind'.
  - eexists. intros S f. apply traces_output.
  - destruct b; eexists; intros S f; apply traces_output.
  - eexists. intros S f. apply traces_output.
  - eexists. intros S f. apply traces_output.
  - exists ([], Raise (Exn FormatError ("I cannot encode " +:+ repr (VFloat m e)) None)).
    intros S f st. reflexivity.
  - exists ([], Raise (Exn FormatError ("I cannot encode " +:+ repr (VBytes b)) None)).
    intros S f st. reflexivity.
  - apply Forall_exists_Forall2 in IH as [runs Hruns].
    exists (wrap_trace "[" "]" (join_traces "," runs)). intros S f.
    cbn [_encode_canonical]. apply traces_wrap, traces_elements.
    apply Forall2_fmap_l. eapply Forall2_impl; [exact Hruns|]. auto.
  - apply Forall_exists_Forall2 in IH as [runs Hruns].
    exists (wrap_trace "[" "]" (join_traces "," runs)). intros S f.
    cbn [_encode_canonical]. apply traces_wrap, traces_elements.
    apply Forall2_fmap_l. eapply Forall2_impl; [exact Hruns|]. auto.
  - assert (IH' : Forall (fun kv => exists run, forall S (f : string -> S -> S),
                traces_as f (_encode_canonical repr f (snd kv)) run) (sorted d)).
    { rewrite sorted_perm. exact IH. }
    apply Forall_exists_Forall2 in IH' as [runs Hruns].
    exists (wrap_trace "{" "}"
              (join_traces ","
                 (map (fun kr => item_trace (fst kr) (snd kr))
                      (zip (map fst (sorted d)) runs)))).
    intros S f. cbn [_encode_canonical]. rewrite sorted_map.
    apply traces_wrap, traces_items.
    apply Forall2_fmap_l.
    clear IH. induction Hruns as [|kv run items runs Hkv _ IHr]; [constructor|].
    cbn [map zip zip_with]. constructor; [|exact IHr].
    cbn [fst snd]. split; [reflexivity|apply Hkv].
  - exists ([], Raise (Exn FormatError ("I cannot encode " +:+ repr (VObject n h)) None)).
    intros S f st. reflexivity.
Qed.

(** The run with any sink is the run that records the chunks, fed to that
    sink. *)
Lemma encode_run (v : value) (S : Type) (f : string -> S -> S) (st : S) :
  _encode_canonical repr f v st
  = (feed f st (fst (chunks_of repr v)), snd (chunks_of repr v)).
Proof.
  destruct (encode_run_exists v) as [run Hrun].
  assert (chunks_of repr v = run) as ->; [|apply Hrun].
  unfold chunks_of. rewrite (Hrun _ list_append []), feed_list_append.
  now destruct run.
Qed.
End EncoderRuns.

(** *** Joining chunks *)

Lemma string_app_nil_r (a : string) : a +:+ EmptyString = a.
Proof.
  induction a as [|c a IH]; [reflexivity|].
  change (String c (a +:+ EmptyString) = String c a). now rewrite IH.
Qed.

Lemma string_app_assoc (a b c : string) : (a +:+ b) +:+ c = a +:+ b +:+ c.
Proof.
  induction a as [|x a IH]; [reflexivity|].
  change (String x ((a +:+ b) +:+ c) = String x (a +:+ b +:+ c)). now rewrite IH.
Qed.

Lemma join_cons (x : string) (l : list string) :
  String.concat EmptyString (x :: l) = x +:+ String.concat EmptyString l.
Proof.
  destruct l; [symmetry; apply string_app_nil_r | reflexivity].
Qed.

Lemma join_app (a b : list string) :
  String.concat EmptyString (a ++ b)
  = String.concat EmptyString a +:+ String.concat EmptyString b.
Proof.
  induction a as [|x a IH]; [reflexivity|].
  cbn [app]. now rewrite !join_cons, IH, string_app_assoc.
Qed.


Lemma join_traces_returns sep runs :
  Forall returns runs ->
  exists c, join_traces sep runs = (c, Return tt)
            /\ String.concat EmptyString c
               = String.concat sep (map (fun r => String.concat EmptyString (fst r)) runs).
Proof.
  induction 1 as [|[c r] runs Hr Hruns [c' [IH1 IH2]]]; [now exists []|].
  unfold returns in Hr. cbn in Hr. subst r.
  destruct runs as [|run' runs].
  - exists c. split; reflexivity.
  - exists (c ++ sep :: c'). cbn [join_traces] in *. rewrite IH1. split; [reflexivity|].
    rewrite join_app, join_cons, IH2. reflexivity.
Qed.

Lemma join_traces_inv sep runs c r :
  join_traces sep runs = (c, r) ->
  match r with
  | Return _ => Forall returns runs
  | Raise e => Exists (fun run => snd run = Raise e) runs
  end.
Proof.
  revert c r. induction runs as [|[c1 r1] runs IH]; intros c r H.
  - inversion H. constructor.
  - cbn [join_traces] in H. destruct r1 as [[]|e1].
    + destruct runs as [|run' runs].
      * inversion H. repeat constructor.
      * destruct (join_traces sep (run' :: runs)) as [c' r'] eqn:Hj.
        inversion H; subst. specialize (IH _ _ eq_refl).
        destruct r; [constructor; [reflexivity|exact IH] | now apply Exists_cons_tl].
    + inversion H; subst. now apply Exists_cons_hd.
Qed.

Section RunEquations.
Variable repr : value -> string.

Lemma traces_list_append a run :
  traces_as list_append a run -> a [] = run.
Proof.
  intros H. rewrite H, feed_list_append. now destruct run.
Qed.

Lemma chunks_of_sequence (l : list value) :
  chunks_of repr (VList l)
  = wrap_trace "[" "]" (join_traces "," (map (chunks_of repr) l))
  /\ chunks_of repr (VTuple l) = chunks_of repr (VList l).
Proof.
  split; [|reflexivity].
  unfold chunks_of at 1. cbn [_encode_canonical].
  apply traces_list_append, traces_wrap, traces_elements.
  apply Forall2_fmap, Forall_Forall2_diag, Forall_forall.
  intros x _ st. apply encode_run.
Qed.

Lemma chunks_of_dict (d : list (string * value)) :
  chunks_of repr (VDict d)
  = wrap_trace "{" "}"
      (join_traces ","
         (map (fun kv => item_trace (fst kv) (chunks_of repr (snd kv))) (sorted d))).
Proof.
  unfold chunks_of at 1. cbn [_encode_canonical]. rewrite sorted_map.
  apply traces_list_append, traces_wrap.
  rewrite <- (map_map (fun kv => (fst kv, chunks_of repr (snd kv)))
                      (fun kr => item_trace (fst kr) (snd kr))).
  apply traces_items.
  apply Forall2_fmap, Forall_Forall2_diag, Forall_forall.
  intros x _. split; [reflexivity|]. intros st. apply encode_run.
Qed.

(** The text returned by the one-shot form, if it returns. *)
Lemma oneshot_chunks (v : value) :
  encode_canonical_oneshot repr v
  = match chunks_of repr v with
    | (c, Return _) => Return (Some (String.concat EmptyString c))
    | (_, Raise e) => Raise (encode_handler repr v e)
    end.
Proof.
  unfold encode_canonical_oneshot, encode_canonical, chunks_of.
  destruct (_encode_canonical repr list_append v []) as [c [[]|e]]; reflexivity.
Qed.

(** The same for the incremental form. *)
Lemma incremental_chunks (v : value) (S : Type) (f : string -> S -> S) (st : S) :
  encode_canonical repr v (Some f) st
  = (feed f st (fst (chunks_of repr v)),
     match snd (chunks_of repr v) with
     | Return _ => Return None
     | Raise e => Raise (encode_handler repr v e)
     end).
Proof.
  unfold encode_canonical. rewrite encode_run.
  destruct (snd (chunks_of repr v)) as [[]|e]; reflexivity.
Qed.
End RunEquations.

(** *** Which values are encoded *)

Section Encodable.
Variable repr : value -> string.


Lemma wrap_trace_snd opening closing run :
  snd (wrap_trace opening closing run)
  = match snd run with Return _ => Return tt | Raise e => Raise e end.
Proof. destruct run as [c [[]|e]]; reflexivity. Qed.

Lemma encodable_returns (v : value) :
  encodable v = true -> returns (chunks_of repr v).
Proof.
  induction v as [s|b| |z|m e|b|l IH|l IH|d IH|n h] using value_ind';
    cbn [encodable]; intros He; try discriminate; try reflexivity.
  - destruct b; reflexivity.
  - destruct (chunks_of_sequence repr l) as [Hl _]. rewrite Hl.
    unfold returns. rewrite wrap_trace_snd.
    destruct (join_traces_returns "," (map (chunks_of repr) l)) as [c [-> _]];
      [|reflexivity].
    apply Forall_fmap, Forall_forall. intros x Hx.
    rewrite Forall_forall in IH. apply IH; [exact Hx|].
    rewrite forallb_forall in He. apply He. now apply list_elem_of_In.
  - destruct (chunks_of_sequence repr l) as [Hl ->]. rewrite Hl.
    unfold returns. rewrite wrap_trace_snd.
    destruct (join_traces_returns "," (map (chunks_of repr) l)) as [c [-> _]];
      [|reflexivity].
    apply Forall_fmap, Forall_forall. intros x Hx.
    rewrite Forall_forall in IH. apply IH; [exact Hx|].
    rewrite forallb_forall in He. apply He. now apply list_elem_of_In.
  - rewrite chunks_of_dict. unfold returns. rewrite wrap_trace_snd.
    match goal with
    | |- context [join_traces ?sep ?runs] =>
        destruct (join_traces_returns sep runs) as [c [-> _]]; [|reflexivity]
    end.
    apply Forall_fmap, Forall_forall. intros kv Hkv.
    rewrite sorted_perm in Hkv.
    rewrite Forall_forall in IH. unfold returns, item_trace. cbn [snd].
    apply IH; [exact Hkv|].
    rewrite forallb_forall in He. apply He. now apply list_elem_of_In.
Qed.

Lemma not_encodable_raises (v : value) :
  encodable v = false ->
  exists w, occurs_in w v /\ outside_model w = true
            /\ snd (chunks_of repr v) = Raise (cannot_encode repr w).
Proof.
  induction v as [s|b| |z|m e|b|l IH|l IH|d IH|n h] using value_ind';
    cbn [encodable]; intros He; try discriminate.
  - exists (VFloat m e). repeat split; constructor.
  - exists (VBytes b). repeat split; constructor.
  - destruct (chunks_of_sequence repr l) as [Hl _]. rewrite Hl, wrap_trace_snd.
    destruct (join_traces "," (map (chunks_of repr) l)) as [c r] eqn:Hj.
    apply join_traces_inv in Hj. cbn [snd]. destruct r as [[]|e]; cbn beta iota in Hj.
    + exfalso. apply not_true_iff_false in He. apply He, forallb_forall.
      intros x Hx. destruct (encodable x) eqn:Hex; [reflexivity|].
      rewrite Forall_forall in IH. rewrite Forall_forall in Hj.
      apply list_elem_of_In in Hx.
      destruct (IH x Hx Hex) as [w [_ [_ Hw]]].
      specialize (Hj (chunks_of repr x) (list_elem_of_fmap_2 _ _ _ Hx)).
      unfold returns in Hj. congruence.
    + apply Exists_exists in Hj as [run [Hin Hrun]].
      apply list_elem_of_fmap in Hin as [x [-> Hx]].
      destruct (encodable x) eqn:Hex.
      { apply encodable_returns in Hex. unfold returns in Hex. congruence. }
      rewrite Forall_forall in IH. destruct (IH x Hx Hex) as [w [Hocc [Hout Hw]]].
      exists w. repeat split; [|exact Hout|congruence].
      eapply occurs_list; [|exact Hocc]. now apply list_elem_of_In.
  - destruct (chunks_of_sequence repr l) as [Hl ->]. rewrite Hl, wrap_trace_snd.
    destruct (join_traces "," (map (chunks_of repr) l)) as [c r] eqn:Hj.
    apply join_traces_inv in Hj. cbn [snd]. destruct r as [[]|e]; cbn beta iota in Hj.
    + exfalso. apply not_true_iff_false in He. apply He, forallb_forall.
      intros x Hx. destruct (encodable x) eqn:Hex; [reflexivity|].
      rewrite Forall_forall in IH. rewrite Forall_forall in Hj.
      apply list_elem_of_In in Hx.
      destruct (IH x Hx Hex) as [w [_ [_ Hw]]].
      specialize (Hj (chunks_of repr x) (list_elem_of_fmap_2 _ _ _ Hx)).
      unfold returns in Hj. congruence.
    + apply Exists_exists in Hj as [run [Hin Hrun]].
      apply list_elem_of_fmap in Hin as [x [-> Hx]].
      destruct (encodable x) eqn:Hex.
      { apply encodable_returns in Hex. unfold returns in Hex. congruence. }
      rewrite Forall_forall in IH. destruct (IH x Hx Hex) as [w [Hocc [Hout Hw]]].
      exists w. repeat split; [|exact Hout|congruence].
      eapply occurs_tuple; [|exact Hocc]. now apply list_elem_of_In.
  - rewrite chunks_of_dict, wrap_trace_snd.
    match goal with
    | |- context [join_traces ?sep ?runs] =>
        destruct (join_traces sep runs) as [c r] eqn:Hj
    end.
    apply join_traces_inv in Hj. cbn [snd]. destruct r as [[]|e]; cbn beta iota in Hj.
    + exfalso. apply not_true_iff_false in He. apply He, forallb_forall.
      intros kv Hkv. destruct (encodable (snd kv)) eqn:Hex; [reflexivity|].
      rewrite Forall_forall in IH. rewrite Forall_forall in Hj.
      apply list_elem_of_In in Hkv.
      destruct (IH kv Hkv Hex) as [w [_ [_ Hw]]].
      assert (Hs : kv ∈ sorted d) by now rewrite sorted_perm.
      specialize (Hj _ (list_elem_of_fmap_2
                          (fun kv => item_trace (fst kv) (chunks_of repr (snd kv)))
                          _ _ Hs)).
      unfold returns, item_trace in Hj. cbn [snd] in Hj. congruence.
    + apply Exists_exists in Hj as [run [Hin Hrun]].
      apply list_elem_of_fmap in Hin as [[k x] [-> Hx]].
      unfold item_trace in Hrun. cbn [fst snd] in Hrun.
      rewrite sorted_perm in Hx.
      destruct (encodable x) eqn:Hex.
      { apply encodable_returns in Hex. unfold returns in Hex. congruence. }
      rewrite Forall_forall in IH.
      destruct (IH (k, x) Hx Hex) as [w [Hocc [Hout Hw]]].
      exists w. repeat split; [|exact Hout|cbn [snd] in Hw; congruence].
      eapply occurs_dict; [|exact Hocc]. apply list_elem_of_In. exact Hx.
  - exists (VObject n h). repeat split; constructor.
Qed.
End Encodable.

(** *** The text of lists and dicts *)

Section Rendering.
Variable repr : value -> string.

Lemma oneshot_any_state (v : value) (S : Type) (st : S) :
  encode_canonical repr v None st = (st, encode_canonical_oneshot repr v).
Proof.
  unfold encode_canonical_oneshot, encode_canonical.
  destruct (_encode_canonical repr list_append v []) as [c [[]|e]]; reflexivity.
Qed.

Lemma encoded_text_chunks (v : value) :
  encoded_text repr v
  = match chunks_of repr v with
    | (c, Return _) => Some (String.concat EmptyString c)
    | (_, Raise _) => None
    end.
Proof.
  unfold encoded_text. rewrite oneshot_chunks.
  destruct (chunks_of repr v) as [c [[]|e]]; reflexivity.
Qed.

Lemma encoded_text_returns (v : value) :
  returns (chunks_of repr v) ->
  encoded_text repr v = Some (String.concat EmptyString (fst (chunks_of repr v))).
Proof.
  rewrite encoded_text_chunks. unfold returns.
  destruct (chunks_of repr v) as [c [[]|e]]; cbn; congruence.
Qed.

Lemma wrap_trace_text opening closing run s :
  match wrap_trace opening closing run with
  | (c, Return _) => Some (String.concat EmptyString c)
  | (_, Raise _) => None
  end = Some s ->
  returns run
  /\ s = opening +:+ String.concat EmptyString (fst run) +:+ closing.
Proof.
  destruct run as [c [[]|e]]; cbn [wrap_trace]; [|discriminate].
  intros H.
  assert (s = String.concat EmptyString (opening :: c ++ [closing])) as ->
    by congruence.
  split; [reflexivity|].
  rewrite join_cons, join_app. reflexivity.
Qed.

Lemma join_traces_text sep runs :
  returns (join_traces sep runs) ->
  Forall returns runs
  /\ String.concat EmptyString (fst (join_traces sep runs))
     = String.concat sep (map (fun r => String.concat EmptyString (fst r)) runs).
Proof.
  intros H. destruct (join_traces sep runs) as [c r] eqn:Hj.
  unfold returns in H. cbn in H. subst r.
  pose proof (join_traces_inv _ _ _ _ Hj) as Hall. cbn beta iota in Hall.
  split; [exact Hall|].
  destruct (join_traces_returns sep runs Hall) as [c' [Hc' Htext]].
  rewrite Hj in Hc'. inversion Hc'; subst. exact Htext.
Qed.

(** A list or a tuple: the texts of the elements joined by commas, in
    brackets. *)
Lemma encoded_text_sequence (l : list value) (s : string) :
  encoded_text repr (VList l) = Some s ->
  exists texts,
    Forall2 (fun x t => encoded_text repr x = Some t) l texts
    /\ s = "[" +:+ String.concat "," texts +:+ "]".
Proof.
  rewrite encoded_text_chunks.
  destruct (chunks_of_sequence repr l) as [-> _].
  intros H. apply wrap_trace_text in H as [Hret ->].
  apply join_traces_text in Hret as [Hall ->].
  exists (map (fun x => String.concat EmptyString (fst (chunks_of repr x))) l).
  split; [|now rewrite map_map].
  apply Forall2_fmap_r, Forall_Forall2_diag, Forall_forall. intros x Hx.
  apply encoded_text_returns.
  rewrite Forall_forall in Hall. apply Hall. now apply list_elem_of_fmap_2.
Qed.

(** A dict: the items in the order of [sorted], each as the encoded key,
    a colon and the text of the value, joined by commas, in braces. *)
Lemma encoded_text_dict (d : list (string * value)) (s : string) :
  encoded_text repr (VDict d) = Some s ->
  exists texts,
    Forall2 (fun kv t => encoded_text repr (snd kv) = Some t) (sorted d) texts
    /\ s = "{" +:+ String.concat ","
                    (zip_with (fun kv t => _canonical_string_encoder (fst kv)
                                             +:+ ":" +:+ t)
                              (sorted d) texts)
             +:+ "}".
Proof.
  rewrite encoded_text_chunks, chunks_of_dict.
  intros H. apply wrap_trace_text in H as [Hret ->].
  apply join_traces_text in Hret as [Hall ->].
  exists (map (fun kv => String.concat EmptyString (fst (chunks_of repr (snd kv))))
              (sorted d)).
  split.
  - apply Forall2_fmap_r, Forall_Forall2_diag, Forall_forall. intros kv Hkv.
    apply encoded_text_returns.
    rewrite Forall_forall in Hall.
    apply (Hall _ (list_elem_of_fmap_2
                     (fun kv => item_trace (fst kv) (chunks_of repr (snd kv)))
                     _ _ Hkv)).
  - rewrite zip_with_fmap_r, zip_with_diag, map_map.
    f_equal. f_equal. f_equal. apply map_ext. intros [k v].
    unfold item_trace. cbn [fst snd].
    now rewrite !join_cons.
Qed.
End Rendering.

(** *** Whitespace *)

Lemma count_space_app (a b : string) :
  count_space (a +:+ b) = (count_space a + count_space b)%nat.
Proof.
  induction a as [|c a IH]; [reflexivity|].
  change (((if is_space c then 1 else 0) + count_space (a +:+ b))%nat
          = ((if is_space c then 1 else 0) + count_space a + count_space b)%nat).
  rewrite IH. lia.
Qed.

Lemma count_space_re_sub (s : string) :
  count_space (re_sub_quote_backslash s) = count_space s.
Proof.
  induction s as [|c s IH]; [reflexivity|].
  cbn [re_sub_quote_backslash].
  destruct (Ascii.eqb c dquote || Ascii.eqb c backslash)%bool;
    cbn [count_space]; rewrite IH; reflexivity.
Qed.

Lemma count_space_encoder (s : string) :
  count_space (_canonical_string_encoder s) = count_space s.
Proof.
  unfold _canonical_string_encoder.
  rewrite !count_space_app, count_space_re_sub.
  change (count_space (char dquote)) with 0%nat. lia.
Qed.

Lemma count_space_uint (d : Decimal.uint) :
  count_space (NilEmpty.string_of_uint d) = 0%nat.
Proof. induction d; cbn [NilEmpty.string_of_uint count_space]; auto. Qed.

Lemma count_space_str_int (z : Z) : count_space (str_int z) = 0%nat.
Proof.
  unfold str_int, NilZero.string_of_int, NilZero.string_of_uint.
  destruct (Z.to_int z) as [d|d]; destruct d;
    cbn [count_space]; rewrite ?count_space_uint; try reflexivity;
    apply (count_space_uint (_ d)).
Qed.

Lemma count_space_join (sep : string) (l : list string) :
  count_space sep = 0%nat ->
  count_space (String.concat sep l) = list_sum (map count_space l).
Proof.
  intros Hsep. induction l as [|x l IH]; [reflexivity|].
  destruct l as [|y l]; [cbn; lia|].
  change (String.concat sep (x :: y :: l))
    with (x +:+ sep +:+ String.concat sep (y :: l)).
  rewrite !count_space_app, IH, Hsep. reflexivity.
Qed.

Lemma list_sum_cons (x : nat) (l : list nat) :
  list_sum (x :: l) = (x + list_sum l)%nat.
Proof. reflexivity. Qed.

Lemma list_sum_perm {A : Type} (g : A -> nat) (l l' : list A) :
  Permutation l l' -> list_sum (map g l) = list_sum (map g l').
Proof.
  induction 1; cbn [map]; unfold list_sum in *; cbn [fold_right]; lia.
Qed.

(** Every whitespace character of the text comes from a string or a key of
    the value: the encoder adds none. *)
Lemma encoded_text_count_space (repr : value -> string) (v : value) (s : string) :
  encoded_text repr v = Some s -> count_space s = count_space_value v.
Proof.
  revert s.
  assert (Hseq : forall l, Forall (fun v => forall s, encoded_text repr v = Some s ->
                   count_space s = count_space_value v) l ->
            forall s, encoded_text repr (VList l) = Some s ->
                      count_space s = list_sum (map count_space_value l)).
  { intros l IH s Hs.
    apply encoded_text_sequence in Hs as [texts [Htexts ->]].
    assert (Hsum : list_sum (map count_space texts)
                   = list_sum (map count_space_value l)).
    { induction Htexts as [|x t l texts Hx _ IHt]; [reflexivity|].
      apply Forall_cons in IH as [IHx IHl].
      cbn [map]. rewrite !list_sum_cons, (IHx _ Hx), (IHt IHl). reflexivity. }
    rewrite !count_space_app, count_space_join by reflexivity.
    change (count_space "[") with 0%nat. change (count_space "]") with 0%nat.
    lia. }
  induction v as [s0|b| |z|m e|b|l IH|l IH|d IH|n h] using value_ind'; intros s Hs.
  - assert (s = _canonical_string_encoder s0) as -> by (cbv in Hs |- *; congruence).
    apply count_space_encoder.
  - destruct b; cbv in Hs; injection Hs as <-; reflexivity.
  - cbv in Hs; injection Hs as <-; reflexivity.
  - assert (s = str_int z) as ->.
    { change (encoded_text repr (VInt z)) with (Some (str_int z)) in Hs. congruence. }
    apply count_space_str_int.
  - discriminate.
  - discriminate.
  - cbn [count_space_value]. now apply Hseq.
  - cbn [count_space_value]. apply Hseq; [exact IH|].
    rewrite encoded_text_chunks in Hs |- *.
    destruct (chunks_of_sequence repr l) as [_ Ht]. now rewrite <- Ht.
  - apply encoded_text_dict in Hs as [texts [Htexts ->]].
    cbn [count_space_value].
    rewrite <- (list_sum_perm _ _ _ (sorted_perm d)).
    assert (IH' : Forall (fun kv => forall s, encoded_text repr (snd kv) = Some s ->
                    count_space s = count_space_value (snd kv)) (sorted d)).
    { now rewrite sorted_perm. }
    clear IH.
    match goal with
    | |- context [String.concat "," ?items] =>
        assert (Hsum : list_sum (map count_space items)
                       = list_sum (map (fun kv => (count_space (fst kv)
                                          + count_space_value (snd kv))%nat)
                                       (sorted d)))
    end.
    { induction Htexts as [|kv t l texts Hx _ IHt]; [reflexivity|].
      apply Forall_cons in IH' as [IHx IHl].
      cbn [zip_with map]. rewrite !list_sum_cons, (IHt IHl).
      rewrite !count_space_app, count_space_encoder, (IHx _ Hx).
      change (count_space ":") with 0%nat. lia. }
    rewrite !count_space_app, count_space_join by reflexivity.
    change (count_space "{") with 0%nat. change (count_space "}") with 0%nat.
    lia.
  - discriminate.
Qed.

(** *** Dicts that differ in insertion order *)

Lemma string_ltb_leb (a b : string) :
  String.leb a b = true -> a <> b -> String.ltb a b = true.
Proof.
  unfold String.leb, String.ltb. intros Hle Hne.
  destruct (String.compare a b) eqn:Hc; try discriminate; [|reflexivity].
  apply String.compare_eq_iff in Hc. contradiction.
Qed.

Lemma sorted_strict {A : Type} (d : list (string * A)) :
  NoDup (map fst d) ->
  StronglySorted (fun x y => String.ltb (fst x) (fst y) = true) (sorted d).
Proof.
  intros Hnd.
  assert (Hnd' : NoDup (map fst (sorted d))) by now rewrite sorted_perm.
  pose proof (sorted_StronglySorted d) as Hs.
  induction Hs as [|x l Hl IH Hx]; [constructor|].
  cbn [map] in Hnd'. apply NoDup_cons in Hnd' as [Hxl Hnd'].
  constructor; [now apply IH|].
  rewrite Forall_forall in Hx. apply Forall_forall. intros y Hy.
  apply string_ltb_leb; [now apply Hx|].
  intros Heq. apply Hxl. rewrite Heq. now apply list_elem_of_fmap_2.
Qed.

Lemma insert_item_Forall2 {A B : Type} (R : A -> B -> Prop)
    (x : string * A) (x' : string * B) l l' :
  (fst x = fst x' /\ R (snd x) (snd x')) ->
  Forall2 (fun kv kv' => fst kv = fst kv' /\ R (snd kv) (snd kv')) l l' ->
  Forall2 (fun kv kv' => fst kv = fst kv' /\ R (snd kv) (snd kv'))
          (insert_item x l) (insert_item x' l').
Proof.
  intros Hx. induction 1 as [|y y' l l' Hy Hl IH]; cbn [insert_item].
  - repeat constructor; apply Hx.
  - destruct Hx as [Hk Hv], Hy as [Hk' Hv']. rewrite <- Hk, <- Hk'.
    destruct (String.leb (fst x) (fst y)); repeat constructor; auto.
Qed.

Lemma sorted_Forall2 {A B : Type} (R : A -> B -> Prop) l l' :
  Forall2 (fun kv kv' => fst kv = fst kv' /\ R (snd kv) (snd kv')) l l' ->
  Forall2 (fun kv kv' => fst kv = fst kv' /\ R (snd kv) (snd kv'))
          (sorted l) (sorted l').
Proof.
  induction 1 as [|x x' l l' Hx Hl IH]; [constructor|].
  unfold sorted in *. cbn [foldr]. now apply insert_item_Forall2.
Qed.

Lemma Forall2_same_keys {A B : Type} (R : A -> B -> Prop)
    (l : list (string * A)) (l' : list (string * B)) :
  Forall2 (fun kv kv' => fst kv = fst kv' /\ R (snd kv) (snd kv')) l l' ->
  map fst l = map fst l'.
Proof.
  induction 1 as [|x x' l l' [Hk _] _ IH]; [reflexivity|].
  cbn [map]. now rewrite Hk, IH.
Qed.

Lemma keys_unique_dict (d : list (string * value)) :
  keys_unique (VDict d) = true ->
  NoDup (map fst d) /\ Forall (fun kv => keys_unique (snd kv) = true) d.
Proof.
  cbn [keys_unique]. intros H. apply andb_prop in H as [Hnd Hall].
  split; [now apply bool_decide_eq_true in Hnd|].
  apply Forall_forall. intros kv Hkv.
  rewrite forallb_forall in Hall. apply Hall. now apply list_elem_of_In.
Qed.

(** The encoder does not see the insertion order of the dicts of a value. *)
Lemma chunks_of_same_items (repr : value -> string) (v v' : value) :
  keys_unique v = true -> same_items v v' ->
  chunks_of repr v = chunks_of repr v'.
Proof.
  revert v'.
  assert (Hseq : forall l, Forall (fun v => forall v', keys_unique v = true ->
                   same_items v v' -> chunks_of repr v = chunks_of repr v') l ->
            forall l', forallb keys_unique l = true -> Forall2 same_items l l' ->
              map (chunks_of repr) l = map (chunks_of repr) l').
  { intros l IH l' Hu Hsame. induction Hsame as [|x x' l l' Hx _ IHl]; [reflexivity|].
    apply Forall_cons in IH as [IHx IH]. cbn [forallb] in Hu.
    apply andb_prop in Hu as [Hux Hu].
    cbn [map]. now rewrite (IHx x' Hux Hx), (IHl IH Hu). }
  induction v as [s|b| |z|m e|b|l IH|l IH|d IH|n h] using value_ind';
    intros v' Hu Hsame; inversion Hsame; subst; try reflexivity.
  - destruct (chunks_of_sequence repr l) as [-> _].
    destruct (chunks_of_sequence repr l') as [-> _].
    now rewrite (Hseq l IH l').
  - destruct (chunks_of_sequence repr l) as [Hl ->].
    destruct (chunks_of_sequence repr l') as [Hl' ->].
    now rewrite Hl, Hl', (Hseq l IH l').
  - match goal with
    | H1 : Forall2 _ d ?dm, H2 : Permutation ?dm _ |- _ =>
        rename H1 into Hitems; rename H2 into Hperm
    end.
    apply keys_unique_dict in Hu as [Hnd Hu].
    rewrite !chunks_of_dict.
    rewrite <- (sorted_unique _ _ ltac:(now rewrite <- (Forall2_same_keys _ _ _ Hitems))
                               Hperm).
    f_equal. f_equal.
    apply sorted_Forall2 in Hitems.
    assert (IH' : Forall (fun kv => keys_unique (snd kv) = true
                            /\ forall v', keys_unique (snd kv) = true ->
                                 same_items (snd kv) v' ->
                                 chunks_of repr (snd kv) = chunks_of repr v')
                         (sorted d)).
    { rewrite sorted_perm. rewrite Forall_forall in IH, Hu |- *.
      intros kv Hkv. split; [now apply Hu | now apply IH]. }
    clear IH Hu Hnd Hperm Hsame.
    induction Hitems as [|kv kv' l l' [Hk Hv] _ IHl]; [reflexivity|].
    apply Forall_cons in IH' as [[Hukv IHkv] IH'].
    cbn [map]. rewrite (IHl IH'), Hk, (IHkv _ Hukv Hv). reflexivity.
Qed.

(** *** The claims on the encoder *)

(** C4.  Two dicts with the same items in different insertion orders (the
    keys of a dict being pairwise different) hand the same chunks to any sink
    and give the same text; so do two values that differ only in the
    insertion order of the dicts inside them.  The text of a dict is an
    opening brace, the items in ascending order of the keys (strictly
    ascending, the keys being different), each as the encoded key, a colon and
    the text of the value, joined by commas, and a closing brace; the empty
    dict gives the two braces.  The encoder adds no whitespace: the text of
    any value has as many whitespace characters as the strings and keys of
    the value. *)
Theorem encode_canonical_dict_order_independent (repr : value -> string) :
  (forall d1 d2 : list (string * value),
      NoDup (map fst d1) -> Permutation d1 d2 ->
      encoded_text repr (VDict d1) = encoded_text repr (VDict d2)
      /\ forall (S : Type) (f : string -> S -> S) (st : S),
          fst (encode_canonical repr (VDict d1) (Some f) st)
          = fst (encode_canonical repr (VDict d2) (Some f) st))
  /\ (forall v v' : value,
        keys_unique v = true -> same_items v v' ->
        encoded_text repr v = encoded_text repr v'
        /\ forall (S : Type) (f : string -> S -> S) (st : S),
            fst (encode_canonical repr v (Some f) st)
            = fst (encode_canonical repr v' (Some f) st))
  /\ (forall (d : list (string * value)) (s : string),
        encoded_text repr (VDict d) = Some s ->
        Permutation (sorted d) d
        /\ StronglySorted (fun x y => String.leb (fst x) (fst y) = true) (sorted d)
        /\ (NoDup (map fst d) ->
            StronglySorted (fun x y => String.ltb (fst x) (fst y) = true) (sorted d))
        /\ exists texts,
            Forall2 (fun kv t => encoded_text repr (snd kv) = Some t) (sorted d) texts
            /\ s = "{" +:+ String.concat ","
                            (zip_with (fun kv t => _canonical_string_encoder (fst kv)
                                                     +:+ ":" +:+ t)
                                      (sorted d) texts)
                     +:+ "}")
  /\ encoded_text repr (VDict []) = Some "{}"
  /\ (forall (v : value) (s : string),
        encoded_text repr v = Some s -> count_space s = count_space_value v).
Proof.
  assert (Hsame : forall v v', chunks_of repr v = chunks_of repr v' ->
            encoded_text repr v = encoded_text repr v'
            /\ forall (S : Type) (f : string -> S -> S) (st : S),
                fst (encode_canonical repr v (Some f) st)
                = fst (encode_canonical repr v' (Some f) st)).
  { intros v v' Hc. split; [now rewrite !encoded_text_chunks, Hc|].
    intros S f st. now rewrite !incremental_chunks, Hc. }
  split; [|split; [|split; [|split]]].
  - intros d1 d2 Hnd Hp. apply Hsame.
    rewrite !chunks_of_dict. now rewrite (sorted_unique d1 d2 Hnd Hp).
  - intros v v' Hu Hv. apply Hsame. now apply chunks_of_same_items.
  - intros d s Hs. split; [apply sorted_perm|].
    split; [apply sorted_StronglySorted|].
    split; [apply sorted_strict|].
    now apply encoded_text_dict.
  - reflexivity.
  - apply encoded_text_count_space.
Qed.

(** C6.  For every value the encoder accepts, the one-shot form returns a
    text, and the incremental form hands to its sink, whatever the sink is,
    chunks whose concatenation is that text, and returns [None]. *)
Theorem encode_canonical_incremental_same_as_oneshot
    (repr : value -> string) (v : value) :
  encodable v = true ->
  exists (s : string) (chunks : list string),
    String.concat EmptyString chunks = s
    /\ (forall (S : Type) (st : S),
          encode_canonical repr v None st = (st, Return (Some s)))
    /\ (forall (S : Type) (f : string -> S -> S) (st : S),
          encode_canonical repr v (Some f) st = (feed f st chunks, Return None)).
Proof.
  intros He. apply (encodable_returns repr) in He. unfold returns in He.
  exists (String.concat EmptyString (fst (chunks_of repr v))), (fst (chunks_of repr v)).
  split; [reflexivity|]. split.
  - intros S st. rewrite oneshot_any_state, oneshot_chunks.
    destruct (chunks_of repr v) as [c r]. cbn in He. now subst r.
  - intros S f st. rewrite incremental_chunks. now rewrite He.
Qed.

(** C7.  A value inside the model (text, boolean, [None], integer, and
    lists, tuples and dicts of such values) is encoded: the call returns a
    text.  A value that is or holds a float, a byte string or an object of
    another type makes the call raise the FormatError of the library, the
    class it uses for the encoding error, and the message names the value
    passed and the offending value inside it; for a value that is itself of
    such a type the two are the same. *)
Theorem encode_canonical_fails_outside_model (repr : value -> string) (v : value) :
  (encodable v = true ->
   exists s : string, forall (S : Type) (st : S),
       encode_canonical repr v None st = (st, Return (Some s)))
  /\ (encodable v = false ->
      exists w : value,
        occurs_in w v /\ outside_model w = true
        /\ forall (S : Type) (st : S),
            encode_canonical repr v None st
            = (st, Raise (Exn FormatError
                            ("Could not encode " +:+ repr v +:+ ": "
                               +:+ "I cannot encode " +:+ repr w) None)))
  /\ (outside_model v = true ->
      forall (S : Type) (st : S),
        encode_canonical repr v None st
        = (st, Raise (Exn FormatError
                        ("Could not encode " +:+ repr v +:+ ": "
                           +:+ "I cannot encode " +:+ repr v) None))).
Proof.
  split; [|split].
  - intros He. apply (encodable_returns repr) in He. unfold returns in He.
    exists (String.concat EmptyString (fst (chunks_of repr v))).
    intros S st. rewrite oneshot_any_state, oneshot_chunks.
    destruct (chunks_of repr v) as [c r]. cbn in He. now subst r.
  - intros He. destruct (not_encodable_raises repr v He) as [w [Hocc [Hout Hw]]].
    exists w. split; [exact Hocc|]. split; [exact Hout|].
    intros S st. rewrite oneshot_any_state, oneshot_chunks.
    destruct (chunks_of repr v) as [c r]. cbn in Hw. now subst r.
  - intros Hout S st. destruct v; try discriminate; reflexivity.
Qed.

(** ** Properties of the timestamp helpers *)



Lemma days_ok_from_spec (count : nat) (start days : Z) :
  days_ok_from count start = true ->
  start <= days < start + Z.of_nat count -> day_ok days = true.
Proof.
  revert start. induction count as [|count IH]; intros start Hall Hd; [lia|].
  cbn [days_ok_from] in Hall. apply andb_prop in Hall as [Hstart Hrest].
  destruct (Z.eq_dec days start) as [->|Hne]; [exact Hstart|].
  apply (IH (start + 1)); [exact Hrest | lia].
Qed.

(** The days from 1970-01-01 to 2038-01-19. *)
Lemma days_of_range_ok : days_ok_from (Z.to_nat 24856) 0 = true.
Proof. vm_compute. reflexivity. Qed.

Lemma day_ok_in_range (days : Z) : 0 <= days < 24856 -> day_ok days = true.
Proof.
  intros H. apply (days_ok_from_spec _ 0 days days_of_range_ok). lia.
Qed.

Lemma gmtime_datetime (z : Z) :
  0 <= z <= 2147483647 ->
  exists dt, datetime_datetime (firstn 6 (time_gmtime z)) = Return dt
             /\ calendar_timegm (timetuple dt) = Return z.
Proof.
  intros Hz. unfold time_gmtime.
  assert (Hdays : 0 <= z / 86400 < 24856).
  { split; [apply Z.div_pos; lia | apply Z.div_lt_upper_bound; lia]. }
  pose proof (day_ok_in_range _ Hdays) as Hok. unfold day_ok in Hok.
  pose proof (Z.mod_pos_bound z 86400 ltac:(lia)) as Hrem.
  pose proof (Z.div_mod z 86400 ltac:(lia)) as Hdm.
  set (days := z / 86400) in *. set (rem := z mod 86400) in *.
  destruct (civil_from_days days) as [[y m] d].
  repeat (apply andb_prop in Hok as [Hok ?]).
  assert (Hh : 0 <= rem / 3600 <= 23).
  { split; [apply Z.div_pos; lia|].
    assert (rem / 3600 < 24) by (apply Z.div_lt_upper_bound; lia). lia. }
  pose proof (Z.mod_pos_bound rem 3600 ltac:(lia)) as Hr2.
  assert (Hm : 0 <= rem mod 3600 / 60 <= 59).
  { split; [apply Z.div_pos; lia|].
    assert (rem mod 3600 / 60 < 60) by (apply Z.div_lt_upper_bound; lia). lia. }
  pose proof (Z.mod_pos_bound rem 60 ltac:(lia)) as Hs.
  exists (mk_datetime y m d (rem / 3600) (rem mod 3600 / 60) (rem mod 60)).
  split.
  - cbn [firstn datetime_datetime].
    repeat match goal with
           | H : (_ <=? _) = true |- _ => rewrite H; clear H
           end.
    destruct Hh as [Hh1 Hh2], Hm as [Hm1 Hm2], Hs as [Hs1 Hs2].
    apply Z.leb_le in Hh1, Hh2, Hm1, Hm2, Hs1.
    assert (Hs3 : (rem mod 60 <=? 59) = true) by (apply Z.leb_le; lia).
    now rewrite Hh1, Hh2, Hm1, Hm2, Hs1, Hs3.
  - unfold timetuple, calendar_timegm, mk_datetime.
    cbn [firstn year month day hour minute second].
    f_equal.
    match goal with H : (_ =? _) = true |- _ => apply Z.eqb_eq in H; rewrite H end.
    pose proof (Z.div_mod rem 3600 ltac:(lia)) as Hd1.
    pose proof (Z.div_mod (rem mod 3600) 60 ltac:(lia)) as Hd2.
    assert (Hmm : rem mod 3600 mod 60 = rem mod 60).
    { apply Z.mod_mod_divide. exists 60. reflexivity. }
    lia.
Qed.

(** C10.  The schema UNIX_TIMESTAMP accepts a value exactly when it is an
    integer from 0 to 2147483647: it accepts 0 and 2147483647 and rejects -1
    and 2147483648.  [unix_timestamp_to_datetime] checks the schema first: on
    a value the schema rejects it raises the FormatError of the check whatever
    the conversion of the platform would do, and on a value it accepts the
    result is the [datetime] of the first six fields of [time.gmtime].  With
    the UTC calendar of [time.gmtime] every accepted timestamp gives a
    [datetime] that [datetime_to_unix_timestamp] maps back to it; 0 is 1970-01-01 00:00:00
    and 1445455680 is 2015-10-21 19:28:00, as in the docstring. *)
Theorem unix_timestamp_range_and_utc (describe_mismatch repr : value -> string) :
  (forall v : value,
      matches UNIX_TIMESTAMP_SCHEMA v = true
      <-> exists z : Z, v = VInt z /\ 0 <= z <= 2147483647)
  /\ matches UNIX_TIMESTAMP_SCHEMA (VInt 0) = true
  /\ matches UNIX_TIMESTAMP_SCHEMA (VInt 2147483647) = true
  /\ matches UNIX_TIMESTAMP_SCHEMA (VInt (-1)) = false
  /\ matches UNIX_TIMESTAMP_SCHEMA (VInt 2147483648) = false
  /\ (forall (gmtime : Z -> list Z) (v : value),
        matches UNIX_TIMESTAMP_SCHEMA v = false ->
        unix_timestamp_to_datetime describe_mismatch gmtime v
        = Raise (Exn FormatError (describe_mismatch v) None))
  /\ (forall (gmtime : Z -> list Z) (z : Z),
        0 <= z <= 2147483647 ->
        unix_timestamp_to_datetime describe_mismatch gmtime (VInt z)
        = datetime_datetime (firstn 6 (gmtime z)))
  /\ (forall z : Z,
        0 <= z <= 2147483647 ->
        exists dt : datetime,
          unix_timestamp_to_datetime describe_mismatch time_gmtime (VInt z) = Return dt
          /\ datetime_to_unix_timestamp repr (inl dt) = Return z)
  /\ unix_timestamp_to_datetime describe_mismatch time_gmtime (VInt 0)
     = Return (mk_datetime 1970 1 1 0 0 0)
  /\ unix_timestamp_to_datetime describe_mismatch time_gmtime (VInt 1445455680)
     = Return (mk_datetime 2015 10 21 19 28 0).
Proof.
  assert (Hacc : forall z, 0 <= z <= 2147483647 ->
                           matches UNIX_TIMESTAMP_SCHEMA (VInt z) = true).
  { intros z Hz. cbn. apply andb_true_intro. split; apply Z.leb_le; lia. }
  repeat split; try reflexivity.
  - destruct v; cbn; try discriminate. intros H.
    apply andb_prop in H as [H1 H2]. apply Z.leb_le in H1, H2. eauto.
  - intros [z [-> Hz]]. now apply Hacc.
  - intros gmtime v Hv. unfold unix_timestamp_to_datetime, check_match.
    now rewrite Hv.
  - intros gmtime z Hz. unfold unix_timestamp_to_datetime, check_match.
    now rewrite (Hacc z Hz).
  - intros z Hz. destruct (gmtime_datetime z Hz) as [dt [Hdt Hback]].
    exists dt. split; [|exact Hback].
    unfold unix_timestamp_to_datetime, check_match. now rewrite (Hacc z Hz).
Qed.

(** ** Properties of the keys *)

(** *** Dict operations *)

Lemma dict_get_None (d : pydict) (k : string) :
  k ∉ map fst d -> dict_get d k = None.
Proof.
  induction d as [|[k' v] d IH]; [reflexivity|]. cbn [map fst dict_get].
  intros Hk. apply not_elem_of_cons in Hk as [Hne Hk].
  destruct (String.eqb_spec k' k); [congruence | now apply IH].
Qed.

Lemma dict_get_remove_ne (d : pydict) (k k' : string) :
  k <> k' -> dict_get (dict_remove d k) k' = dict_get d k'.
Proof.
  intros Hne. induction d as [|[k1 v] d IH]; [reflexivity|].
  cbn [dict_remove dict_get].
  destruct (String.eqb_spec k1 k) as [->|Hk].
  - destruct (String.eqb_spec k k'); [contradiction | reflexivity].
  - cbn [dict_get]. now rewrite IH.
Qed.

Lemma dict_remove_keys (d : pydict) (k k' : string) :
  k' ∈ map fst (dict_remove d k) -> k' ∈ map fst d.
Proof.
  induction d as [|[k1 v] d IH]; [trivial|]. cbn [dict_remove].
  destruct (String.eqb k1 k); cbn [map fst]; rewrite ?elem_of_cons; intuition.
Qed.

Lemma dict_remove_NoDup (d : pydict) (k : string) :
  NoDup (map fst d) -> NoDup (map fst (dict_remove d k)).
Proof.
  induction d as [|[k1 v] d IH]; [trivial|]. cbn [dict_remove map fst].
  intros Hnd. apply NoDup_cons in Hnd as [Hk1 Hnd].
  destruct (String.eqb k1 k); [exact Hnd|]. cbn [map fst].
  apply NoDup_cons. split; [|now apply IH].
  intros Hin. apply Hk1. eapply dict_remove_keys, Hin.
Qed.

Lemma dict_get_remove_eq (d : pydict) (k : string) :
  NoDup (map fst d) -> dict_get (dict_remove d k) k = None.
Proof.
  induction d as [|[k1 v] d IH]; [reflexivity|]. cbn [dict_remove map fst].
  intros Hnd. apply NoDup_cons in Hnd as [Hk1 Hnd].
  destruct (String.eqb_spec k1 k) as [->|Hk].
  - now apply dict_get_None.
  - cbn [dict_get]. destruct (String.eqb_spec k1 k); [contradiction|]. now apply IH.
Qed.

Lemma dict_get_set (d : pydict) (k k' : string) (v : value) :
  dict_get (dict_set d k v) k' = if String.eqb k k' then Some v else dict_get d k'.
Proof.
  induction d as [|[k1 v1] d IH]; [reflexivity|]. cbn [dict_set].
  destruct (String.eqb_spec k1 k) as [->|Hk]; cbn [dict_get].
  - destruct (String.eqb k k'); reflexivity.
  - rewrite IH. destruct (String.eqb_spec k k') as [->|Hk'].
    + destruct (String.eqb_spec k1 k'); [contradiction | reflexivity].
    + reflexivity.
Qed.

Lemma dict_get_update (base extra : pydict) (k : string) :
  NoDup (map fst extra) ->
  dict_get (dict_update base extra) k
  = match dict_get extra k with Some v => Some v | None => dict_get base k end.
Proof.
  unfold dict_update. revert base.
  induction extra as [|[k1 v1] extra IH]; intros base Hnd; [reflexivity|].
  cbn [map fst] in Hnd. apply NoDup_cons in Hnd as [Hk1 Hnd].
  cbn [foldl fst snd dict_get]. rewrite (IH _ Hnd), dict_get_set.
  destruct (String.eqb_spec k1 k) as [->|Hk]; [|reflexivity].
  now rewrite (dict_get_None extra k Hk1).
Qed.

(** *** Steps of the state monad *)

Lemma bind_run {S A B : Type} (m : Py S A) (k : A -> Py S B) st st' a :
  m st = (st', Return a) -> bind m k st = k a st'.
Proof. intros H. unfold bind. now rewrite H. Qed.

Lemma bind_raise {S A B : Type} (m : Py S A) (k : A -> Py S B) st st' e :
  m st = (st', Raise e) -> bind m k st = (st', Raise e).
Proof. intros H. unfold bind. now rewrite H. Qed.

Lemma bind_assoc {S A B C : Type} (m : Py S A) (k : A -> Py S B)
    (k' : B -> Py S C) (st : S) :
  bind (bind m k) k' st = bind m (fun a => bind (k a) k') st.
Proof.
  unfold bind. destruct (m st) as [st' [a|e]]; reflexivity.
Qed.

Lemma deref_run (h : heap) (l : loc) (d : pydict) :
  h !! l = Some d -> deref l h = (h, Return d).
Proof. intros H. unfold deref. now rewrite H. Qed.

Lemma dict_pop_run (h : heap) (l : loc) (d : pydict) (k : string) (v : value) :
  h !! l = Some d -> dict_get d k = Some v ->
  dict_pop l k h = (<[l := dict_remove d k]> h, Return v).
Proof.
  intros Hl Hk. unfold dict_pop.
  erewrite bind_run by (apply deref_run; exact Hl).
  now rewrite Hk.
Qed.

Lemma dict_get_default_run (h : heap) (l : loc) (d : pydict) (k : string) :
  h !! l = Some d ->
  dict_get_default l k h
  = (h, Return (match dict_get d k with Some v => v | None => VNone end)).
Proof.
  intros Hl. unfold dict_get_default.
  erewrite bind_run by (apply deref_run; exact Hl).
  reflexivity.
Qed.

(** *** Deserialising a software key *)


Lemma unrecognized_of_get (D : pydict) (k : string) :
  NoDup (map fst D) ->
  dict_get (unrecognized_of D) k
  = if in_list k ["keytype"; "scheme"; "keyval"] then None else dict_get D k.
Proof.
  intros Hnd. unfold unrecognized_of, in_list. cbn [existsb].
  destruct (String.eqb_spec k "keyval") as [->|H3].
  { rewrite !orb_true_r. apply dict_get_remove_eq.
    now apply dict_remove_NoDup, dict_remove_NoDup. }
  rewrite dict_get_remove_ne by congruence.
  destruct (String.eqb_spec k "scheme") as [->|H2].
  { rewrite orb_true_r. apply dict_get_remove_eq. now apply dict_remove_NoDup. }
  rewrite dict_get_remove_ne by congruence.
  destruct (String.eqb_spec k "keytype") as [->|H1].
  { now apply dict_get_remove_eq. }
  now rewrite dict_get_remove_ne by congruence.
Qed.

Section SoftwareKey.
Variable repr : value -> string.
Variable KEY_FOR_TYPE_AND_SCHEME : gmap (option string * option string) Key.key_impl.
Variables (h : heap) (key_dict : loc) (D : pydict).
Variables (keyid kt sch pub : string) (kv : pydict).
Hypothesis Hobj : h !! key_dict = Some D.
Hypothesis Hnd : NoDup (map fst D).
Hypothesis Hkt : dict_get D "keytype" = Some (VStr kt).
Hypothesis Hsch : dict_get D "scheme" = Some (VStr sch).
Hypothesis Hkv : dict_get D "keyval" = Some (VDict kv).
Hypothesis Hpub : dict_get kv "public" = Some (VStr pub).

Lemma SSlibKey_from_dict_run :
  SSlibKey.from_dict repr keyid key_dict h
  = (<[key_dict := unrecognized_of D]> h,
     Return (Key.mk keyid kt sch kv key_dict)).
Proof.
  unfold SSlibKey.from_dict, Key._from_dict.
  rewrite bind_assoc.
  erewrite bind_run by (apply dict_pop_run; [exact Hobj | exact Hkt]).
  rewrite bind_assoc.
  erewrite bind_run.
  2:{ apply dict_pop_run; [apply lookup_insert_eq|].
      rewrite dict_get_remove_ne by discriminate. exact Hsch. }
  rewrite bind_assoc.
  erewrite bind_run.
  2:{ apply dict_pop_run; [apply lookup_insert_eq|].
      rewrite !dict_get_remove_ne by discriminate. exact Hkv. }
  erewrite bind_run by reflexivity.
  cbn iota beta. unfold lift at 1. cbn [SSlibKey.public_missing]. rewrite Hpub.
  erewrite bind_run by reflexivity.
  cbn [Key.__init__]. unfold ret. f_equal.
  unfold unrecognized_of. now rewrite !insert_insert_eq.
Qed.

Hypothesis Hreg :
  KEY_FOR_TYPE_AND_SCHEME !! (Some kt, Some sch) = Some (SSlibKey.from_dict repr).

Lemma Key_from_dict_run :
  Key.from_dict repr KEY_FOR_TYPE_AND_SCHEME keyid key_dict h
  = (<[key_dict := unrecognized_of D]> h,
     Return (Key.mk keyid kt sch kv key_dict)).
Proof.
  unfold Key.from_dict.
  erewrite bind_run by (apply dict_get_default_run; exact Hobj).
  erewrite bind_run by (apply dict_get_default_run; exact Hobj).
  rewrite Hkt, Hsch. cbn beta iota.
  unfold Key.lookup_impl. cbn [Key.table_component]. cbn beta iota.
  match goal with
  | |- match ?x with _ => _ end _ = _ =>
      replace x with (Some (SSlibKey.from_dict repr)) by (symmetry; exact Hreg)
  end.
  apply SSlibKey_from_dict_run.
Qed.

Lemma to_dict_after_from_dict :
  exists out,
    SSlibKey.to_dict (Key.mk keyid kt sch kv key_dict)
      (<[key_dict := unrecognized_of D]> h)
    = (<[key_dict := unrecognized_of D]> h, Return out)
    /\ forall k, dict_get out k = dict_get D k.
Proof.
  eexists. split.
  - unfold SSlibKey.to_dict, Key._to_dict.
    erewrite bind_run by (apply deref_run, lookup_insert_eq). reflexivity.
  - intros k. cbn [Key.keytype Key.scheme Key.keyval].
    rewrite dict_get_update.
    2:{ unfold unrecognized_of. now repeat apply dict_remove_NoDup. }
    rewrite unrecognized_of_get by exact Hnd. unfold in_list. cbn [existsb dict_get].
    destruct (String.eqb_spec k "keytype") as [->|H1]; [now rewrite Hkt|].
    destruct (String.eqb_spec k "scheme") as [->|H2]; [now rewrite Hsch|].
    destruct (String.eqb_spec k "keyval") as [->|H3]; [now rewrite Hkv|].
    cbn [orb].
    destruct (String.eqb_spec "keytype" k); [congruence|].
    destruct (String.eqb_spec "scheme" k); [congruence|].
    destruct (String.eqb_spec "keyval" k); [congruence|].
    now destruct (dict_get D k).
Qed.
End SoftwareKey.

(** C8.  A key dict of the software key type with [keytype], [scheme], a
    [keyval] holding a public key text, and any further fields: [Key.from_dict]
    returns a key, and [to_dict] of that key holds under every field name what
    the dict passed in held under it, so the original [keytype], [scheme] and
    [keyval] and every unrecognized field (such as [custom]) with its value,
    and no field more. *)
Theorem key_from_dict_to_dict_keeps_fields
    (repr : value -> string)
    (KEY_FOR_TYPE_AND_SCHEME : gmap (option string * option string) Key.key_impl)
    (h : heap) (key_dict : loc) (D : pydict)
    (keyid kt sch pub : string) (kv : pydict) :
  h !! key_dict = Some D ->
  NoDup (map fst D) ->
  dict_get D "keytype" = Some (VStr kt) ->
  dict_get D "scheme" = Some (VStr sch) ->
  dict_get D "keyval" = Some (VDict kv) ->
  dict_get kv "public" = Some (VStr pub) ->
  KEY_FOR_TYPE_AND_SCHEME !! (Some kt, Some sch) = Some (SSlibKey.from_dict repr) ->
  exists (h' : heap) (key : Key.t) (out : pydict),
    Key.from_dict repr KEY_FOR_TYPE_AND_SCHEME keyid key_dict h = (h', Return key)
    /\ SSlibKey.to_dict key h' = (h', Return out)
    /\ (forall k : string, dict_get out k = dict_get D k)
    /\ dict_get out "keytype" = Some (VStr kt)
    /\ dict_get out "scheme" = Some (VStr sch)
    /\ dict_get out "keyval" = Some (VDict kv)
    /\ (forall x : value,
          dict_get D "custom" = Some x -> dict_get out "custom" = Some x).
Proof.
  intros Hobj Hnd Hkt Hsch Hkv Hpub Hreg.
  destruct (to_dict_after_from_dict h key_dict D keyid kt sch kv Hnd Hkt Hsch Hkv)
    as [out [Hout Hsame]].
  exists (<[key_dict := unrecognized_of D]> h), (Key.mk keyid kt sch kv key_dict), out.
  split; [now apply (Key_from_dict_run repr _ h key_dict D keyid kt sch pub kv)|].
  split; [exact Hout|]. split; [exact Hsame|].
  rewrite !Hsame. repeat split; try assumption. intros x Hx. exact Hx.
Qed.

(** C9, as the code has it.  [Key.from_dict] on a key dict of the software
    key type pops [keytype], [scheme] and [keyval] off the dict passed in:
    after the call that dict object holds the other fields only, each with its
    value, and it is the [unrecognized_fields] of the key returned; no other
    object changes.  When no implementation is registered for the pair the
    call raises and leaves the dict as it was. *)
Theorem key_from_dict_pops_fields_of_argument
    (repr : value -> string)
    (KEY_FOR_TYPE_AND_SCHEME : gmap (option string * option string) Key.key_impl)
    (h : heap) (key_dict : loc) (D : pydict)
    (keyid kt sch pub : string) (kv : pydict) :
  h !! key_dict = Some D ->
  NoDup (map fst D) ->
  dict_get D "keytype" = Some (VStr kt) ->
  dict_get D "scheme" = Some (VStr sch) ->
  dict_get D "keyval" = Some (VDict kv) ->
  dict_get kv "public" = Some (VStr pub) ->
  (KEY_FOR_TYPE_AND_SCHEME !! (Some kt, Some sch) = Some (SSlibKey.from_dict repr) ->
   exists (h' : heap) (key : Key.t),
     Key.from_dict repr KEY_FOR_TYPE_AND_SCHEME keyid key_dict h = (h', Return key)
     /\ Key.unrecognized_fields key = key_dict
     /\ h' !! key_dict = Some (unrecognized_of D)
     /\ (forall k : string,
           dict_get (unrecognized_of D) k
           = if in_list k ["keytype"; "scheme"; "keyval"] then None
             else dict_get D k)
     /\ (forall l : loc, l <> key_dict -> h' !! l = h !! l))
  /\ (KEY_FOR_TYPE_AND_SCHEME !! (Some kt, Some sch) = None ->
      Key.from_dict repr KEY_FOR_TYPE_AND_SCHEME keyid key_dict h
      = (h, Raise (Exn ValueError
                     ("Unsupported public key " +:+ kt +:+ "/" +:+ sch) None))).
Proof.
  intros Hobj Hnd Hkt Hsch Hkv Hpub. split.
  - intros Hreg.
    exists (<[key_dict := unrecognized_of D]> h), (Key.mk keyid kt sch kv key_dict).
    split; [now apply (Key_from_dict_run repr _ h key_dict D keyid kt sch pub kv)|].
    split; [reflexivity|]. split; [apply lookup_insert_eq|].
    split; [intros k; now apply unrecognized_of_get|].
    intros l Hl. now apply lookup_insert_ne.
  - intros Hreg. unfold Key.from_dict.
    erewrite bind_run by (apply dict_get_default_run; exact Hobj).
    erewrite bind_run by (apply dict_get_default_run; exact Hobj).
    rewrite Hkt, Hsch. cbn beta iota.
    unfold Key.lookup_impl. cbn [Key.table_component]. cbn beta iota.
    match goal with
    | |- match ?x with _ => _ end _ = _ =>
        replace x with (@None Key.key_impl) by (symmetry; exact Hreg)
    end.
    reflexivity.
Qed.

(** *** Verification *)

Section VerifyFacts.
Variable CRYPTO_IMPORT_ERROR : option string.
Variable checkvalid : bytes -> bytes -> bytes -> result unit.
Variable PublicKey : Type.
Variable load_pem_public_key : bytes -> result PublicKey.
Variable from_public_bytes : bytes -> result PublicKey.
Variable verify : PublicKey -> bytes -> bytes -> verify_arguments -> result unit.

Local Abbreviation verify_signature :=
  (SSlibKey.verify_signature CRYPTO_IMPORT_ERROR checkvalid PublicKey
     load_pem_public_key from_public_bytes verify).

Variables (self : Key.t) (signature : Signature.t) (data : bytes).
Variable log : list event.

(** The identity check comes first: nothing is decoded, no provider is
    called, nothing is logged. *)
Lemma verify_signature_keyid_mismatch :
  Signature.keyid signature <> Key.keyid self ->
  verify_signature self signature data log
  = (log,
     Raise (Exn VerificationError EmptyString
              (Some (Exn ValueError
                       ("keyid mismatch: 'key id: " +:+ Key.keyid self
                          +:+ " != signature keyid: "
                          +:+ Signature.keyid signature +:+ "'") None)))).
Proof.
  intros Hne. unfold SSlibKey.verify_signature.
  destruct (String.eqb_spec (Signature.keyid signature) (Key.keyid self));
    [contradiction | reflexivity].
Qed.

(** The signature text is decoded outside the two [try] blocks. *)
Lemma verify_signature_malformed_signature :
  Signature.keyid signature = Key.keyid self ->
  fromhex (Signature.signature signature) = None ->
  verify_signature self signature data log
  = (log ++ [Ev_fromhex (VStr (Signature.signature signature))],
     Raise (Exn ValueError "non-hexadecimal number found in fromhex() arg" None)).
Proof.
  intros Hid Hhex. unfold SSlibKey.verify_signature.
  rewrite Hid, String.eqb_refl. cbn [negb].
  unfold SSlibKey.bytes_fromhex. rewrite Hhex. reflexivity.
Qed.

(** Whatever the body of a [try] does, the two [except] clauses let only
    the two classes out. *)
Lemma handlers_classes {A : Type} (mismatch : exn_class)
    (body : Py (list event) unit) (st : list event) :
  match snd (try_except body (SSlibKey.handlers mismatch self) st) with
  | Return _ => True
  | Raise e => exn_cls e = UnverifiedSignatureError \/ exn_cls e = VerificationError
  end.
Proof.
  unfold try_except. destruct (body st) as [st' [[]|e]]; [exact I|].
  unfold SSlibKey.handlers.
  destruct (exn_class_eqb (exn_cls e) mismatch); cbn; auto.
Qed.

(** Once the signature text is decoded, every failure is of one of the
    two classes. *)
Lemma verify_signature_classes (sig : bytes) :
  Signature.keyid signature = Key.keyid self ->
  fromhex (Signature.signature signature) = Some sig ->
  match snd (verify_signature self signature data log) with
  | Return _ => True
  | Raise e => exn_cls e = UnverifiedSignatureError \/ exn_cls e = VerificationError
  end.
Proof.
  intros Hid Hhex. unfold SSlibKey.verify_signature.
  rewrite Hid, String.eqb_refl. cbn [negb].
  erewrite bind_run.
  2:{ unfold SSlibKey.bytes_fromhex. rewrite Hhex. reflexivity. }
  destruct (SSlibKey.crypto_import_failed CRYPTO_IMPORT_ERROR);
    apply (handlers_classes (A := unit)).
Qed.

(** Without the provider, any scheme but ed25519 is a process error, and
    [checkvalid] is not called. *)
Lemma verify_signature_fallback_other_scheme (sig : bytes) :
  SSlibKey.crypto_import_failed CRYPTO_IMPORT_ERROR = true ->
  Signature.keyid signature = Key.keyid self ->
  fromhex (Signature.signature signature) = Some sig ->
  Key.scheme self <> "ed25519" ->
  verify_signature self signature data log
  = (log ++ [Ev_fromhex (VStr (Signature.signature signature))]
         ++ [Ev_logger_info (Key.keyid self)
               (default EmptyString CRYPTO_IMPORT_ERROR)],
     Raise (Exn VerificationError
              ("Unknown failure to verify signature by " +:+ Key.keyid self)
              (Some (Exn UnsupportedLibraryError
                       (default EmptyString CRYPTO_IMPORT_ERROR) None)))).
Proof.
  intros Hfail Hid Hhex Hsch. unfold SSlibKey.verify_signature.
  rewrite Hid, String.eqb_refl. cbn [negb].
  erewrite bind_run.
  2:{ unfold SSlibKey.bytes_fromhex. rewrite Hhex. reflexivity. }
  rewrite Hfail.
  destruct (String.eqb_spec (Key.scheme self) "ed25519"); [contradiction|].
  cbn [negb].
  cbv [try_except bind raise SSlibKey.handlers emit exn_cls exn_class_eqb exn_str].
  now rewrite <- app_assoc.
Qed.

(** Without the provider, ed25519 goes to [checkvalid] once the public key
    text is decoded, and its outcome decides. *)
Lemma verify_signature_fallback_ed25519 (sig public_bytes : bytes) (public : string) :
  SSlibKey.crypto_import_failed CRYPTO_IMPORT_ERROR = true ->
  Signature.keyid signature = Key.keyid self ->
  fromhex (Signature.signature signature) = Some sig ->
  Key.scheme self = "ed25519" ->
  dict_get (Key.keyval self) "public" = Some (VStr public) ->
  fromhex public = Some public_bytes ->
  snd (verify_signature self signature data log)
  = match checkvalid sig data public_bytes with
    | Return _ => Return tt
    | Raise e =>
        if exn_class_eqb (exn_cls e) SignatureMismatch
        then Raise (Exn UnverifiedSignatureError
                      ("Failed to verify signature by " +:+ Key.keyid self)
                      (Some e))
        else Raise (Exn VerificationError
                      ("Unknown failure to verify signature by " +:+ Key.keyid self)
                      (Some e))
    end.
Proof.
  intros Hfail Hid Hhex Hsch Hpub Hpubhex.
  unfold SSlibKey.verify_signature.
  rewrite Hid, String.eqb_refl. cbn [negb].
  erewrite bind_run.
  2:{ unfold SSlibKey.bytes_fromhex. rewrite Hhex. reflexivity. }
  rewrite Hfail, Hsch. cbn [String.eqb negb].
  unfold try_except.
  erewrite bind_run by reflexivity.
  erewrite bind_run by (unfold SSlibKey.keyval_public; rewrite Hpub; reflexivity).
  erewrite bind_run.
  2:{ unfold SSlibKey.bytes_fromhex. rewrite Hpubhex. reflexivity. }
  unfold bind, emit, lift, SSlibKey.handlers.
  destruct (checkvalid sig data public_bytes) as [[]|e]; [reflexivity|].
  destruct (exn_class_eqb (exn_cls e) SignatureMismatch); reflexivity.
Qed.

(** With the provider, a scheme outside the eleven listed is a process
    error raised before any key material is touched. *)
Lemma verify_signature_unknown_scheme (sig : bytes) :
  SSlibKey.crypto_import_failed CRYPTO_IMPORT_ERROR = false ->
  Signature.keyid signature = Key.keyid self ->
  fromhex (Signature.signature signature) = Some sig ->
  in_list (Key.scheme self)
    ["rsassa-pss-sha224"; "rsassa-pss-sha256"; "rsassa-pss-sha384";
     "rsassa-pss-sha512"; "rsa-pkcs1v15-sha224"; "rsa-pkcs1v15-sha256";
     "rsa-pkcs1v15-sha384"; "rsa-pkcs1v15-sha512";
     "ecdsa-sha2-nistp256"; "ecdsa-sha2-nistp384"; "ed25519"] = false ->
  verify_signature self signature data log
  = (log ++ [Ev_fromhex (VStr (Signature.signature signature))]
         ++ [Ev_logger_info (Key.keyid self)
               ("unknown scheme '" +:+ Key.scheme self +:+ "'")],
     Raise (Exn VerificationError
              ("Unknown failure to verify signature by " +:+ Key.keyid self)
              (Some (Exn ValueError
                       ("unknown scheme '" +:+ Key.scheme self +:+ "'") None)))).
Proof.
  intros Hok Hid Hhex Hsch. unfold SSlibKey.verify_signature.
  rewrite Hid, String.eqb_refl. cbn [negb].
  erewrite bind_run.
  2:{ unfold SSlibKey.bytes_fromhex. rewrite Hhex. reflexivity. }
  rewrite Hok. unfold in_list in *. cbn [existsb] in *.
  repeat match type of Hsch with
         | (_ || _)%bool = false => apply orb_false_elim in Hsch as [? Hsch]
         end.
  repeat match goal with
         | H : String.eqb _ _ = false |- _ => rewrite H; clear H
         end.
  cbn [orb].
  cbv [try_except bind raise SSlibKey.handlers emit exn_cls exn_class_eqb exn_str].
  now rewrite <- app_assoc.
Qed.
End VerifyFacts.


(** *** The claims on verification *)

(** C1, as the code has it.  When the keyid of the signature differs from
    the keyid of the key, [verify_signature] raises at once: nothing is
    hex-decoded, no provider is called and nothing is logged (the record of
    events is as before the call).  What it raises is a VerificationError
    caused by a ValueError, the class the module uses for the errors of the
    verification process. *)
Theorem verify_signature_keyid_check_first
    (CRYPTO_IMPORT_ERROR : option string)
    (checkvalid : bytes -> bytes -> bytes -> result unit)
    (PublicKey : Type)
    (load_pem_public_key from_public_bytes : bytes -> result PublicKey)
    (verify : PublicKey -> bytes -> bytes -> verify_arguments -> result unit)
    (self : Key.t) (signature : Signature.t) (data : bytes) (log : list event) :
  Signature.keyid signature <> Key.keyid self ->
  exists e cause : exn,
    SSlibKey.verify_signature CRYPTO_IMPORT_ERROR checkvalid PublicKey
      load_pem_public_key from_public_bytes verify self signature data log
    = (log, Raise e)
    /\ exn_cls e = VerificationError
    /\ exn_cause e = Some cause
    /\ exn_cls cause = ValueError.
Proof.
  intros Hne. eexists _, _. split.
  - now apply verify_signature_keyid_mismatch.
  - repeat split.
Qed.

Lemma verify_signature_keyid_check_first_witness :
  exists e cause : exn,
    SSlibKey.verify_signature None accept_checkvalid unit accept_load accept_load
      accept_verify sample_rsa_key signature_of_other_key [] []
    = ([], Raise e)
    /\ exn_cls e = VerificationError
    /\ exn_cause e = Some cause
    /\ exn_cls cause = ValueError.
Proof.
  apply (verify_signature_keyid_check_first None accept_checkvalid unit
           accept_load accept_load accept_verify
           sample_rsa_key signature_of_other_key [] []).
  vm_compute. discriminate.
Defined.

(** The keyid mismatch is not raised as the class of a signature that was
    checked and found invalid. *)
Lemma keyid_mismatch_is_process_error :
  Signature.keyid signature_of_other_key <> Key.keyid sample_rsa_key
  /\ exists e : exn,
      snd (SSlibKey.verify_signature None accept_checkvalid unit accept_load
             accept_load accept_verify sample_rsa_key signature_of_other_key [] [])
      = Raise e
      /\ exn_cls e = VerificationError
      /\ exn_cls e <> UnverifiedSignatureError.
Proof.
  split; [vm_compute; discriminate|].
  eexists. split; [reflexivity|]. split; [reflexivity | discriminate].
Qed.

(** C2 at an input where the code leaves the claim.  The provider is
    missing, the scheme is not ed25519, the keyids agree, and the text of the
    signature has three hexadecimal digits: decoding it raises a ValueError
    before the [try] is entered, and that ValueError is what the caller gets,
    not a VerificationError. *)
Theorem verify_signature_fallback_odd_signature :
  SSlibKey.verify_signature crypto_missing accept_checkvalid unit accept_load
    accept_load accept_verify sample_rsa_key signature_odd_hex [] []
  = ([Ev_fromhex (VStr "abc")],
     Raise (Exn ValueError "non-hexadecimal number found in fromhex() arg" None))
  /\ SSlibKey.crypto_import_failed crypto_missing = true
  /\ Key.scheme sample_rsa_key <> "ed25519"
  /\ ValueError <> VerificationError.
Proof.
  split; [reflexivity|]. split; [reflexivity|].
  split; [vm_compute; discriminate | discriminate].
Qed.

(** C3 at an input where the code leaves the claim.  The provider is
    there, the scheme is none of the supported ones, the keyids agree, and
    the text of the signature has three hexadecimal digits: the ValueError of
    decoding it is raised outside the [try], so the failure is of neither of
    the two classes. *)
Theorem verify_signature_unknown_scheme_odd_signature :
  SSlibKey.verify_signature None accept_checkvalid unit accept_load
    accept_load accept_verify sample_unknown_scheme_key signature_odd_hex [] []
  = ([Ev_fromhex (VStr "abc")],
     Raise (Exn ValueError "non-hexadecimal number found in fromhex() arg" None))
  /\ ValueError <> VerificationError
  /\ ValueError <> UnverifiedSignatureError.
Proof.
  split; [reflexivity|]. split; discriminate.
Qed.

(** ** The embedding on the examples of the sources *)

(** The examples of the docstring of [encode_canonical]. *)
Example encode_canonical_docstring :
  encoded_text sample_repr (VStr EmptyString) = Some (char dquote +:+ char dquote)
  /\ encoded_text sample_repr (VList [VInt 1; VInt 2; VInt 3]) = Some "[1,2,3]"
  /\ encoded_text sample_repr (VList []) = Some "[]"
  /\ encoded_text sample_repr (VDict [("A", VList [VInt 99])])
     = Some ("{" +:+ char dquote +:+ "A" +:+ char dquote +:+ ":[99]}")
  /\ encoded_text sample_repr (VDict dict_xy)
     = Some ("{" +:+ char dquote +:+ "x" +:+ char dquote +:+ ":3,"
                 +:+ char dquote +:+ "y" +:+ char dquote +:+ ":2}")
  /\ encoded_text sample_repr (VList [VBool true; VBool false; VNone; VInt (-7)])
     = Some "[true,false,null,-7]".
Proof. repeat split. Qed.

(** The example of the docstring of [datetime_to_unix_timestamp]. *)
Example datetime_to_unix_timestamp_docstring :
  datetime_to_unix_timestamp sample_repr (inl (mk_datetime 1985 10 26 1 22 0))
  = Return 499137720.
Proof. reflexivity. Qed.

Example fromhex_examples :
  fromhex "0aFF 10" = Some [x0a; xff; x10]%byte
  /\ fromhex "abc" = None
  /\ fromhex "a b" = None
  /\ fromhex "zz" = None
  /\ fromhex EmptyString = Some [].
Proof. repeat split. Qed.

Example scheme_names :
  tail (split_dash "rsa-pkcs1v15-sha512") = ["pkcs1v15"; "sha512"]
  /\ "sha" +:+ last3 "ecdsa-sha2-nistp384" = "sha384".
Proof. repeat split. Qed.

(** A run through the RSA branch and one through the fallback, with a
    provider that accepts. *)
Example verify_signature_runs :
  SSlibKey.verify_signature None accept_checkvalid unit accept_load accept_load
    accept_verify sample_rsa_key (Signature.mk "k1" "00ff") [] []
  = ([Ev_fromhex (VStr "00ff");
      Ev_load_pem_public_key (list_byte_of_string "PEM");
      Ev_verify [x00; xff]%byte [] (RSA_arguments (PSS SHA256) SHA256)],
     Return tt)
  /\ snd (SSlibKey.verify_signature crypto_missing accept_checkvalid unit
            accept_load accept_load accept_verify
            (Key.mk "k1" "ed25519" "ed25519" [("public", VStr "abcd")] 0%nat)
            (Signature.mk "k1" "00ff") [] [])
     = Return tt.
Proof. repeat split. Qed.

(** ** The claims at sample inputs *)

Lemma encode_canonical_dict_order_independent_witness :
  (encoded_text sample_repr (VDict dict_yx) = encoded_text sample_repr (VDict dict_xy)
   /\ forall (S : Type) (f : string -> S -> S) (st : S),
       fst (encode_canonical sample_repr (VDict dict_yx) (Some f) st)
       = fst (encode_canonical sample_repr (VDict dict_xy) (Some f) st))
  /\ (encoded_text sample_repr (VList [VDict dict_yx])
      = encoded_text sample_repr (VList [VDict dict_xy])
      /\ forall (S : Type) (f : string -> S -> S) (st : S),
          fst (encode_canonical sample_repr (VList [VDict dict_yx]) (Some f) st)
          = fst (encode_canonical sample_repr (VList [VDict dict_xy]) (Some f) st))
  /\ StronglySorted (fun x y => String.ltb (fst x) (fst y) = true) (sorted dict_yx)
  /\ (exists texts,
         Forall2 (fun kv t => encoded_text sample_repr (snd kv) = Some t)
                 (sorted dict_yx) texts
         /\ "{" +:+ char dquote +:+ "x" +:+ char dquote +:+ ":3,"
                +:+ char dquote +:+ "y" +:+ char dquote +:+ ":2}"
            = "{" +:+ String.concat ","
                        (zip_with (fun kv t => _canonical_string_encoder (fst kv)
                                                 +:+ ":" +:+ t)
                                  (sorted dict_yx) texts)
                  +:+ "}")
  /\ count_space ("[" +:+ char dquote +:+ "a b" +:+ char dquote +:+ ",1]")
     = count_space_value (VList [VStr "a b"; VInt 1]).
Proof.
  destruct (encode_canonical_dict_order_independent sample_repr)
    as [Horder [Hnested [Htext [_ Hspace]]]].
  assert (Hnd : NoDup (map fst dict_yx)).
  { apply (bool_decide_unpack _). vm_compute. exact I. }
  split; [|split; [|split; [|split]]].
  - apply Horder; [exact Hnd | apply perm_swap].
  - apply Hnested; [reflexivity|].
    apply same_list. constructor; [|constructor].
    apply (same_dict dict_yx dict_yx dict_xy); [|apply perm_swap].
    repeat constructor.
  - apply (Htext dict_yx _ eq_refl). exact Hnd.
  - apply (Htext dict_yx _ eq_refl).
  - apply Hspace. reflexivity.
Defined.

Lemma encode_canonical_incremental_same_as_oneshot_witness :
  exists (s : string) (chunks : list string),
    String.concat EmptyString chunks = s
    /\ (forall (S : Type) (st : S),
          encode_canonical sample_repr (VDict dict_yx) None st
          = (st, Return (Some s)))
    /\ (forall (S : Type) (f : string -> S -> S) (st : S),
          encode_canonical sample_repr (VDict dict_yx) (Some f) st
          = (feed f st chunks, Return None)).
Proof.
  apply (encode_canonical_incremental_same_as_oneshot sample_repr (VDict dict_yx)).
  reflexivity.
Defined.

Lemma encode_canonical_fails_outside_model_witness :
  (exists s : string, forall (S : Type) (st : S),
       encode_canonical sample_repr (VList [VInt 1; VStr "a"]) None st
       = (st, Return (Some s)))
  /\ (exists w : value,
         occurs_in w (VList [VInt 1; VFloat 1 (-1)]) /\ outside_model w = true
         /\ forall (S : Type) (st : S),
             encode_canonical sample_repr (VList [VInt 1; VFloat 1 (-1)]) None st
             = (st, Raise (Exn FormatError
                             ("Could not encode "
                                +:+ sample_repr (VList [VInt 1; VFloat 1 (-1)])
                                +:+ ": " +:+ "I cannot encode "
                                +:+ sample_repr w) None)))
  /\ (forall (S : Type) (st : S),
         encode_canonical sample_repr (VFloat 1 (-1)) None st
         = (st, Raise (Exn FormatError
                         ("Could not encode " +:+ sample_repr (VFloat 1 (-1))
                            +:+ ": " +:+ "I cannot encode "
                            +:+ sample_repr (VFloat 1 (-1))) None))).
Proof.
  split; [|split].
  - apply (encode_canonical_fails_outside_model sample_repr (VList [VInt 1; VStr "a"])).
    reflexivity.
  - apply (encode_canonical_fails_outside_model sample_repr
             (VList [VInt 1; VFloat 1 (-1)])).
    reflexivity.
  - apply (encode_canonical_fails_outside_model sample_repr (VFloat 1 (-1))).
    reflexivity.
Defined.

Lemma key_from_dict_to_dict_keeps_fields_witness :
  exists (h' : heap) (key : Key.t) (out : pydict),
    Key.from_dict sample_repr sample_table "id" 0%nat sample_heap = (h', Return key)
    /\ SSlibKey.to_dict key h' = (h', Return out)
    /\ (forall k : string, dict_get out k = dict_get sample_key_dict k)
    /\ dict_get out "keytype" = Some (VStr "ed25519")
    /\ dict_get out "scheme" = Some (VStr "ed25519")
    /\ dict_get out "keyval" = Some (VDict [("public", VStr "abcd")])
    /\ (forall x : value,
          dict_get sample_key_dict "custom" = Some x -> dict_get out "custom" = Some x).
Proof.
  apply (key_from_dict_to_dict_keeps_fields sample_repr sample_table sample_heap
           0%nat sample_key_dict "id" "ed25519" "ed25519" "abcd"
           [("public", VStr "abcd")]).
  - apply lookup_singleton_eq.
  - apply (bool_decide_unpack _). vm_compute. exact I.
  - reflexivity.
  - reflexivity.
  - reflexivity.
  - reflexivity.
  - apply lookup_singleton_eq.
Defined.

Lemma key_from_dict_pops_fields_of_argument_witness :
  exists (h' : heap) (key : Key.t),
    Key.from_dict sample_repr sample_table "id" 0%nat sample_heap = (h', Return key)
    /\ Key.unrecognized_fields key = 0%nat
    /\ h' !! 0%nat = Some (unrecognized_of sample_key_dict)
    /\ (forall k : string,
          dict_get (unrecognized_of sample_key_dict) k
          = if in_list k ["keytype"; "scheme"; "keyval"] then None
            else dict_get sample_key_dict k)
    /\ (forall l : loc, l <> 0%nat -> h' !! l = sample_heap !! l).
Proof.
  apply (key_from_dict_pops_fields_of_argument sample_repr sample_table sample_heap
           0%nat sample_key_dict "id" "ed25519" "ed25519" "abcd"
           [("public", VStr "abcd")]).
  - apply lookup_singleton_eq.
  - apply (bool_decide_unpack _). vm_compute. exact I.
  - reflexivity.
  - reflexivity.
  - reflexivity.
  - reflexivity.
  - apply lookup_singleton_eq.
Defined.

(** The dict passed to [Key.from_dict] is not the same after the call: of
    the four fields of the sample only [custom] is left. *)
Lemma key_from_dict_changes_argument :
  exists (h' : heap) (key : Key.t),
    Key.from_dict sample_repr sample_table "id" 0%nat sample_heap = (h', Return key)
    /\ sample_heap !! 0%nat = Some sample_key_dict
    /\ h' !! 0%nat = Some [("custom", VStr "x")]
    /\ h' !! 0%nat <> sample_heap !! 0%nat.
Proof.
  eexists _, _. split.
  - apply (Key_from_dict_run sample_repr sample_table sample_heap 0%nat
             sample_key_dict "id" "ed25519" "ed25519" "abcd"
             [("public", VStr "abcd")]); reflexivity.
  - split; [apply lookup_singleton_eq|].
    rewrite lookup_insert_eq. split; [reflexivity|].
    unfold sample_heap. rewrite lookup_singleton_eq. discriminate.
Qed.

Lemma unix_timestamp_range_and_utc_witness :
  (matches UNIX_TIMESTAMP_SCHEMA (VInt 5) = true)
  /\ unix_timestamp_to_datetime sample_repr (fun _ => []) (VInt (-1))
     = Raise (Exn FormatError (sample_repr (VInt (-1))) None)
  /\ unix_timestamp_to_datetime sample_repr time_gmtime (VInt 86400)
     = datetime_datetime (firstn 6 (time_gmtime 86400))
  /\ exists dt : datetime,
      unix_timestamp_to_datetime sample_repr time_gmtime (VInt 2147483647) = Return dt
      /\ datetime_to_unix_timestamp sample_repr (inl dt) = Return 2147483647.
Proof.
  destruct (unix_timestamp_range_and_utc sample_repr sample_repr)
    as [Hiff [_ [_ [_ [_ [Hrej [Hacc [Hutc _]]]]]]]].
  split; [|split; [|split]].
  - apply Hiff. exists 5. split; [reflexivity | lia].
  - apply Hrej. reflexivity.
  - apply Hacc. lia.
  - apply Hutc. lia.
Defined.

(** ** Further properties of the canonical encoder *)

(** *** Reading an encoded text *)

Lemma scan_escaped_re_sub (s after : string) :
  scan_escaped (re_sub_quote_backslash s +:+ String dquote after) = Some (s, after).
Proof.
  induction s as [|c s IH].
  - cbn. reflexivity.
  - cbn [re_sub_quote_backslash].
    destruct (Ascii.eqb c dquote || Ascii.eqb c backslash)%bool eqn:Hc.
    + change (String backslash (String c (re_sub_quote_backslash s)) +:+ String dquote after)
        with (String backslash (String c (re_sub_quote_backslash s +:+ String dquote after))).
      cbn [scan_escaped].
      change (Ascii.eqb backslash dquote) with false.
      change (Ascii.eqb backslash backslash) with true. cbv iota.
      now rewrite IH.
    + apply orb_false_elim in Hc as [Hq Hb].
      change (String c (re_sub_quote_backslash s) +:+ String dquote after)
        with (String c (re_sub_quote_backslash s +:+ String dquote after)).
      cbn [scan_escaped]. rewrite Hq, Hb. now rewrite IH.
Qed.

Lemma scan_string_encoder (s after : string) :
  scan_string (_canonical_string_encoder s +:+ after) = Some (s, after).
Proof.
  unfold _canonical_string_encoder, char.
  change (String dquote EmptyString +:+ re_sub_quote_backslash s +:+ String dquote EmptyString)
    with (String dquote (re_sub_quote_backslash s +:+ String dquote EmptyString)).
  change (String dquote (re_sub_quote_backslash s +:+ String dquote EmptyString) +:+ after)
    with (String dquote ((re_sub_quote_backslash s +:+ String dquote EmptyString) +:+ after)).
  cbn [scan_string]. change (Ascii.eqb dquote dquote) with true. cbv iota.
  rewrite string_app_assoc.
  change (String dquote EmptyString +:+ after) with (String dquote after).
  apply scan_escaped_re_sub.
Qed.

(** X1.  An encoded text can be read back, whatever text follows it: a
    reader that takes a backslash to make the next character literal and the
    first bare quote to end the text gets the original text and the rest
    unchanged.  So two different texts never have the same encoding. *)
Theorem canonical_string_encoder_reads_back (s after : string) :
  scan_string (_canonical_string_encoder s +:+ after) = Some (s, after)
  /\ forall s' : string,
       _canonical_string_encoder s = _canonical_string_encoder s' -> s = s'.
Proof.
  split; [apply scan_string_encoder|].
  intros s' Heq.
  pose proof (scan_string_encoder s EmptyString) as H1.
  pose proof (scan_string_encoder s' EmptyString) as H2.
  rewrite Heq in H1. congruence.
Qed.

(** X2.  With a sink, a value the encoder cannot encode leaves its marks:
    the call raises the same FormatError as the one-shot form, but the sink
    has been handed chunks before, for a list, a tuple or a dict at least
    the opening bracket, and stays as they left it.  A value that is itself
    of a type without a case reaches no sink, and the one-shot form leaves
    the state of the caller as it was. *)
Theorem encode_canonical_sink_keeps_partial_output
    (repr : value -> string) (v : value) (S : Type)
    (output_function : string -> S -> S) (st : S) :
  encodable v = false ->
  exists (chunks : list string) (e : exn),
    encode_canonical repr v (Some output_function) st
    = (feed output_function st chunks, Raise e)
    /\ encode_canonical repr v None st = (st, Raise e)
    /\ exn_cls e = FormatError
    /\ match v with
       | VList _ | VTuple _ => head chunks = Some "["
       | VDict _ => head chunks = Some "{"
       | _ => chunks = []
       end.
Proof.
  intros Henc.
  destruct (not_encodable_raises repr v Henc) as (w & _ & _ & Hraise).
  exists (fst (chunks_of repr v)), (encode_handler repr v (cannot_encode repr w)).
  split; [|split; [|split]].
  - rewrite incremental_chunks, Hraise. reflexivity.
  - rewrite oneshot_any_state, oneshot_chunks.
    destruct (chunks_of repr v) as [c r]. cbn [snd] in Hraise. now rewrite Hraise.
  - reflexivity.
  - destruct v; try discriminate; try reflexivity.
    + destruct (chunks_of_sequence repr l) as [-> _].
      now destruct (join_traces _ _) as [c [[]|e]].
    + destruct (chunks_of_sequence repr l) as [Hl ->]. rewrite Hl.
      now destruct (join_traces _ _) as [c [[]|e]].
    + rewrite chunks_of_dict.
      now destruct (join_traces _ _) as [c [[]|e]].
Qed.

(** *** The text of a value *)

Lemma concat_single (sep x : string) : String.concat sep [x] = x.
Proof. reflexivity. Qed.

Lemma concat_cons2 (sep x y : string) (l : list string) :
  String.concat sep (x :: y :: l) = x +:+ sep +:+ String.concat sep (y :: l).
Proof. reflexivity. Qed.

Section TextOf.
Variable repr : value -> string.

Lemma text_of_encoded (v : value) :
  encodable v = true -> encoded_text repr v = Some (text_of repr v).
Proof.
  intros He. apply encoded_text_returns. now apply encodable_returns.
Qed.

Lemma encoded_text_encodable (v : value) (t : string) :
  encoded_text repr v = Some t -> encodable v = true.
Proof.
  intros Ht. destruct (encodable v) eqn:He; [reflexivity|].
  destruct (not_encodable_raises repr v He) as (w & _ & _ & Hraise).
  rewrite encoded_text_chunks in Ht.
  destruct (chunks_of repr v) as [c r]. cbn [snd] in Hraise. subst r. discriminate.
Qed.

Lemma text_of_sequence (l : list value) :
  forallb encodable l = true ->
  text_of repr (VList l)
  = "[" +:+ String.concat "," (map (text_of repr) l) +:+ "]"
  /\ text_of repr (VTuple l) = text_of repr (VList l).
Proof.
  intros He. unfold text_of.
  destruct (chunks_of_sequence repr l) as [Hl Ht]. rewrite Ht, Hl. split; [|reflexivity].
  destruct (join_traces_returns "," (map (chunks_of repr) l)) as [c [Hj Hc]].
  { apply Forall_fmap, Forall_forall. intros x Hx. apply encodable_returns.
    rewrite forallb_forall in He. apply He. now apply list_elem_of_In. }
  rewrite Hj. cbn [wrap_trace fst].
  rewrite join_cons, join_app, Hc, map_map. reflexivity.
Qed.

Lemma text_of_dict (d : list (string * value)) :
  forallb (fun kv => encodable (snd kv)) d = true ->
  text_of repr (VDict d)
  = "{" +:+ String.concat ","
              (map (fun kv => _canonical_string_encoder (fst kv) +:+ ":"
                                +:+ text_of repr (snd kv)) (sorted d))
        +:+ "}".
Proof.
  intros He. unfold text_of. rewrite chunks_of_dict.
  match goal with
  | |- context [join_traces ?sep ?runs] =>
      destruct (join_traces_returns sep runs) as [c [Hj Hc]]
  end.
  { apply Forall_fmap, Forall_forall. intros kv Hkv.
    rewrite sorted_perm in Hkv. unfold returns, item_trace. cbn [snd].
    apply encodable_returns. rewrite forallb_forall in He.
    apply (He kv). now apply list_elem_of_In. }
  rewrite Hj. cbn [wrap_trace fst].
  rewrite join_cons, join_app, Hc, map_map.
  change (String.concat EmptyString ["}"]) with "}".
  do 3 f_equal. apply map_ext. intros kv. unfold item_trace. cbn [fst].
  now rewrite !join_cons.
Qed.
End TextOf.

(** *** Characters *)

Lemma opens_value_not_closing (c : ascii) :
  opens_value c = true ->
  Ascii.eqb "]" c = false /\ Ascii.eqb "}" c = false /\ Ascii.eqb "," c = false.
Proof.
  destruct c as [[] [] [] [] [] [] [] []]; vm_compute; intros H;
    repeat split; try reflexivity; discriminate.
Qed.

Lemma digit_or_minus_dispatch (c : ascii) :
  (is_digit c || Ascii.eqb c "-")%bool = true ->
  Ascii.eqb c dquote = false /\ Ascii.eqb c "[" = false /\ Ascii.eqb c "{" = false
  /\ Ascii.eqb "t" c = false /\ Ascii.eqb "f" c = false /\ Ascii.eqb "n" c = false.
Proof.
  destruct c as [[] [] [] [] [] [] [] []]; vm_compute; intros H;
    repeat split; try reflexivity; discriminate.
Qed.

Lemma digit_not_minus (c : ascii) : is_digit c = true -> Ascii.eqb c "-" = false.
Proof.
  destruct c as [[] [] [] [] [] [] [] []]; vm_compute; intros H;
    try reflexivity; discriminate.
Qed.

(** *** Integers *)

Lemma span_digits_stop (after : string) :
  starts_with_digit after = false -> span_digits after = (EmptyString, after).
Proof.
  destruct after as [|c r]; [reflexivity|]. cbn. now intros ->.
Qed.

Lemma span_digits_uint (d : Decimal.uint) (after : string) :
  starts_with_digit after = false ->
  span_digits (NilEmpty.string_of_uint d +:+ after)
  = (NilEmpty.string_of_uint d, after).
Proof.
  intros Hafter. induction d; cbn [NilEmpty.string_of_uint];
    try (now apply span_digits_stop);
    match goal with
    | |- span_digits (String ?c ?s +:+ after) = _ =>
        change (String c s +:+ after) with (String c (s +:+ after));
        cbn [span_digits]; change (is_digit c) with true; cbv iota;
        rewrite IHd; reflexivity
    end.
Qed.

Lemma uint_string_first (d : Decimal.uint) :
  d <> Decimal.Nil ->
  exists c r, NilEmpty.string_of_uint d = String c r /\ is_digit c = true.
Proof.
  destruct d; [congruence|..]; intros _; cbn [NilEmpty.string_of_uint];
    eexists _, _; split; reflexivity.
Qed.

Lemma Z_to_int_cases (z : Z) :
  exists d : Decimal.uint,
    d <> Decimal.Nil /\ (Z.to_int z = Decimal.Pos d \/ Z.to_int z = Decimal.Neg d).
Proof.
  destruct z as [|p|p]; cbn [Z.to_int].
  - exists (Decimal.D0 Decimal.Nil). split; [discriminate | now left].
  - exists (Pos.to_uint p). split; [apply DecimalPos.Unsigned.to_uint_nonnil | now left].
  - exists (Pos.to_uint p). split; [apply DecimalPos.Unsigned.to_uint_nonnil | now right].
Qed.

Lemma string_of_uint_nonnil (d : Decimal.uint) :
  d <> Decimal.Nil -> NilZero.string_of_uint d = NilEmpty.string_of_uint d.
Proof. destruct d; [congruence|..]; reflexivity. Qed.

Lemma str_int_first (z : Z) :
  exists c r, str_int z = String c r /\ (is_digit c || Ascii.eqb c "-")%bool = true.
Proof.
  unfold str_int. destruct (Z_to_int_cases z) as (d & Hd & [-> | ->]);
    cbn [NilZero.string_of_int]; rewrite string_of_uint_nonnil by exact Hd.
  - destruct (uint_string_first d Hd) as (c & r & -> & Hc).
    exists c, r. now rewrite Hc.
  - eexists _, _. split; reflexivity.
Qed.

Lemma scan_int_str_int (z : Z) (after : string) :
  starts_with_digit after = false ->
  scan_int (str_int z +:+ after) = Some (z, after).
Proof.
  intros Hafter. unfold str_int.
  pose proof (DecimalZ.of_to z) as Hz.
  destruct (Z_to_int_cases z) as (d & Hd & [Hi | Hi]); rewrite Hi in *.
  - cbn [NilZero.string_of_int]. rewrite string_of_uint_nonnil by exact Hd.
    unfold scan_int.
    destruct (uint_string_first d Hd) as (c & r & Hs & Hc).
    rewrite Hs. change (String c r +:+ after) with (String c (r +:+ after)).
    cbv beta iota. rewrite (digit_not_minus c Hc).
    change (String c (r +:+ after)) with (String c r +:+ after). rewrite <- Hs.
    rewrite span_digits_uint by exact Hafter.
    change (EmptyString +:+ NilEmpty.string_of_uint d)
      with (NilEmpty.string_of_uint d).
    rewrite <- string_of_uint_nonnil by exact Hd.
    change (NilZero.string_of_uint d) with (NilZero.string_of_int (Decimal.Pos d)).
    rewrite NilZero.isi by congruence. now rewrite Hz.
  - cbn [NilZero.string_of_int]. rewrite string_of_uint_nonnil by exact Hd.
    unfold scan_int.
    change (String "-" (NilEmpty.string_of_uint d) +:+ after)
      with (String "-" (NilEmpty.string_of_uint d +:+ after)).
    cbv beta iota. change (Ascii.eqb "-" "-") with true. cbv beta iota.
    rewrite span_digits_uint by exact Hafter.
    change (String "-" EmptyString +:+ NilEmpty.string_of_uint d)
      with (String "-" (NilEmpty.string_of_uint d)).
    rewrite <- string_of_uint_nonnil by exact Hd.
    change (String "-" (NilZero.string_of_uint d))
      with (NilZero.string_of_int (Decimal.Neg d)).
    rewrite NilZero.isi by congruence. now rewrite Hz.
Qed.

(** *** Reading a text back *)

Lemma string_length_concat_In (sep x : string) (l : list string) :
  In x l -> (String.length x <= String.length (String.concat sep l))%nat.
Proof.
  induction l as [|y [|z l] IH]; [contradiction| |].
  - intros [->|[]]. cbn. lia.
  - intros Hin. rewrite concat_cons2, !string_length_app.
    destruct Hin as [->|Hin]; [lia|]. specialize (IH Hin). lia.
Qed.

Lemma string_length_concat_count (sep : string) (l : list string) :
  Forall (fun x => (1 <= String.length x)%nat) l ->
  (length l <= String.length (String.concat sep l))%nat.
Proof.
  induction l as [|y [|z l] IH]; intros Hall; [cbn; lia| |].
  - apply Forall_cons in Hall as [Hy _]. cbn [length String.concat]. lia.
  - apply Forall_cons in Hall as [Hy Hall]. specialize (IH Hall).
    rewrite concat_cons2, !string_length_app. cbn [length] in *. lia.
Qed.

Section Reading.
Variable repr : value -> string.

Lemma text_of_first (v : value) :
  encodable v = true ->
  exists c r, text_of repr v = String c r /\ opens_value c = true.
Proof.
  destruct v as [s|[]| |z|m e|b|l|l|d|n h]; cbn [encodable]; intros He;
    try discriminate; try (eexists _, _; split; reflexivity).
  - destruct (str_int_first z) as (c & r & Hs & Hc).
    exists c, r. split; [exact Hs|]. unfold opens_value.
    apply orb_prop in Hc as [Hc|Hc]; rewrite Hc; now rewrite ?orb_true_r.
  - destruct (text_of_sequence repr l He) as [-> _]. eexists _, _. split; reflexivity.
  - destruct (text_of_sequence repr l He) as [Hl ->]. rewrite Hl.
    eexists _, _. split; reflexivity.
  - rewrite (text_of_dict repr d He). eexists _, _. split; reflexivity.
Qed.

Lemma text_of_nonempty (v : value) :
  encodable v = true -> (1 <= String.length (text_of repr v))%nat.
Proof.
  intros He. destruct (text_of_first v He) as (c & r & -> & _). cbn. lia.
Qed.

Lemma parse_elements_ok (parse_value : string -> option (value * string))
    (l : list value) (fuel : nat) (after : string) :
  l <> [] -> Forall (reads repr parse_value) l -> (length l <= fuel)%nat ->
  parse_elements parse_value fuel
    (String.concat "," (map (text_of repr) l) +:+ String "]" after)
  = Some (map canonical_form l, after).
Proof.
  revert fuel. induction l as [|x [|y l] IH]; intros fuel Hne Hall Hlen;
    [congruence| |].
  - destruct fuel; [cbn in Hlen; lia|].
    apply Forall_cons in Hall as [Hx _]. cbn [map String.concat parse_elements].
    rewrite (Hx (String "]" after) eq_refl). reflexivity.
  - destruct fuel; [cbn in Hlen; lia|].
    apply Forall_cons in Hall as [Hx Hall].
    cbn [map]. rewrite concat_cons2. rewrite !string_app_assoc.
    cbn [parse_elements].
    match goal with
    | |- context [text_of repr x +:+ ?A] => rewrite (Hx A eq_refl)
    end.
    change ("," +:+ ?X) with (String "," X).
    cbv iota. change (Ascii.eqb "," ",") with true. cbv iota.
    cbn [map] in IH. rewrite IH; [reflexivity|discriminate|exact Hall|].
    cbn [length] in *. lia.
Qed.

Lemma parse_items_ok (parse_value : string -> option (value * string))
    (items : list (string * value)) (fuel : nat) (after : string) :
  items <> [] ->
  Forall (fun kv => reads repr parse_value (snd kv)) items ->
  (length items <= fuel)%nat ->
  parse_items parse_value fuel
    (String.concat ","
       (map (fun kv => _canonical_string_encoder (fst kv) +:+ ":"
                         +:+ text_of repr (snd kv)) items)
       +:+ String "}" after)
  = Some (map (fun kv => (fst kv, canonical_form (snd kv))) items, after).
Proof.
  revert fuel. induction items as [|[k x] [|y l] IH]; intros fuel Hne Hall Hlen;
    [congruence| |].
  - destruct fuel; [cbn in Hlen; lia|].
    apply Forall_cons in Hall as [Hx _]. cbn [snd] in Hx.
    cbn [map String.concat parse_items fst snd].
    rewrite !string_app_assoc, scan_string_encoder.
    change (":" +:+ ?X) with (String ":" X). cbv iota.
    change (Ascii.eqb ":" ":") with true. cbv iota.
    rewrite (Hx (String "}" after) eq_refl). reflexivity.
  - destruct fuel; [cbn in Hlen; lia|].
    apply Forall_cons in Hall as [Hx Hall]. cbn [snd] in Hx.
    cbn [map]. rewrite concat_cons2. cbn [fst snd]. rewrite !string_app_assoc.
    cbn [parse_items]. rewrite scan_string_encoder.
    change (":" +:+ ?X) with (String ":" X). cbv iota.
    change (Ascii.eqb ":" ":") with true. cbv iota.
    match goal with
    | |- context [text_of repr x +:+ ?A] => rewrite (Hx A eq_refl)
    end.
    change ("," +:+ ?X) with (String "," X).
    cbv iota. change (Ascii.eqb "," ",") with true. cbv iota.
    cbn [map] in IH. rewrite IH; [reflexivity|discriminate|exact Hall|].
    cbn [length] in *. lia.
Qed.
End Reading.

Section ReadingValues.
Variable repr : value -> string.

Lemma parse_text_string (s after : string) (fuel : nat) :
  parse (S fuel) (_canonical_string_encoder s +:+ after) = Some (VStr s, after).
Proof.
  pose proof (scan_string_encoder s after) as Hs.
  destruct (_canonical_string_encoder s +:+ after) as [|c r]; [discriminate|].
  cbn [parse]. cbn [scan_string] in Hs.
  destruct (Ascii.eqb c dquote) eqn:Hc; [|discriminate].
  cbn [scan_string]. rewrite Hc, Hs. reflexivity.
Qed.

Lemma parse_text_int (z : Z) (after : string) (fuel : nat) :
  starts_with_digit after = false ->
  parse (S fuel) (str_int z +:+ after) = Some (VInt z, after).
Proof.
  intros Hafter. pose proof (scan_int_str_int z after Hafter) as Hs.
  destruct (str_int_first z) as (c & r & Hz & Hc). rewrite Hz in *.
  change (String c r +:+ after) with (String c (r +:+ after)) in *.
  destruct (digit_or_minus_dispatch c Hc) as (H1 & H2 & H3 & H4 & H5 & H6).
  cbn [parse strip_prefix]. rewrite H1, H2, H3, H4, H5, H6, Hs. reflexivity.
Qed.

(** The text of a list or a tuple, given that its elements are read. *)
Lemma parse_text_sequence (l : list value) (fuel : nat) (after : string) :
  forallb encodable l = true ->
  Forall (reads repr (parse fuel)) l ->
  (length l <= fuel)%nat ->
  parse (S fuel)
    (("[" +:+ String.concat "," (map (text_of repr) l) +:+ "]") +:+ after)
  = Some (VList (map canonical_form l), after).
Proof.
  intros He Hread Hlen.
  rewrite !string_app_assoc.
  change ("[" +:+ ?X) with (String "[" X).
  change ("]" +:+ after) with (String "]" after).
  cbn [parse]. change (Ascii.eqb "[" dquote) with false.
  change (Ascii.eqb "[" "[") with true. cbv iota.
  destruct l as [|x l]; [reflexivity|].
  assert (Hrest : strip_prefix "]"
            (String.concat "," (map (text_of repr) (x :: l)) +:+ String "]" after)
          = None).
  { cbn [forallb] in He. apply andb_prop in He as [Hx _].
    destruct (text_of_first repr x Hx) as (c & r & Hc & Hopen).
    destruct (opens_value_not_closing c Hopen) as (Hc1 & _ & _).
    cbn [map]. destruct l as [|y l].
    - cbn [String.concat map]. rewrite Hc.
      change (String c r +:+ ?X) with (String c (r +:+ X)).
      cbn [strip_prefix]. now rewrite Hc1.
    - cbn [map]. rewrite concat_cons2, Hc.
      change (String c r +:+ ?X) with (String c (r +:+ X)).
      change (String c ?Y +:+ ?X) with (String c (Y +:+ X)).
      cbn [strip_prefix]. now rewrite Hc1. }
  rewrite Hrest.
  rewrite parse_elements_ok; [reflexivity|discriminate|exact Hread|exact Hlen].
Qed.

(** The bounds the reader needs, from the length of the text of a list. *)
Lemma sequence_text_bounds (l : list value) (x : value) :
  forallb encodable l = true ->
  (length l <= String.length (String.concat "," (map (text_of repr) l)))%nat
  /\ (x ∈ l ->
      (String.length (text_of repr x)
       <= String.length (String.concat "," (map (text_of repr) l)))%nat).
Proof.
  intros He. split.
  - rewrite <- (length_map (text_of repr) l).
    apply string_length_concat_count. apply Forall_fmap, Forall_forall.
    intros y Hy. apply text_of_nonempty.
    rewrite forallb_forall in He. apply He. now apply list_elem_of_In.
  - intros Hx. apply string_length_concat_In. apply in_map.
    now apply list_elem_of_In.
Qed.

Lemma parse_text (v : value) :
  encodable v = true ->
  forall (fuel : nat) (after : string),
    (String.length (text_of repr v) < fuel)%nat ->
    starts_with_digit after = false ->
    parse fuel (text_of repr v +:+ after) = Some (canonical_form v, after).
Proof.
  induction v as [s|b| |z|m e|b|l IH|l IH|d IH|n h] using value_ind';
    cbn [encodable]; intros He fuel after Hfuel Hafter; try discriminate;
    (destruct fuel as [|fuel]; [lia|]).
  - apply parse_text_string.
  - destruct b; reflexivity.
  - reflexivity.
  - now apply parse_text_int.
  - destruct (text_of_sequence repr l He) as [Hl _]. rewrite Hl in *.
    cbn [canonical_form].
    rewrite !string_length_app in Hfuel. cbn [String.length] in Hfuel.
    apply parse_text_sequence; [exact He| |].
    + apply Forall_forall. intros y Hy after' Hafter'.
      rewrite Forall_forall in IH. apply IH; [exact Hy| | |exact Hafter'].
      * rewrite forallb_forall in He. apply He. now apply list_elem_of_In.
      * destruct (sequence_text_bounds l y He) as [_ Hy']. specialize (Hy' Hy). lia.
    + destruct (sequence_text_bounds l VNone He) as [Hcount _]. lia.
  - destruct (text_of_sequence repr l He) as [Hl Ht]. rewrite Ht, Hl in *.
    cbn [canonical_form].
    rewrite !string_length_app in Hfuel. cbn [String.length] in Hfuel.
    apply parse_text_sequence; [exact He| |].
    + apply Forall_forall. intros y Hy after' Hafter'.
      rewrite Forall_forall in IH. apply IH; [exact Hy| | |exact Hafter'].
      * rewrite forallb_forall in He. apply He. now apply list_elem_of_In.
      * destruct (sequence_text_bounds l y He) as [_ Hy']. specialize (Hy' Hy). lia.
    + destruct (sequence_text_bounds l VNone He) as [Hcount _]. lia.
  - rewrite (text_of_dict repr d He) in *.
    cbn [canonical_form]. rewrite sorted_map.
    rewrite !string_length_app in Hfuel. cbn [String.length] in Hfuel.
    rewrite !string_app_assoc.
    change ("{" +:+ ?X) with (String "{" X).
    change ("}" +:+ after) with (String "}" after).
    cbn [parse]. change (Ascii.eqb "{" dquote) with false.
    change (Ascii.eqb "{" "[") with false.
    change (Ascii.eqb "{" "{") with true. cbv iota.
    assert (Hin : forall kv, kv ∈ sorted d -> kv ∈ d)
      by (intros kv; now rewrite sorted_perm).
    set (items := sorted d) in *. clearbody items.
    set (item_text := fun kv : string * value =>
           _canonical_string_encoder (fst kv) +:+ ":" +:+ text_of repr (snd kv)) in *.
    destruct items as [|kv items]; [reflexivity|].
    assert (Hrest : strip_prefix "}"
              (String.concat "," (map item_text (kv :: items)) +:+ String "}" after)
            = None).
    { cbn [map]. destruct items as [|kv' items].
      - cbn [String.concat map]. reflexivity.
      - cbn [map]. rewrite concat_cons2. reflexivity. }
    rewrite Hrest. subst item_text.
    rewrite parse_items_ok; [reflexivity|discriminate| |].
    + apply Forall_forall. intros y Hy.
      rewrite Forall_forall in IH. intros after' Hafter'.
      apply IH; [now apply Hin| | |exact Hafter'].
      * rewrite forallb_forall in He. apply (He y). apply list_elem_of_In. now apply Hin.
      * match type of Hfuel with
        | context [String.concat "," (map ?f ?l)] =>
            assert (String.length (f y)
                    <= String.length (String.concat "," (map f l)))%nat
              by (apply string_length_concat_In; apply (in_map f);
                  now apply list_elem_of_In)
        end.
        cbv beta in H. rewrite !string_length_app in H. lia.
    + match type of Hfuel with
      | context [String.concat "," (map ?f ?l)] =>
          assert (length (map f l)
                  <= String.length (String.concat "," (map f l)))%nat
      end.
      { apply string_length_concat_count. apply Forall_fmap, Forall_forall.
        intros y Hy. cbn. rewrite !string_length_app.
        unfold _canonical_string_encoder, char. rewrite !string_length_app.
        cbn [String.length]. lia. }
      rewrite length_map in H. lia.
Qed.

Lemma decode_text (v : value) :
  encodable v = true -> decode (text_of repr v) = Some (canonical_form v).
Proof.
  intros He. unfold decode.
  pose proof (parse_text v He (S (String.length (text_of repr v))) EmptyString
                ltac:(lia) eq_refl) as H.
  rewrite string_app_nil_r in H. now rewrite H.
Qed.
End ReadingValues.

(** *** The canonical form *)

Lemma sorted_of_sorted {A : Type} (l : list (string * A)) :
  StronglySorted key_le l -> sorted l = l.
Proof.
  induction 1 as [|x l Hl IH Hx]; [reflexivity|].
  cbn [sorted foldr]. fold (sorted l). rewrite IH.
  destruct l as [|y r]; [reflexivity|]. cbn [insert_item].
  apply Forall_cons in Hx as [Hxy _]. unfold key_le in Hxy. now rewrite Hxy.
Qed.

Lemma sorted_idempotent {A : Type} (l : list (string * A)) :
  sorted (sorted l) = sorted l.
Proof. apply sorted_of_sorted, sorted_StronglySorted. Qed.

Section CanonicalForm.
Variable repr : value -> string.

Lemma canonical_form_text (v : value) :
  encodable v = true ->
  encodable (canonical_form v) = true
  /\ text_of repr (canonical_form v) = text_of repr v.
Proof.
  induction v as [s|b| |z|m e|b|l IH|l IH|d IH|n h] using value_ind';
    cbn [encodable canonical_form]; intros He; try discriminate;
    try (split; reflexivity).
  - assert (He' : forallb encodable (map canonical_form l) = true).
    { apply forallb_forall. intros y Hy. apply in_map_iff in Hy as (x & <- & Hx).
      rewrite Forall_forall in IH. apply IH; [now apply list_elem_of_In|].
      rewrite forallb_forall in He. now apply He. }
    split; [exact He'|].
    destruct (text_of_sequence repr _ He') as [-> _].
    destruct (text_of_sequence repr _ He) as [-> _].
    rewrite map_map. do 3 f_equal. apply map_ext_in. intros x Hx.
    rewrite Forall_forall in IH. apply IH; [now apply list_elem_of_In|].
    rewrite forallb_forall in He. now apply He.
  - assert (He' : forallb encodable (map canonical_form l) = true).
    { apply forallb_forall. intros y Hy. apply in_map_iff in Hy as (x & <- & Hx).
      rewrite Forall_forall in IH. apply IH; [now apply list_elem_of_In|].
      rewrite forallb_forall in He. now apply He. }
    split; [exact He'|].
    destruct (text_of_sequence repr _ He') as [-> _].
    destruct (text_of_sequence repr _ He) as [Hl ->]. rewrite Hl.
    rewrite map_map. do 3 f_equal. apply map_ext_in. intros x Hx.
    rewrite Forall_forall in IH. apply IH; [now apply list_elem_of_In|].
    rewrite forallb_forall in He. now apply He.
  - assert (Hd : forall kv, In kv d ->
                 encodable (canonical_form (snd kv)) = true
                 /\ text_of repr (canonical_form (snd kv)) = text_of repr (snd kv)).
    { intros kv Hkv. rewrite Forall_forall in IH.
      apply IH; [now apply list_elem_of_In|].
      rewrite forallb_forall in He. now apply (He kv). }
    assert (He' : forallb (fun kv => encodable (snd kv))
                    (sorted (map (fun kv => (fst kv, canonical_form (snd kv))) d))
                  = true).
    { apply forallb_forall. intros y Hy. apply list_elem_of_In in Hy.
      rewrite sorted_perm in Hy. apply list_elem_of_In in Hy.
      apply in_map_iff in Hy as (x & <- & Hx). cbn [snd]. now apply Hd. }
    split; [exact He'|].
    rewrite (text_of_dict repr _ He'), (text_of_dict repr _ He).
    rewrite sorted_idempotent, sorted_map, map_map. cbn [fst snd].
    do 3 f_equal. apply map_ext_in. intros kv Hkv.
    apply list_elem_of_In in Hkv. rewrite sorted_perm in Hkv.
    apply list_elem_of_In in Hkv. destruct (Hd kv Hkv) as [_ ->]. reflexivity.
Qed.

(** X3.  The text [encode_canonical] returns can be decoded: reading it as
    the canonical form gives the canonical form of the value (tuples as
    lists, the items of every dict in sorted order), and nothing of the text
    is left over. *)
Theorem encode_canonical_text_decodes (v : value) (text : string) :
  encoded_text repr v = Some text -> decode text = Some (canonical_form v).
Proof.
  intros Ht. pose proof (encoded_text_encodable repr v text Ht) as He.
  rewrite (text_of_encoded repr v He) in Ht. injection Ht as <-.
  now apply decode_text.
Qed.

(** X4.  Two values have the same encoding exactly when they have the same
    canonical form: a value [v'] is encoded to the text of [v] iff it is a
    value the encoder accepts that agrees with [v] up to tuples for lists and
    the insertion order of dicts. *)
Theorem encode_canonical_same_text_iff_same_canonical_form
    (v v' : value) (text : string) :
  encoded_text repr v = Some text ->
  encoded_text repr v' = Some text
  <-> encodable v' = true /\ canonical_form v' = canonical_form v.
Proof.
  intros Ht. pose proof (encoded_text_encodable repr v text Ht) as He.
  rewrite (text_of_encoded repr v He) in Ht. injection Ht as <-.
  split.
  - intros Ht'. pose proof (encoded_text_encodable repr v' _ Ht') as He'.
    split; [exact He'|].
    rewrite (text_of_encoded repr v' He') in Ht'. injection Ht' as Heq.
    pose proof (decode_text repr v He) as H1.
    pose proof (decode_text repr v' He') as H2.
    rewrite Heq in H2. congruence.
  - intros [He' Hcanon]. rewrite (text_of_encoded repr v' He'). f_equal.
    destruct (canonical_form_text v He) as [_ <-].
    destruct (canonical_form_text v' He') as [_ <-].
    now rewrite Hcanon.
Qed.
End CanonicalForm.

(** ** Further properties of the timestamp helpers *)










Section TimestampRoundTrip.
Variable describe_mismatch : value -> string.
Variable repr : value -> string.

End TimestampRoundTrip.

(** ** Properties of the base64 helpers *)

Lemma base64_char_alphabet (n : N) :
  (n < 64)%N -> is_base64_char (base64_char n) = true.
Proof.
  intros Hn.
  assert (Hall : forallb (fun i => is_base64_char (base64_char (N.of_nat i)))
                   (seq 0 64) = true) by (vm_compute; reflexivity).
  rewrite forallb_forall in Hall.
  specialize (Hall (N.to_nat n)). rewrite N2Nat.id in Hall. apply Hall.
  apply in_seq. lia.
Qed.

Lemma base64_char_kept (c : ascii) :
  is_base64_char c = true -> in_chars c stripped_chars = false.
Proof.
  unfold is_base64_char, in_chars. intros H.
  apply existsb_exists in H as [x [Hin Hx]]. apply Ascii.eqb_eq in Hx. subst x.
  revert c Hin.
  assert (Hall : forallb (fun c => negb (in_chars c stripped_chars))
                   (list_ascii_of_string base64_alphabet) = true)
    by (vm_compute; reflexivity).
  rewrite forallb_forall in Hall. intros c Hin.
  apply Hall in Hin. now apply negb_true_iff in Hin.
Qed.

Lemma base64_char_not_continuation (c : ascii) :
  is_base64_char c = true -> is_continuation c = false.
Proof.
  unfold is_base64_char, in_chars. intros H.
  apply existsb_exists in H as [x [Hin Hx]]. apply Ascii.eqb_eq in Hx. subst x.
  revert c Hin.
  assert (Hall : forallb (fun c => negb (is_continuation c))
                   (list_ascii_of_string base64_alphabet) = true)
    by (vm_compute; reflexivity).
  rewrite forallb_forall in Hall. intros c Hin.
  apply Hall in Hin. now apply negb_true_iff in Hin.
Qed.

Lemma rstrip_all (chars s : string) :
  string_forall (fun c => in_chars c chars) s = true -> rstrip chars s = EmptyString.
Proof.
  induction s as [|c s IH]; [reflexivity|].
  unfold string_forall. cbn [list_ascii_of_string forallb rstrip].
  intros H. apply andb_prop in H as [Hc Hs]. rewrite (IH Hs). now rewrite Hc.
Qed.

Lemma rstrip_app (chars body suffix : string) :
  string_forall (fun c => negb (in_chars c chars)) body = true ->
  string_forall (fun c => in_chars c chars) suffix = true ->
  rstrip chars (body +:+ suffix) = body.
Proof.
  intros Hb Hs. induction body as [|c body IH].
  - now apply rstrip_all.
  - unfold string_forall in Hb. cbn [list_ascii_of_string forallb] in Hb.
    apply andb_prop in Hb as [Hc Hb].
    change (String c body +:+ suffix) with (String c (body +:+ suffix)).
    cbn [rstrip]. rewrite (IH Hb).
    destruct body; [|reflexivity].
    apply negb_true_iff in Hc. now rewrite Hc.
Qed.

Lemma py_len_ascii (s : string) :
  string_forall (fun c => negb (is_continuation c)) s = true ->
  py_len s = String.length s.
Proof.
  induction s as [|c s IH]; [reflexivity|].
  unfold string_forall. cbn [list_ascii_of_string forallb py_len String.length].
  intros H. apply andb_prop in H as [Hc Hs]. apply negb_true_iff in Hc.
  rewrite Hc, (IH Hs). reflexivity.
Qed.

Lemma string_forall_impl (P Q : ascii -> bool) (s : string) :
  (forall c, P c = true -> Q c = true) ->
  string_forall P s = true -> string_forall Q s = true.
Proof.
  intros HPQ. unfold string_forall. rewrite !forallb_forall. auto.
Qed.

(** Induction on bytes in groups of three. *)
Lemma bytes_ind3 (P : bytes -> Prop) :
  P [] -> (forall a, P [a]) -> (forall a b, P [a; b]) ->
  (forall a b c rest, P rest -> P (a :: b :: c :: rest)) ->
  forall data, P data.
Proof.
  intros H0 H1 H2 H3.
  fix IH 1. intros [|a [|b [|c rest]]].
  - exact H0.
  - exact (H1 a).
  - exact (H2 a b).
  - exact (H3 a b c rest (IH rest)).
Qed.

Lemma sextets_bounded (a b : Byte.byte) :
  (Byte.to_N a / 4 < 64 /\ Byte.to_N a mod 4 * 16 < 64
   /\ Byte.to_N a mod 4 * 16 + Byte.to_N b / 16 < 64
   /\ Byte.to_N a mod 16 * 4 < 64
   /\ Byte.to_N a mod 16 * 4 + Byte.to_N b / 64 < 64
   /\ Byte.to_N a mod 64 < 64)%N.
Proof.
  pose proof (Byte.to_N_bounded a) as Ha. pose proof (Byte.to_N_bounded b) as Hb.
  assert (Byte.to_N a / 4 < 64)%N by (apply N.Div0.div_lt_upper_bound; lia).
  assert (Byte.to_N b / 16 < 16)%N by (apply N.Div0.div_lt_upper_bound; lia).
  assert (Byte.to_N b / 64 < 4)%N by (apply N.Div0.div_lt_upper_bound; lia).
  pose proof (N.mod_upper_bound (Byte.to_N a) 4 ltac:(lia)).
  pose proof (N.mod_upper_bound (Byte.to_N a) 16 ltac:(lia)).
  pose proof (N.mod_upper_bound (Byte.to_N a) 64 ltac:(lia)).
  lia.
Qed.

(** The shape of the standard encoding: characters of the alphabet, then the
    equal signs that fill the last group. *)
Lemma base64_encode_shape (data : bytes) :
  exists body : string,
    base64_encode data
    = body +:+ str_repeat "="%char ((4 - String.length body mod 4) mod 4)
    /\ string_forall is_base64_char body = true
    /\ String.length body = ((4 * length data + 2) / 3)%nat.
Proof.
  induction data as [|a|a b|a b c rest IH] using bytes_ind3.
  - exists EmptyString. repeat split; reflexivity.
  - destruct (sextets_bounded a a) as (H1 & H2 & _).
    exists (String (base64_char (Byte.to_N a / 4))
              (String (base64_char (Byte.to_N a mod 4 * 16)) EmptyString)).
    repeat split; try reflexivity.
    unfold string_forall. cbn [list_ascii_of_string forallb].
    now rewrite !base64_char_alphabet.
  - destruct (sextets_bounded a b) as (H1 & _ & H2 & _).
    destruct (sextets_bounded b b) as (_ & _ & _ & H3 & _).
    exists (String (base64_char (Byte.to_N a / 4))
              (String (base64_char (Byte.to_N a mod 4 * 16 + Byte.to_N b / 16))
                 (String (base64_char (Byte.to_N b mod 16 * 4)) EmptyString))).
    repeat split; try reflexivity.
    unfold string_forall. cbn [list_ascii_of_string forallb].
    now rewrite !base64_char_alphabet.
  - destruct IH as (body & Henc & Hall & Hlen).
    destruct (sextets_bounded a b) as (H1 & _ & H2 & _).
    destruct (sextets_bounded b c) as (_ & _ & _ & _ & H3 & _).
    destruct (sextets_bounded c c) as (_ & _ & _ & _ & _ & H4).
    exists (String (base64_char (Byte.to_N a / 4))
              (String (base64_char (Byte.to_N a mod 4 * 16 + Byte.to_N b / 16))
                 (String (base64_char (Byte.to_N b mod 16 * 4 + Byte.to_N c / 64))
                    (String (base64_char (Byte.to_N c mod 64)) body)))).
    split; [|split].
    + change (base64_encode (a :: b :: c :: rest))
        with (String (base64_char (Byte.to_N a / 4))
              (String (base64_char (Byte.to_N a mod 4 * 16 + Byte.to_N b / 16))
                 (String (base64_char (Byte.to_N b mod 16 * 4 + Byte.to_N c / 64))
                    (String (base64_char (Byte.to_N c mod 64)) (base64_encode rest))))).
      rewrite Henc. cbn [String.length].
      replace ((S (S (S (S (String.length body))))) mod 4)%nat
        with (String.length body mod 4)%nat.
      * reflexivity.
      * change (S (S (S (S (String.length body))))) with (4 + String.length body)%nat.
        rewrite <- (Nat.Div0.add_mod_idemp_l 4). reflexivity.
    + unfold string_forall in *. cbn [list_ascii_of_string forallb].
      now rewrite !base64_char_alphabet, Hall.
    + cbn [String.length length]. rewrite Hlen.
      replace (4 * S (S (S (length rest))) + 2)%nat
        with ((4 * length rest + 2) + 4 * 3)%nat by lia.
      rewrite Nat.div_add by lia. lia.
Qed.

Lemma str_repeat_stripped (k : nat) :
  string_forall (fun c => in_chars c stripped_chars)
    (str_repeat "="%char k +:+ char newline) = true.
Proof.
  induction k as [|k IH]; [reflexivity|].
  change (str_repeat "="%char (S k) +:+ char newline)
    with (String "="%char (str_repeat "="%char k +:+ char newline)).
  unfold string_forall in *. cbn [list_ascii_of_string forallb]. now rewrite IH.
Qed.

Lemma format_base64_run (object_buffer : value -> result bytes)
    (data : value) (b : bytes) :
  get_buffer object_buffer data = Return b ->
  exists body : string,
    format_base64 object_buffer data = Return body
    /\ base64_encode b
       = body +:+ str_repeat "="%char ((4 - String.length body mod 4) mod 4)
    /\ string_forall is_base64_char body = true
    /\ String.length body = ((4 * length b + 2) / 3)%nat.
Proof.
  intros Hbuf.
  destruct (base64_encode_shape b) as (body & Henc & Hall & Hlen).
  exists body. split; [|auto].
  unfold format_base64, b2a_base64, decode_utf8, encode_utf8. rewrite Hbuf.
  rewrite string_of_list_byte_of_string. f_equal.
  rewrite Henc.
  rewrite string_app_assoc.
  apply rstrip_app.
  - revert Hall. apply string_forall_impl. intros c Hc.
    apply negb_true_iff. exact (base64_char_kept c Hc).
  - exact (str_repeat_stripped _).
Qed.

(** X6.  For a bytes-like object, [bytes] or an object of another type that
    gives a buffer (a bytearray, a memoryview), [format_base64] returns the
    standard base64 encoding of its bytes without the padding: the standard
    encoding is the result followed by the equal signs that fill it up to a
    multiple of four characters, every character of the result is of the
    base64 alphabet (so none is an equal sign or whitespace), and [n] bytes
    give [(4 n + 2) / 3] characters, rounded down.  Text, a number, [None], a
    list, a tuple or a dict raises a FormatError; for an object that gives no
    buffer the TypeError of asking for one becomes a FormatError, and another
    exception of asking passes as it is. *)
Theorem format_base64_strips_padding (object_buffer : value -> result bytes)
    (data : value) :
  match get_buffer object_buffer data with
  | Return b =>
      exists text : string,
        format_base64 object_buffer data = Return text
        /\ base64_encode b
           = text +:+ str_repeat "="%char ((4 - String.length text mod 4) mod 4)
        /\ string_forall is_base64_char text = true
        /\ String.length text = ((4 * length b + 2) / 3)%nat
  | Raise e => format_base64 object_buffer data = Raise (base64_handler e)
  end
  /\ match data with
     | VBytes b => get_buffer object_buffer data = Return b
     | VObject _ _ => get_buffer object_buffer data = object_buffer data
     | _ =>
         exists message : string,
           format_base64 object_buffer data
           = Raise (Exn FormatError message None)
     end.
Proof.
  split.
  - destruct (get_buffer object_buffer data) as [b|e] eqn:Hbuf.
    + now apply format_base64_run.
    + unfold format_base64, b2a_base64. now rewrite Hbuf.
  - destruct data; try reflexivity; eexists; reflexivity.
Qed.

Lemma pad_arith (n : nat) :
  ((n + (4 - n mod 4) mod 4) mod 4 = 0)%nat.
Proof.
  pose proof (Nat.mod_upper_bound n 4 ltac:(lia)) as Hb.
  rewrite <- Nat.Div0.add_mod_idemp_l.
  destruct (n mod 4)%nat as [|[|[|[|?]]]]; try reflexivity. lia.
Qed.

Lemma py_len_app (s t : string) : py_len (s +:+ t) = (py_len s + py_len t)%nat.
Proof.
  induction s as [|c s IH]; [reflexivity|].
  change (String c s +:+ t) with (String c (s +:+ t)). cbn [py_len].
  rewrite IH. lia.
Qed.

Lemma py_len_pad (k : nat) : py_len (str_repeat "="%char k) = k.
Proof. induction k as [|k IH]; [reflexivity|]. cbn [str_repeat py_len]. now rewrite IH. Qed.

Lemma parse_base64_run (repr : value -> string)
    (a2b_base64 : bytes -> result bytes) (s : string) :
  parse_base64 repr a2b_base64 (VStr s)
  = match a2b_base64
            (encode_utf8 (s +:+ str_repeat "="%char ((4 - py_len s mod 4) mod 4)))
    with
    | Return b => Return b
    | Raise e => Raise (base64_handler e)
    end.
Proof.
  unfold parse_base64.
  pose proof (Nat.mod_upper_bound (py_len s) 4 ltac:(lia)) as Hb.
  destruct (Nat.eqb_spec (py_len s mod 4) 0) as [H0|Hn].
  - rewrite H0. change ((4 - 0) mod 4)%nat with 0%nat. cbn [str_repeat].
    now rewrite string_app_nil_r.
  - rewrite (Nat.mod_small (4 - py_len s mod 4) 4) by lia. reflexivity.
Qed.

(** X7.  For a text, [parse_base64] hands the decoder of the standard library
    the text followed by equal signs up to the next multiple of four
    characters, and the text itself when its length is one already; what the
    decoder returns is returned, and its TypeError or binascii.Error becomes a
    FormatError.  A value that is not text raises a FormatError that shows the
    value. *)
Theorem parse_base64_pads_to_multiple_of_four (repr : value -> string)
    (a2b_base64 : bytes -> result bytes) (base64_string : value) :
  match base64_string with
  | VStr s =>
      exists padded : string,
        padded = s +:+ str_repeat "="%char ((4 - py_len s mod 4) mod 4)
        /\ (py_len padded mod 4 = 0)%nat
        /\ ((py_len s mod 4 = 0)%nat -> padded = s)
        /\ parse_base64 repr a2b_base64 base64_string
           = match a2b_base64 (encode_utf8 padded) with
             | Return b => Return b
             | Raise e => Raise (base64_handler e)
             end
  | _ =>
      parse_base64 repr a2b_base64 base64_string
      = Raise (Exn FormatError ("Invalid argument: " +:+ repr base64_string) None)
  end.
Proof.
  destruct base64_string; try reflexivity.
  eexists. split; [reflexivity|]. split; [|split].
  - rewrite py_len_app, py_len_pad. apply pad_arith.
  - intros ->. change ((4 - 0) mod 4)%nat with 0%nat. apply string_app_nil_r.
  - apply parse_base64_run.
Qed.

(** X8.  [parse_base64] undoes the stripping of [format_base64]: for the
    result of [format_base64] on bytes, the decoder of the standard library
    is handed exactly the standard padded encoding of these bytes. *)
Theorem parse_base64_after_format_base64 (repr : value -> string)
    (object_buffer : value -> result bytes)
    (a2b_base64 : bytes -> result bytes) (data : bytes) :
  exists text : string,
    format_base64 object_buffer (VBytes data) = Return text
    /\ parse_base64 repr a2b_base64 (VStr text)
       = match a2b_base64 (encode_utf8 (base64_encode data)) with
         | Return b => Return b
         | Raise e => Raise (base64_handler e)
         end.
Proof.
  destruct (format_base64_run object_buffer (VBytes data) data eq_refl)
    as (text & Hfmt & Henc & Hall & _).
  exists text. split; [exact Hfmt|].
  rewrite parse_base64_run, Henc.
  rewrite (py_len_ascii text); [reflexivity|].
  revert Hall. apply string_forall_impl. intros c Hc.
  now rewrite (base64_char_not_continuation c Hc).
Qed.

(** ** Further properties of the keys *)

(** *** Building a key *)

Lemma alloc_run (d : pydict) (h : heap) :
  exists l : loc, alloc d h = (<[l := d]> h, Return l) /\ h !! l = None.
Proof.
  exists (fresh (dom h)). split; [reflexivity|].
  apply not_elem_of_dom. apply is_fresh.
Qed.

Lemma Key_init_run (i kt sch : string) (kv : pydict) (h : heap) :
  exists l : loc,
    Key.__init__ (VStr i) (VStr kt) (VStr sch) (VDict kv) None h
    = (<[l := []]> h, Return (Key.mk i kt sch kv l))
    /\ h !! l = None.
Proof.
  destruct (alloc_run [] h) as (l & Hrun & Hfresh).
  exists l. split; [|exact Hfresh].
  cbn [Key.__init__]. now erewrite bind_run by exact Hrun.
Qed.

Lemma Key_init_raises (keyid keytype scheme keyval : value)
    (unrecognized_fields : option loc) (h : heap) :
  (forall i kt sch kv,
      (keyid, keytype, scheme, keyval) <> (VStr i, VStr kt, VStr sch, VDict kv)) ->
  Key.__init__ keyid keytype scheme keyval unrecognized_fields h
  = (h, Raise (Exn TypeError "Unexpected Key attributes types!" None)).
Proof.
  intros Hne.
  destruct keyid; try reflexivity.
  destruct keytype; try reflexivity.
  destruct scheme; try reflexivity.
  destruct keyval; try reflexivity.
  exfalso. eapply Hne. reflexivity.
Qed.

Lemma Key_init_cases
    (keyid keytype scheme keyval : value) (h : heap) :
  match Key.__init__ keyid keytype scheme keyval None h with
  | (h', Return key) =>
      keyid = VStr (Key.keyid key)
      /\ keytype = VStr (Key.keytype key)
      /\ scheme = VStr (Key.scheme key)
      /\ keyval = VDict (Key.keyval key)
      /\ h !! Key.unrecognized_fields key = None
      /\ h' = <[Key.unrecognized_fields key := []]> h
  | (h', Raise e) =>
      h' = h /\ exn_cls e = TypeError
      /\ forall i kt sch kv,
           (keyid, keytype, scheme, keyval)
           <> (VStr i, VStr kt, VStr sch, VDict kv)
  end.
Proof.
  destruct keyid; try (repeat split; congruence).
  destruct keytype; try (repeat split; congruence).
  destruct scheme; try (repeat split; congruence).
  destruct keyval; try (repeat split; congruence).
  destruct (Key_init_run s s0 s1 d h) as (l & -> & Hfresh).
  repeat split. exact Hfresh.
Qed.

(** X9.  A key built without [unrecognized_fields] gets a new empty dict of
    its own: no object of the store before the call is that dict, so no two
    keys share it, and nothing else of the store changes.  The constructor
    returns exactly when keyid, keytype and scheme are text and keyval is a
    dict, with these as the attributes; otherwise it raises a TypeError and
    allocates nothing. *)
Theorem key_init_default_dict_is_fresh
    (keyid keytype scheme keyval : value) (h : heap) :
  match Key.__init__ keyid keytype scheme keyval None h with
  | (h', Return key) =>
      keyid = VStr (Key.keyid key)
      /\ keytype = VStr (Key.keytype key)
      /\ scheme = VStr (Key.scheme key)
      /\ keyval = VDict (Key.keyval key)
      /\ h !! Key.unrecognized_fields key = None
      /\ h' = <[Key.unrecognized_fields key := []]> h
  | (h', Raise e) =>
      h' = h /\ exn_cls e = TypeError
      /\ forall i kt sch kv,
           (keyid, keytype, scheme, keyval)
           <> (VStr i, VStr kt, VStr sch, VDict kv)
  end.
Proof. apply Key_init_cases. Qed.

(** *** Serialising *)

Lemma dict_set_keys (d : pydict) (k : string) (v : value) :
  map fst (dict_set d k v)
  = if bool_decide (k ∈ map fst d) then map fst d else map fst d ++ [k].
Proof.
  induction d as [|[k1 v1] d IH].
  - cbn. rewrite bool_decide_eq_false_2; [reflexivity|]. apply not_elem_of_nil.
  - cbn [dict_set]. destruct (String.eqb_spec k1 k) as [->|Hne].
    + cbn [map fst]. rewrite bool_decide_eq_true_2; [reflexivity|]. apply elem_of_cons; auto.
    + cbn [map fst]. rewrite IH.
      destruct (decide (k ∈ map fst d)) as [Hin|Hin].
      * rewrite !bool_decide_eq_true_2; [reflexivity| |assumption].
        apply elem_of_cons; auto.
      * rewrite !bool_decide_eq_false_2; [reflexivity| |assumption].
        rewrite elem_of_cons. intros [?|?]; congruence.
Qed.

Lemma dict_set_NoDup (d : pydict) (k : string) (v : value) :
  NoDup (map fst d) -> NoDup (map fst (dict_set d k v)).
Proof.
  intros Hnd. rewrite dict_set_keys.
  destruct (decide (k ∈ map fst d)) as [Hin|Hin].
  - now rewrite bool_decide_eq_true_2.
  - rewrite bool_decide_eq_false_2 by assumption.
    apply NoDup_app. split; [exact Hnd|]. split.
    + intros x Hx Hx'. apply list_elem_of_singleton in Hx'. congruence.
    + apply NoDup_singleton.
Qed.

Lemma dict_update_NoDup (base extra : pydict) :
  NoDup (map fst base) -> NoDup (map fst (dict_update base extra)).
Proof.
  unfold dict_update. revert base.
  induction extra as [|[k v] extra IH]; intros base Hnd; [exact Hnd|].
  cbn [foldl fst snd]. apply IH. now apply dict_set_NoDup.
Qed.

Lemma dict_set_new (d : pydict) (k : string) (v : value) :
  k ∉ map fst d -> dict_set d k v = d ++ [(k, v)].
Proof.
  induction d as [|[k1 v1] d IH]; [reflexivity|].
  cbn [map fst]. intros Hk. apply not_elem_of_cons in Hk as [Hne Hk].
  cbn [dict_set]. destruct (String.eqb_spec k1 k); [congruence|].
  now rewrite (IH Hk).
Qed.

Lemma dict_update_disjoint (base extra : pydict) :
  NoDup (map fst extra) ->
  (forall k, k ∈ map fst extra -> k ∉ map fst base) ->
  dict_update base extra = base ++ extra.
Proof.
  unfold dict_update. revert base.
  induction extra as [|[k v] extra IH]; intros base Hnd Hdis.
  - now rewrite app_nil_r.
  - cbn [map fst] in Hnd. apply NoDup_cons in Hnd as [Hk Hnd].
    cbn [foldl fst snd].
    rewrite dict_set_new by (apply Hdis; cbn; apply elem_of_cons; auto).
    rewrite IH; [now rewrite <- app_assoc|exact Hnd|].
    intros k' Hk'. rewrite map_app. cbn [map fst].
    rewrite elem_of_app, list_elem_of_singleton. intros [Hb| ->].
    + revert Hb. apply Hdis. cbn. apply elem_of_cons; auto.
    + contradiction.
Qed.

Lemma Key_to_dict_run (self : Key.t) (h : heap) (u : pydict) :
  h !! Key.unrecognized_fields self = Some u ->
  SSlibKey.to_dict self h
  = (h, Return (dict_update
                  [("keytype", VStr (Key.keytype self));
                   ("scheme", VStr (Key.scheme self));
                   ("keyval", VDict (Key.keyval self))] u)).
Proof.
  intros Hu. unfold SSlibKey.to_dict, Key._to_dict.
  now erewrite bind_run by (apply deref_run; exact Hu).
Qed.

(** X10.  [to_dict] does not change the store, its result has pairwise
    different keys, and under every name it holds the unrecognized field of
    that name if there is one, and else the attribute keytype, scheme or
    keyval: an unrecognized field named like a base field overrides the
    attribute. *)
Theorem to_dict_unrecognized_field_overrides (self : Key.t) (h : heap) (u : pydict) :
  h !! Key.unrecognized_fields self = Some u ->
  NoDup (map fst u) ->
  exists out : pydict,
    SSlibKey.to_dict self h = (h, Return out)
    /\ NoDup (map fst out)
    /\ forall k : string,
         dict_get out k
         = match dict_get u k with
           | Some v => Some v
           | None =>
               if String.eqb k "keytype" then Some (VStr (Key.keytype self))
               else if String.eqb k "scheme" then Some (VStr (Key.scheme self))
               else if String.eqb k "keyval" then Some (VDict (Key.keyval self))
               else None
           end.
Proof.
  intros Hu Hnd. eexists. split; [apply Key_to_dict_run; exact Hu|]. split.
  - apply dict_update_NoDup. cbn [map fst].
    apply (bool_decide_unpack _). vm_compute. exact I.
  - intros k. rewrite dict_get_update by exact Hnd.
    destruct (dict_get u k); [reflexivity|]. cbn [dict_get].
    rewrite (String.eqb_sym k "keytype"), (String.eqb_sym k "scheme"),
      (String.eqb_sym k "keyval"). reflexivity.
Qed.

(** *** Deserialising *)

Lemma dict_pop_raise (h : heap) (l : loc) (d : pydict) (k : string) :
  h !! l = Some d -> dict_get d k = None ->
  dict_pop l k h = (h, Raise (Exn KeyError k None)).
Proof.
  intros Hl Hk. unfold dict_pop.
  erewrite bind_run by (apply deref_run; exact Hl).
  now rewrite Hk.
Qed.

(** Every way [SSlibKey.from_dict] runs on a dict object. *)
Lemma SSlibKey_from_dict_cases (repr : value -> string) (keyid : string)
    (l : loc) (h : heap) (D : pydict) :
  h !! l = Some D ->
  SSlibKey.from_dict repr keyid l h
  = match dict_get D "keytype" with
    | None => (h, Raise (Exn KeyError "keytype" None))
    | Some kt =>
        match dict_get D "scheme" with
        | None =>
            (<[l := dict_remove D "keytype"]> h,
             Raise (Exn KeyError "scheme" None))
        | Some sch =>
            match dict_get D "keyval" with
            | None =>
                (<[l := dict_remove (dict_remove D "keytype") "scheme"]> h,
                 Raise (Exn KeyError "keyval" None))
            | Some kv =>
                let h' := <[l := unrecognized_of D]> h in
                match SSlibKey.public_missing kv with
                | Raise e => (h', Raise e)
                | Return true =>
                    (h', Raise (Exn ValueError
                                  ("public key string required for scheme "
                                     +:+ py_str repr sch) None))
                | Return false =>
                    Key.__init__ (VStr keyid) kt sch kv (Some l) h'
                end
            end
        end
    end.
Proof.
  intros Hobj. unfold SSlibKey.from_dict, Key._from_dict.
  rewrite bind_assoc.
  destruct (dict_get D "keytype") as [kt|] eqn:Hkt.
  2:{ erewrite bind_raise; [reflexivity|].
      apply (dict_pop_raise h l D); [exact Hobj | exact Hkt]. }
  erewrite bind_run by (apply dict_pop_run; [exact Hobj | exact Hkt]).
  rewrite bind_assoc.
  destruct (dict_get D "scheme") as [sch|] eqn:Hsch.
  2:{ erewrite bind_raise; [reflexivity|].
      eapply dict_pop_raise; [apply lookup_insert_eq|].
      rewrite dict_get_remove_ne by discriminate. exact Hsch. }
  erewrite bind_run.
  2:{ apply dict_pop_run; [apply lookup_insert_eq|].
      rewrite dict_get_remove_ne by discriminate. exact Hsch. }
  rewrite bind_assoc. rewrite insert_insert_eq.
  destruct (dict_get D "keyval") as [kv|] eqn:Hkv.
  2:{ erewrite bind_raise; [reflexivity|].
      eapply dict_pop_raise; [apply lookup_insert_eq|].
      rewrite !dict_get_remove_ne by discriminate. exact Hkv. }
  erewrite bind_run.
  2:{ apply dict_pop_run; [apply lookup_insert_eq|].
      rewrite !dict_get_remove_ne by discriminate. exact Hkv. }
  rewrite insert_insert_eq.
  erewrite bind_run by reflexivity.
  cbn iota beta zeta. unfold lift at 1. fold (unrecognized_of D).
  destruct (SSlibKey.public_missing kv) as [[|]|e].
  - erewrite bind_run by reflexivity. reflexivity.
  - erewrite bind_run by reflexivity. reflexivity.
  - erewrite bind_raise by reflexivity. reflexivity.
Qed.

(** X11.  [SSlibKey.from_dict] returns a key exactly for the dicts that hold a
    text under keytype, a text under scheme, and under keyval a dict with a
    text under public. *)
Theorem sslibkey_from_dict_returns_iff (repr : value -> string) (keyid : string)
    (l : loc) (h : heap) (D : pydict) :
  h !! l = Some D ->
  (exists (h' : heap) (key : Key.t),
      SSlibKey.from_dict repr keyid l h = (h', Return key))
  <-> (exists (kt sch pub : string) (kv : pydict),
          dict_get D "keytype" = Some (VStr kt)
          /\ dict_get D "scheme" = Some (VStr sch)
          /\ dict_get D "keyval" = Some (VDict kv)
          /\ dict_get kv "public" = Some (VStr pub)).
Proof.
  intros Hobj. split.
  - intros (h' & key & Hrun).
    rewrite (SSlibKey_from_dict_cases repr keyid l h D Hobj) in Hrun.
    destruct (dict_get D "keytype") as [kt|]; [|discriminate].
    destruct (dict_get D "scheme") as [sch|]; [|discriminate].
    destruct (dict_get D "keyval") as [kv|]; [|discriminate].
    cbv zeta in Hrun.
    destruct (SSlibKey.public_missing kv) as [[|]|e] eqn:Hpub; try discriminate.
    destruct kt; try discriminate. destruct sch; try discriminate.
    destruct kv as [| | | | | | | |kv|]; try discriminate.
    cbn [SSlibKey.public_missing] in Hpub.
    destruct (dict_get kv "public") as [[pub| | | | | | | | |]|] eqn:Hp;
      try discriminate.
    now exists s, s0, pub, kv.
  - intros (kt & sch & pub & kv & Hkt & Hsch & Hkv & Hpub).
    eexists _, _. now apply (SSlibKey_from_dict_run repr h l D keyid kt sch pub kv).
Qed.

(** X12.  A call of [SSlibKey.from_dict] that fails has still popped what it
    popped.  On a dict with a keytype and no scheme it raises a KeyError for
    scheme and the dict of the caller has lost its keytype; on a dict with
    all three base fields whose keyval is a dict without a text under public
    it raises a ValueError and the dict of the caller is left with its
    unrecognized fields only. *)
Theorem sslibkey_from_dict_failure_keeps_pops (repr : value -> string)
    (keyid : string) (l : loc) (h : heap) (D : pydict) (kt : value) :
  h !! l = Some D ->
  dict_get D "keytype" = Some kt ->
  (dict_get D "scheme" = None ->
   SSlibKey.from_dict repr keyid l h
   = (<[l := dict_remove D "keytype"]> h, Raise (Exn KeyError "scheme" None)))
  /\ (forall (sch : value) (kv : pydict),
        dict_get D "scheme" = Some sch ->
        dict_get D "keyval" = Some (VDict kv) ->
        (forall pub : string, dict_get kv "public" <> Some (VStr pub)) ->
        SSlibKey.from_dict repr keyid l h
        = (<[l := unrecognized_of D]> h,
           Raise (Exn ValueError
                    ("public key string required for scheme "
                       +:+ py_str repr sch) None))).
Proof.
  intros Hobj Hkt. rewrite (SSlibKey_from_dict_cases repr keyid l h D Hobj), Hkt.
  split.
  - intros ->. reflexivity.
  - intros sch kv -> -> Hpub. cbv zeta. cbn [SSlibKey.public_missing].
    destruct (dict_get kv "public") as [[pub| | | | | | | | |]|]; try reflexivity.
    now destruct (Hpub pub).
Qed.

Lemma unrecognized_of_base (kt sch kv : value) (u : pydict) :
  unrecognized_of (("keytype", kt) :: ("scheme", sch) :: ("keyval", kv) :: u) = u.
Proof. reflexivity. Qed.

(** X13.  For a key with a public key text whose unrecognized fields (with
    pairwise different names) have no name of a base field, [from_dict] on a
    dict object holding the result of [to_dict] returns a key with the same
    keyid, keytype, scheme and keyval, and leaves in that dict object exactly
    the unrecognized fields of the original key, in their order. *)
Theorem sslibkey_from_dict_after_to_dict (repr : value -> string) (self : Key.t)
    (h : heap) (u : pydict) (pub : string) :
  h !! Key.unrecognized_fields self = Some u ->
  NoDup (map fst u) ->
  forallb (fun kv => negb (in_list (fst kv) base_fields)) u = true ->
  dict_get (Key.keyval self) "public" = Some (VStr pub) ->
  exists out : pydict,
    SSlibKey.to_dict self h = (h, Return out)
    /\ forall (key_dict : loc) (h1 : heap),
         h1 !! key_dict = Some out ->
         SSlibKey.from_dict repr (Key.keyid self) key_dict h1
         = (<[key_dict := u]> h1,
            Return (Key.mk (Key.keyid self) (Key.keytype self) (Key.scheme self)
                      (Key.keyval self) key_dict)).
Proof.
  intros Hu Hnd Hbase Hpub. eexists. split; [apply Key_to_dict_run; exact Hu|].
  intros key_dict h1 Hout.
  rewrite dict_update_disjoint in Hout.
  2: exact Hnd.
  2:{ intros k Hk Hb. apply list_elem_of_In, in_map_iff in Hk as (kv & <- & Hkv).
      rewrite forallb_forall in Hbase. specialize (Hbase kv Hkv).
      apply negb_true_iff in Hbase. unfold in_list in Hbase.
      assert (Hin : existsb (String.eqb (fst kv)) base_fields = true);
        [|congruence].
      apply existsb_exists. exists (fst kv). split; [|apply String.eqb_refl].
      now apply list_elem_of_In. }
  erewrite (SSlibKey_from_dict_run repr h1 key_dict _ (Key.keyid self)
              (Key.keytype self) (Key.scheme self) pub (Key.keyval self) Hout);
    try reflexivity; try exact Hpub.
Qed.

(** *** The classic key dict *)

Section ClassicKeyDict.
Variable CRYPTO_IMPORT_ERROR : option string.
Variable checkvalid : bytes -> bytes -> bytes -> result unit.
Variable PublicKey : Type.
Variable load_pem_public_key : bytes -> result PublicKey.
Variable from_public_bytes : bytes -> result PublicKey.
Variable verify : PublicKey -> bytes -> bytes -> verify_arguments -> result unit.

Local Abbreviation verify_signature :=
  (SSlibKey.verify_signature CRYPTO_IMPORT_ERROR checkvalid PublicKey
     load_pem_public_key from_public_bytes verify).

(** What [verify_signature] reads of a key. *)
Lemma verify_signature_reads (self other : Key.t) (signature : Signature.t)
    (data : bytes) (log : list event) :
  Key.keyid self = Key.keyid other ->
  Key.scheme self = Key.scheme other ->
  dict_get (Key.keyval self) "public" = dict_get (Key.keyval other) "public" ->
  verify_signature self signature data log
  = verify_signature other signature data log.
Proof.
  intros Hid Hsch Hpub.
  unfold SSlibKey.verify_signature, SSlibKey._from_pem, SSlibKey.keyval_public,
    SSlibKey.handlers.
  rewrite Hid, Hsch, Hpub. reflexivity.
Qed.

(** X17.  [verify_signature] reads of the key its keyid, its scheme and the
    public key of its keyval only: two keys that agree on these give the same
    result and the same calls for every signature and payload, whatever
    their keytype, their other keyval items and their unrecognized fields. *)
Theorem verify_signature_reads_keyid_scheme_public (self other : Key.t)
    (signature : Signature.t) (data : bytes) (log : list event) :
  Key.keyid self = Key.keyid other ->
  Key.scheme self = Key.scheme other ->
  dict_get (Key.keyval self) "public" = dict_get (Key.keyval other) "public" ->
  verify_signature self signature data log
  = verify_signature other signature data log.
Proof.
  intros Hid Hsch Hpub. now apply verify_signature_reads.
Qed.

Lemma from_securesystemslib_key_run (key_dict : pydict) (h : heap)
    (i kt sch : string) (kv : pydict) (pub : value) :
  dict_get key_dict "keyid" = Some (VStr i) ->
  dict_get key_dict "keytype" = Some (VStr kt) ->
  dict_get key_dict "scheme" = Some (VStr sch) ->
  dict_get key_dict "keyval" = Some (VDict kv) ->
  dict_get kv "public" = Some pub ->
  exists l : loc,
    SSlibKey.from_securesystemslib_key key_dict h
    = (<[l := []]> h, Return (Key.mk i kt sch [("public", pub)] l))
    /\ h !! l = None.
Proof.
  intros Hi Hkt Hsch Hkv Hpub.
  destruct (Key_init_run i kt sch [("public", pub)] h) as (l & Hrun & Hfresh).
  exists l. split; [|exact Hfresh].
  unfold SSlibKey.from_securesystemslib_key, dict_getitem.
  rewrite Hi, Hkt, Hsch, Hkv. unfold lift, bind.
  cbn [getitem]. unfold dict_getitem. rewrite Hpub. exact Hrun.
Qed.

(** X14.  The keyval of a key built by [from_securesystemslib_key] has one
    item, the public key of the classic key dict: a private key in the
    keyval of the dict is not taken over.  The keyid, keytype and scheme are
    those of the dict, the unrecognized fields are a new empty dict, and the
    dict passed in is only read.  When a field is missing or of the wrong
    type the call raises a KeyError or a TypeError and the store is as
    before. *)
Theorem from_securesystemslib_key_keeps_public_only (key_dict : pydict) (h : heap) :
  match SSlibKey.from_securesystemslib_key key_dict h with
  | (h', Return key) =>
      dict_get key_dict "keyid" = Some (VStr (Key.keyid key))
      /\ dict_get key_dict "keytype" = Some (VStr (Key.keytype key))
      /\ dict_get key_dict "scheme" = Some (VStr (Key.scheme key))
      /\ (exists (kv : pydict) (pub : value),
             dict_get key_dict "keyval" = Some (VDict kv)
             /\ dict_get kv "public" = Some pub
             /\ Key.keyval key = [("public", pub)])
      /\ h !! Key.unrecognized_fields key = None
      /\ h' = <[Key.unrecognized_fields key := []]> h
  | (h', Raise e) =>
      h' = h /\ (exn_cls e = KeyError \/ exn_cls e = TypeError)
  end.
Proof.
  unfold SSlibKey.from_securesystemslib_key, dict_getitem.
  destruct (dict_get key_dict "keyid") as [i|]; [|cbn; auto].
  destruct (dict_get key_dict "keytype") as [kt|]; [|cbn; auto].
  destruct (dict_get key_dict "scheme") as [sch|]; [|cbn; auto].
  destruct (dict_get key_dict "keyval") as [keyval|]; [|cbn; auto].
  unfold lift at 1 2 3 4. unfold bind at 1 2 3 4.
  destruct keyval as [| | | | | | | |kv|]; try (cbn; auto; fail).
  cbn [getitem]. unfold dict_getitem.
  destruct (dict_get kv "public") as [pub|] eqn:Hpub; [|cbn; auto].
  unfold lift, bind at 1.
  pose proof (Key_init_cases i kt sch (VDict [("public", pub)]) h)
    as Hinit.
  destruct (Key.__init__ i kt sch (VDict [("public", pub)]) None h)
    as [h' [key|e]].
  - destruct Hinit as (-> & -> & -> & [= Hkv] & Hfresh & ->).
    repeat split; try assumption. exists kv, pub. auto.
  - destruct Hinit as (-> & -> & _). auto.
Qed.

(** X15.  Converting a key with a public key to the classic key dict and back
    keeps keyid, keytype and scheme, reduces keyval to its public key, drops
    the unrecognized fields, and does not change the outcome of
    [verify_signature] for any signature, payload and provider. *)
Theorem securesystemslib_key_round_trip (self : Key.t) (h : heap) (pub : value) :
  dict_get (Key.keyval self) "public" = Some pub ->
  exists (h' : heap) (key : Key.t),
    SSlibKey.from_securesystemslib_key (SSlibKey.to_securesystemslib_key self) h
    = (h', Return key)
    /\ Key.keyid key = Key.keyid self
    /\ Key.keytype key = Key.keytype self
    /\ Key.scheme key = Key.scheme self
    /\ Key.keyval key = [("public", pub)]
    /\ h' !! Key.unrecognized_fields key = Some []
    /\ forall (signature : Signature.t) (data : bytes) (log : list event),
         verify_signature key signature data log
         = verify_signature self signature data log.
Proof.
  intros Hpub.
  destruct (from_securesystemslib_key_run (SSlibKey.to_securesystemslib_key self) h
              (Key.keyid self) (Key.keytype self) (Key.scheme self)
              (Key.keyval self) pub) as (l & Hrun & Hfresh);
    try reflexivity; try exact Hpub.
  eexists _, _. split; [exact Hrun|]. cbn [Key.keyid Key.keytype Key.scheme Key.keyval Key.unrecognized_fields].
  repeat split; [apply lookup_insert_eq|].
  intros signature data log. apply verify_signature_reads; try reflexivity.
  cbn [Key.keyval dict_get String.eqb Ascii.eqb Bool.eqb]. now rewrite Hpub.
Qed.
End ClassicKeyDict.

(** *** The dispatch of [Key.from_dict] *)

(** X16.  [Key.from_dict] looks a missing keytype or scheme up as [None]: a
    dict in which both are absent or [None] goes to the implementation
    registered under the pair of two [None], which gets the dict untouched,
    and raises a ValueError that leaves the store as it was when there is
    none. *)
Theorem key_from_dict_missing_field_is_none
    (repr : value -> string)
    (KEY_FOR_TYPE_AND_SCHEME : gmap (option string * option string) Key.key_impl)
    (keyid : string) (key_dict : loc) (h : heap) (D : pydict) :
  h !! key_dict = Some D ->
  (dict_get D "keytype" = None \/ dict_get D "keytype" = Some VNone) ->
  (dict_get D "scheme" = None \/ dict_get D "scheme" = Some VNone) ->
  Key.from_dict repr KEY_FOR_TYPE_AND_SCHEME keyid key_dict h
  = match KEY_FOR_TYPE_AND_SCHEME !! (None, None) with
    | Some key_impl => key_impl keyid key_dict h
    | None =>
        (h, Raise (Exn ValueError
                     ("Unsupported public key " +:+ repr VNone +:+ "/"
                        +:+ repr VNone) None))
    end.
Proof.
  intros Hobj Hkt Hsch. unfold Key.from_dict.
  erewrite bind_run by (apply dict_get_default_run; exact Hobj).
  erewrite bind_run by (apply dict_get_default_run; exact Hobj).
  assert (Hkt' : match dict_get D "keytype" with Some v => v | None => VNone end
                 = VNone) by (destruct Hkt as [-> | ->]; reflexivity).
  assert (Hsch' : match dict_get D "scheme" with Some v => v | None => VNone end
                  = VNone) by (destruct Hsch as [-> | ->]; reflexivity).
  rewrite Hkt', Hsch'. unfold Key.lookup_impl. cbn [Key.table_component].
  cbv iota beta.
  destruct (KEY_FOR_TYPE_AND_SCHEME !! (None, None)); reflexivity.
Qed.

(** ** Further properties of verification *)

Section EmitsFacts.
Context {A B : Type}.
Variable P : event -> bool.

Lemma emits_ret (a : A) : emits P 0 (ret a).
Proof. intros log. exists []. cbn. now rewrite app_nil_r. Qed.

Lemma emits_raise (e : exn) : emits P 0 (raise (A := A) e).
Proof. intros log. exists []. cbn. now rewrite app_nil_r. Qed.

Lemma emits_lift (r : result A) : emits P 0 (lift r).
Proof. intros log. exists []. cbn. now rewrite app_nil_r. Qed.

Lemma emits_weaken (n n' : nat) (m : Py (list event) A) :
  (n <= n')%nat -> emits P n m -> emits P n' m.
Proof.
  intros Hn Hm log. destruct (Hm log) as (evs & H1 & H2 & H3).
  exists evs. repeat split; [assumption..|lia].
Qed.

Lemma emits_bind (n1 n2 : nat) (m : Py (list event) A) (k : A -> Py (list event) B) :
  emits P n1 m -> (forall a, emits P n2 (k a)) -> emits P (n1 + n2) (bind m k).
Proof.
  intros Hm Hk log. destruct (Hm log) as (evs & H1 & H2 & H3).
  unfold bind. destruct (m log) as [log1 [a|e]]; cbn [fst] in H1; subst log1.
  - destruct (Hk a (log ++ evs)) as (evs' & H1' & H2' & H3').
    exists (evs ++ evs'). rewrite H1', app_assoc. split; [reflexivity|].
    rewrite forallb_app, H2, H2'. split; [reflexivity|].
    rewrite filter_app, length_app. lia.
  - exists evs. repeat split; [assumption|lia].
Qed.
End EmitsFacts.

Lemma emits_emit (P : event -> bool) (ev : event) :
  P ev = true -> emits P (if verifier_event ev then 1 else 0) (emit ev).
Proof.
  intros HP log. exists [ev]. cbn [emit fst forallb]. rewrite HP.
  repeat split. destruct (verifier_event ev) eqn:Hv.
  - rewrite filter_cons_True by exact Hv. cbn. lia.
  - rewrite filter_cons_False by congruence. cbn. lia.
Qed.

Lemma emits_try {A : Type} (P : event -> bool) (n1 n2 : nat)
    (body : Py (list event) A) (handler : exn -> Py (list event) A) :
  emits P n1 body -> (forall e, emits P n2 (handler e)) ->
  emits P (n1 + n2) (try_except body handler).
Proof.
  intros Hm Hk log. destruct (Hm log) as (evs & H1 & H2 & H3).
  unfold try_except. destruct (body log) as [log1 [a|e]]; cbn [fst] in H1; subst log1.
  - exists evs. repeat split; [assumption|lia].
  - destruct (Hk e (log ++ evs)) as (evs' & H1' & H2' & H3').
    exists (evs ++ evs'). rewrite H1', app_assoc. split; [reflexivity|].
    rewrite forallb_app, H2, H2'. split; [reflexivity|].
    rewrite filter_app, length_app. lia.
Qed.

Section EmitsVerify.
Variable CRYPTO_IMPORT_ERROR : option string.
Variable checkvalid : bytes -> bytes -> bytes -> result unit.
Variable PublicKey : Type.
Variable load_pem_public_key : bytes -> result PublicKey.
Variable from_public_bytes : bytes -> result PublicKey.
Variable verify : PublicKey -> bytes -> bytes -> verify_arguments -> result unit.

Local Abbreviation verify_signature :=
  (SSlibKey.verify_signature CRYPTO_IMPORT_ERROR checkvalid PublicKey
     load_pem_public_key from_public_bytes verify).

Variable P : event -> bool.
Hypothesis P_fromhex : forall x, P (Ev_fromhex x) = true.
Hypothesis P_logger : forall i e, P (Ev_logger_info i e) = true.

Lemma emits_bytes_fromhex (x : value) : emits P 0 (SSlibKey.bytes_fromhex x).
Proof.
  unfold SSlibKey.bytes_fromhex.
  apply (emits_bind P 0 0); [exact (emits_emit P _ (P_fromhex x))|].
  intros _. destruct x; try apply emits_raise.
  destruct (fromhex s); [apply emits_ret | apply emits_raise].
Qed.

Lemma emits_keyval_public (self : Key.t) :
  emits P 0 (SSlibKey.keyval_public self).
Proof.
  unfold SSlibKey.keyval_public.
  destruct (dict_get _ _); [apply emits_ret | apply emits_raise].
Qed.

Lemma emits_handlers (mismatch : exn_class) (self : Key.t) (e : exn) :
  emits P 0 (SSlibKey.handlers mismatch self e).
Proof.
  unfold SSlibKey.handlers. destruct (exn_class_eqb _ _); [apply emits_raise|].
  apply (emits_bind P 0 0); [exact (emits_emit P _ (P_logger _ _))|].
  intros _. apply emits_raise.
Qed.

Lemma emits_from_pem (self : Key.t) :
  (forall pem, P (Ev_load_pem_public_key pem) = true) ->
  emits P 0 (SSlibKey._from_pem PublicKey load_pem_public_key self).
Proof.
  intros HP. unfold SSlibKey._from_pem.
  apply (emits_bind P 0 0); [apply emits_keyval_public|].
  intros public. destruct public; try apply emits_raise.
  apply (emits_bind P 0 0); [exact (emits_emit P _ (HP _))|].
  intros _. apply emits_lift.
Qed.

Lemma emits_key_verify (key : PublicKey) (sig data : bytes) (args : verify_arguments) :
  (forall sig data args, P (Ev_verify sig data args) = true) ->
  emits P 1 (SSlibKey.key_verify PublicKey verify key sig data args).
Proof.
  intros HP. unfold SSlibKey.key_verify.
  apply (emits_bind P 1 0); [exact (emits_emit P _ (HP _ _ _))|].
  intros _. apply emits_lift.
Qed.

Lemma emits_verify_fallback (self : Key.t) (sig data : bytes) :
  (forall sig data pub, P (Ev_checkvalid sig data pub) = true) ->
  emits P 1
    (try_except
       ((if negb (String.eqb (Key.scheme self) "ed25519")
         then raise (Exn UnsupportedLibraryError
                       (default EmptyString CRYPTO_IMPORT_ERROR) None)
         else ret tt) ;;
        let* public := SSlibKey.keyval_public self in
        let* public_bytes := SSlibKey.bytes_fromhex public in
        emit (Ev_checkvalid sig data public_bytes) ;;
        lift (checkvalid sig data public_bytes))
       (SSlibKey.handlers SignatureMismatch self)).
Proof.
  intros HP. apply (emits_try P 1 0); [|apply emits_handlers].
  apply (emits_bind P 0 1).
  { destruct (negb _); [apply emits_raise | apply emits_ret]. }
  intros _. apply (emits_bind P 0 1); [apply emits_keyval_public|].
  intros public. apply (emits_bind P 0 1); [apply emits_bytes_fromhex|].
  intros public_bytes. apply (emits_bind P 1 0).
  - exact (emits_emit P _ (HP _ _ _)).
  - intros _. apply emits_lift.
Qed.

Lemma emits_verify_provider (self : Key.t) (sig data : bytes) :
  (forall pem, P (Ev_load_pem_public_key pem) = true) ->
  (forall pub, P (Ev_from_public_bytes pub) = true) ->
  (forall sig data args, P (Ev_verify sig data args) = true) ->
  emits P 1
    (try_except
       (if in_list (Key.scheme self)
             ["rsassa-pss-sha224"; "rsassa-pss-sha256";
              "rsassa-pss-sha384"; "rsassa-pss-sha512";
              "rsa-pkcs1v15-sha224"; "rsa-pkcs1v15-sha256";
              "rsa-pkcs1v15-sha384"; "rsa-pkcs1v15-sha512"]
        then
          let* key := SSlibKey._from_pem PublicKey load_pem_public_key self in
          match tail (split_dash (Key.scheme self)) with
          | [padding_name; hash_name] =>
              let* hash_algorithm :=
                lift (SSlibKey._get_hash_algorithm hash_name) in
              let* padding :=
                lift (SSlibKey._get_rsa_padding padding_name hash_algorithm) in
              SSlibKey.key_verify PublicKey verify key sig data
                (RSA_arguments padding hash_algorithm)
          | _ => raise (Exn ValueError "values to unpack" None)
          end
        else if in_list (Key.scheme self)
                  ["ecdsa-sha2-nistp256"; "ecdsa-sha2-nistp384"]
        then
          let* key := SSlibKey._from_pem PublicKey load_pem_public_key self in
          let hash_name := "sha" +:+ last3 (Key.scheme self) in
          let* hash_algorithm := lift (SSlibKey._get_hash_algorithm hash_name) in
          SSlibKey.key_verify PublicKey verify key sig data
            (EC_arguments hash_algorithm)
        else if in_list (Key.scheme self) ["ed25519"]
        then
          let* public := SSlibKey.keyval_public self in
          let* public_bytes := SSlibKey.bytes_fromhex public in
          emit (Ev_from_public_bytes public_bytes) ;;
          let* key := lift (from_public_bytes public_bytes) in
          SSlibKey.key_verify PublicKey verify key sig data Ed25519_arguments
        else
          raise (Exn ValueError
                   ("unknown scheme '" +:+ Key.scheme self +:+ "'") None))
       (SSlibKey.handlers InvalidSignature self)).
Proof.
  intros Hpem Hpub Hver. apply (emits_try P 1 0); [|apply emits_handlers].
  destruct (in_list _ _).
  { apply (emits_bind P 0 1); [now apply emits_from_pem|]. intros key.
    destruct (tail _) as [|padding_name [|hash_name [|? ?]]];
      try (apply (emits_weaken P 0 1); [lia | apply emits_raise]).
    apply (emits_bind P 0 1); [apply emits_lift|]. intros hash_algorithm.
    apply (emits_bind P 0 1); [apply emits_lift|]. intros padding.
    now apply emits_key_verify. }
  destruct (in_list _ _).
  { apply (emits_bind P 0 1); [now apply emits_from_pem|]. intros key.
    cbv zeta.
    apply (emits_bind P 0 1); [apply emits_lift|]. intros hash_algorithm.
    now apply emits_key_verify. }
  destruct (in_list _ _).
  { apply (emits_bind P 0 1); [apply emits_keyval_public|]. intros public.
    apply (emits_bind P 0 1); [apply emits_bytes_fromhex|]. intros public_bytes.
    apply (emits_bind P 0 1); [exact (emits_emit P _ (Hpub _))|]. intros _.
    apply (emits_bind P 0 1); [apply emits_lift|]. intros key.
    now apply emits_key_verify. }
  apply (emits_weaken P 0 1); [lia | apply emits_raise].
Qed.
End EmitsVerify.

Section VerifierCalls.
Variable CRYPTO_IMPORT_ERROR : option string.
Variable checkvalid : bytes -> bytes -> bytes -> result unit.
Variable PublicKey : Type.
Variable load_pem_public_key : bytes -> result PublicKey.
Variable from_public_bytes : bytes -> result PublicKey.
Variable verify : PublicKey -> bytes -> bytes -> verify_arguments -> result unit.

Local Abbreviation verify_signature :=
  (SSlibKey.verify_signature CRYPTO_IMPORT_ERROR checkvalid PublicKey
     load_pem_public_key from_public_bytes verify).

(** X18.  On every input [verify_signature] only adds to the record of
    calls, calls a verifier ([key.verify] of the provider or [checkvalid]) at
    most once, never calls the vendored ed25519 when the provider is there,
    and never calls into the provider when its import failed. *)
Theorem verify_signature_calls_one_verifier
    (self : Key.t) (signature : Signature.t) (data : bytes) (log : list event) :
  exists evs : list event,
    fst (verify_signature self signature data log) = log ++ evs
    /\ (length (filter (fun ev => verifier_event ev = true) evs) <= 1)%nat
    /\ forallb (fun ev => negb (if SSlibKey.crypto_import_failed CRYPTO_IMPORT_ERROR
                                then provider_event ev else fallback_event ev))
         evs = true.
Proof.
  set (P := fun ev => negb (if SSlibKey.crypto_import_failed CRYPTO_IMPORT_ERROR
                            then provider_event ev else fallback_event ev)).
  assert (Hfromhex : forall x, P (Ev_fromhex x) = true)
    by (intros x; unfold P; now destruct (SSlibKey.crypto_import_failed _)).
  assert (Hlogger : forall i e, P (Ev_logger_info i e) = true)
    by (intros i e; unfold P; now destruct (SSlibKey.crypto_import_failed _)).
  assert (Hall : emits P 1 (verify_signature self signature data)).
  { unfold SSlibKey.verify_signature.
    destruct (negb _); [apply (emits_weaken P 0 1); [lia | apply emits_raise]|].
    apply (emits_bind P 0 1); [now apply emits_bytes_fromhex|]. intros sig.
    destruct (SSlibKey.crypto_import_failed CRYPTO_IMPORT_ERROR) eqn:Hfail.
    - apply emits_verify_fallback; try assumption. reflexivity.
    - apply emits_verify_provider; try assumption; reflexivity. }
  destruct (Hall log) as (evs & H1 & H2 & H3). exists evs. auto.
Qed.
End VerifierCalls.

(** *** Inverting a run that returns *)

Lemma bind_returns {S A B : Type} (m : Py S A) (k : A -> Py S B) st st' b :
  bind m k st = (st', Return b) ->
  exists st1 a, m st = (st1, Return a) /\ k a st1 = (st', Return b).
Proof.
  unfold bind. destruct (m st) as [st1 [a|e]]; [|discriminate].
  intros H. now exists st1, a.
Qed.

Lemma lift_returns {S A : Type} (r : result A) (st st' : S) (a : A) :
  lift r st = (st', Return a) -> st' = st /\ r = Return a.
Proof. unfold lift. intros [= -> ->]. auto. Qed.

Lemma emit_returns (ev : event) (log log' : list event) (u : unit) :
  emit ev log = (log', Return u) -> log' = log ++ [ev].
Proof. unfold emit. now intros [= <-]. Qed.

Lemma exn_class_eqb_eq (a b : exn_class) :
  exn_class_eqb a b = true <-> a = b.
Proof.
  split.
  - destruct a, b; cbn; try discriminate; try reflexivity.
    intros H. apply String.eqb_eq in H. now subst.
  - intros ->. destruct b; cbn; try reflexivity. apply String.eqb_refl.
Qed.

(** What a [try] block closed by the two [except] clauses lets out. *)
Lemma handlers_outcome (mismatch : exn_class) (self : Key.t)
    (body : Py (list event) unit) (log : list event) :
  match try_except body (SSlibKey.handlers mismatch self) log with
  | (log', Return _) => body log = (log', Return tt)
  | (log', Raise e) =>
      exists (log1 : list event) (cause : exn),
        body log = (log1, Raise cause)
        /\ ((exn_cls cause = mismatch
             /\ log' = log1
             /\ e = Exn UnverifiedSignatureError
                      ("Failed to verify signature by " +:+ Key.keyid self)
                      (Some cause))
            \/ (exn_cls cause <> mismatch
                /\ log' = log1 ++ [Ev_logger_info (Key.keyid self) (exn_str cause)]
                /\ e = Exn VerificationError
                         ("Unknown failure to verify signature by "
                            +:+ Key.keyid self)
                         (Some cause)))
  end.
Proof.
  unfold try_except. destruct (body log) as [log1 [[]|cause]]; [reflexivity|].
  unfold SSlibKey.handlers.
  destruct (exn_class_eqb (exn_cls cause) mismatch) eqn:Hcls.
  - exists log1, cause. split; [reflexivity|]. left.
    apply exn_class_eqb_eq in Hcls. auto.
  - exists log1, cause. split; [reflexivity|]. right.
    split; [|auto]. intros Heq. apply exn_class_eqb_eq in Heq. congruence.
Qed.

Lemma try_handlers_returns (mismatch : exn_class) (self : Key.t)
    (body : Py (list event) unit) (log log' : list event) (u : unit) :
  try_except body (SSlibKey.handlers mismatch self) log = (log', Return u) ->
  body log = (log', Return tt).
Proof.
  intros H. pose proof (handlers_outcome mismatch self body log) as Hout.
  now rewrite H in Hout.
Qed.

Lemma bytes_fromhex_returns (x : value) (log log' : list event) (b : bytes) :
  SSlibKey.bytes_fromhex x log = (log', Return b) ->
  exists s, x = VStr s /\ fromhex s = Some b /\ log' = log ++ [Ev_fromhex x].
Proof.
  unfold SSlibKey.bytes_fromhex. intros H.
  apply bind_returns in H as (log1 & [] & Hemit & H).
  apply emit_returns in Hemit. subst log1.
  destruct x; try discriminate.
  destruct (fromhex s) eqn:Hs; [|discriminate].
  injection H as <- <-. now exists s.
Qed.

Lemma keyval_public_returns (self : Key.t) (log log' : list event) (v : value) :
  SSlibKey.keyval_public self log = (log', Return v) ->
  dict_get (Key.keyval self) "public" = Some v /\ log' = log.
Proof.
  unfold SSlibKey.keyval_public.
  destruct (dict_get _ _); [|discriminate]. now intros [= <- <-].
Qed.

Section VerifierOutcome.
Variable CRYPTO_IMPORT_ERROR : option string.
Variable checkvalid : bytes -> bytes -> bytes -> result unit.
Variable PublicKey : Type.
Variable load_pem_public_key : bytes -> result PublicKey.
Variable from_public_bytes : bytes -> result PublicKey.
Variable verify : PublicKey -> bytes -> bytes -> verify_arguments -> result unit.

Local Abbreviation verify_signature :=
  (SSlibKey.verify_signature CRYPTO_IMPORT_ERROR checkvalid PublicKey
     load_pem_public_key from_public_bytes verify).

Lemma from_pem_returns (self : Key.t) (log log' : list event) (key : PublicKey) :
  SSlibKey._from_pem PublicKey load_pem_public_key self log = (log', Return key) ->
  exists pem : string,
    dict_get (Key.keyval self) "public" = Some (VStr pem)
    /\ load_pem_public_key (list_byte_of_string pem) = Return key
    /\ log' = log ++ [Ev_load_pem_public_key (list_byte_of_string pem)].
Proof.
  unfold SSlibKey._from_pem. intros H.
  apply bind_returns in H as (log1 & public & Hpub & H).
  apply keyval_public_returns in Hpub as [Hpub ->].
  destruct public; try discriminate.
  apply bind_returns in H as (log2 & [] & Hemit & H).
  apply emit_returns in Hemit. subst log2.
  apply lift_returns in H as [-> Hload]. now exists s.
Qed.

Lemma key_verify_returns (key : PublicKey) (sig data : bytes)
    (args : verify_arguments) (log log' : list event) (u : unit) :
  SSlibKey.key_verify PublicKey verify key sig data args log = (log', Return u) ->
  verify key sig data args = Return tt
  /\ log' = log ++ [Ev_verify sig data args].
Proof.
  unfold SSlibKey.key_verify. intros H.
  apply bind_returns in H as (log1 & [] & Hemit & H).
  apply emit_returns in Hemit. subst log1.
  apply lift_returns in H as [-> Hv]. destruct u. auto.
Qed.

(** X19.  [verify_signature] returns only if a verifier has accepted: the
    keyids agree, the signature text and the key material decode, and the
    last call made is the call of the verifier on the decoded signature and
    the payload, under the key loaded from the public key of the keyval,
    which returned.  Without the provider this is [checkvalid] and the
    scheme is ed25519. *)
Theorem verify_signature_returns_only_if_verifier_accepts
    (self : Key.t) (signature : Signature.t) (data : bytes)
    (log log' : list event) :
  verify_signature self signature data log = (log', Return tt) ->
  Signature.keyid signature = Key.keyid self
  /\ exists (sig : bytes) (public : string),
       fromhex (Signature.signature signature) = Some sig
       /\ dict_get (Key.keyval self) "public" = Some (VStr public)
       /\ if SSlibKey.crypto_import_failed CRYPTO_IMPORT_ERROR
          then
            Key.scheme self = "ed25519"
            /\ exists public_bytes : bytes,
                 fromhex public = Some public_bytes
                 /\ checkvalid sig data public_bytes = Return tt
                 /\ last log' = Some (Ev_checkvalid sig data public_bytes)
          else
            exists (key : PublicKey) (args : verify_arguments),
              verify key sig data args = Return tt
              /\ last log' = Some (Ev_verify sig data args)
              /\ match args with
                 | Ed25519_arguments =>
                     Key.scheme self = "ed25519"
                     /\ exists public_bytes : bytes,
                          fromhex public = Some public_bytes
                          /\ from_public_bytes public_bytes = Return key
                 | _ =>
                     Key.scheme self <> "ed25519"
                     /\ load_pem_public_key (list_byte_of_string public) = Return key
                 end.
Proof.
  unfold SSlibKey.verify_signature. intros H.
  destruct (String.eqb_spec (Signature.keyid signature) (Key.keyid self)) as [Hid|];
    [|discriminate].
  split; [exact Hid|]. cbn [negb] in H.
  apply bind_returns in H as (log1 & sig & Hsig & H).
  apply bytes_fromhex_returns in Hsig as (s & [= <-] & Hsig & ->).
  exists sig.
  destruct (SSlibKey.crypto_import_failed CRYPTO_IMPORT_ERROR).
  - apply try_handlers_returns in H.
    apply bind_returns in H as (log2 & [] & Hsch & H).
    destruct (String.eqb_spec (Key.scheme self) "ed25519") as [Hed|];
      [|discriminate].
    injection Hsch as <-.
    apply bind_returns in H as (log3 & public & Hpub & H).
    apply keyval_public_returns in Hpub as [Hpub ->].
    apply bind_returns in H as (log4 & public_bytes & Hhex & H).
    apply bytes_fromhex_returns in Hhex as (p & -> & Hhex & ->).
    apply bind_returns in H as (log5 & [] & Hemit & H).
    apply emit_returns in Hemit. subst log5.
    apply lift_returns in H as [-> Hcheck].
    exists p. repeat split; try assumption.
    exists public_bytes. repeat split; try assumption. apply last_snoc.
  - apply try_handlers_returns in H.
    destruct (in_list _ _) eqn:Hrsa in H.
    { apply bind_returns in H as (log2 & key & Hkey & H).
      apply from_pem_returns in Hkey as (pem & Hpub & Hload & ->).
      destruct (tail _) as [|padding_name [|hash_name [|? ?]]]; try discriminate.
      apply bind_returns in H as (log3 & hash_algorithm & Hh & H).
      apply lift_returns in Hh as [-> Hh].
      apply bind_returns in H as (log4 & padding & Hp & H).
      apply lift_returns in Hp as [-> Hp].
      apply key_verify_returns in H as [Hv ->].
      exists pem. repeat split; try assumption.
      exists key, (RSA_arguments padding hash_algorithm).
      repeat split; try assumption; [apply last_snoc|].
      intros Hed. rewrite Hed in Hrsa. discriminate. }
    destruct (in_list _ _) eqn:Hec in H.
    { apply bind_returns in H as (log2 & key & Hkey & H).
      apply from_pem_returns in Hkey as (pem & Hpub & Hload & ->).
      cbv zeta in H.
      apply bind_returns in H as (log3 & hash_algorithm & Hh & H).
      apply lift_returns in Hh as [-> Hh].
      apply key_verify_returns in H as [Hv ->].
      exists pem. repeat split; try assumption.
      exists key, (EC_arguments hash_algorithm).
      repeat split; try assumption; [apply last_snoc|].
      intros Hed. rewrite Hed in Hec. discriminate. }
    destruct (in_list _ _) eqn:Hed in H; [|discriminate].
    apply bind_returns in H as (log2 & public & Hpub & H).
    apply keyval_public_returns in Hpub as [Hpub ->].
    apply bind_returns in H as (log3 & public_bytes & Hhex & H).
    apply bytes_fromhex_returns in Hhex as (p & -> & Hhex & ->).
    apply bind_returns in H as (log4 & [] & Hemit & H).
    apply emit_returns in Hemit. subst log4.
    apply bind_returns in H as (log5 & key & Hkey & H).
    apply lift_returns in Hkey as [-> Hkey].
    apply key_verify_returns in H as [Hv ->].
    exists p. repeat split; try assumption.
    exists key, Ed25519_arguments.
    repeat split; try assumption; [apply last_snoc| |].
    + unfold in_list in Hed. cbn [existsb] in Hed. rewrite orb_false_r in Hed.
      now apply String.eqb_eq in Hed.
    + now exists public_bytes.
Qed.

(** X20.  Once the keyids agree and the signature text decodes, an exception
    of [verify_signature] carries the exception it was raised from as its
    cause and the keyid of the key in its message.  It is an
    UnverifiedSignatureError exactly when the cause is the mismatch exception
    of the verifier in use (InvalidSignature of the provider,
    SignatureMismatch of the vendored ed25519), and a VerificationError
    otherwise, in which case the text of the cause has been logged last. *)
Theorem verify_signature_failure_keeps_cause
    (self : Key.t) (signature : Signature.t) (data : bytes)
    (log : list event) (sig : bytes) :
  Signature.keyid signature = Key.keyid self ->
  fromhex (Signature.signature signature) = Some sig ->
  match verify_signature self signature data log with
  | (log', Return _) => True
  | (log', Raise e) =>
      exists cause : exn,
        (exn_cls cause
         = (if SSlibKey.crypto_import_failed CRYPTO_IMPORT_ERROR
            then SignatureMismatch else InvalidSignature)
         /\ e = Exn UnverifiedSignatureError
                  ("Failed to verify signature by " +:+ Key.keyid self)
                  (Some cause))
        \/ (exn_cls cause
            <> (if SSlibKey.crypto_import_failed CRYPTO_IMPORT_ERROR
                then SignatureMismatch else InvalidSignature)
            /\ e = Exn VerificationError
                     ("Unknown failure to verify signature by " +:+ Key.keyid self)
                     (Some cause)
            /\ last log' = Some (Ev_logger_info (Key.keyid self) (exn_str cause)))
  end.
Proof.
  intros Hid Hhex. unfold SSlibKey.verify_signature.
  rewrite Hid, String.eqb_refl. cbn [negb].
  erewrite bind_run.
  2:{ unfold SSlibKey.bytes_fromhex. rewrite Hhex. reflexivity. }
  destruct (SSlibKey.crypto_import_failed CRYPTO_IMPORT_ERROR).
  - match goal with
    | |- match try_except ?body ?h ?st with _ => _ end =>
        pose proof (handlers_outcome SignatureMismatch self body st) as Hout;
        destruct (try_except body h st) as [log' [u|e]]
    end; [exact I|].
    destruct Hout as (log1 & cause & _ & [(Hc & _ & ->)|(Hc & -> & ->)]);
      exists cause; [left; auto|right].
    repeat split; [exact Hc | apply last_snoc].
  - match goal with
    | |- match try_except ?body ?h ?st with _ => _ end =>
        pose proof (handlers_outcome InvalidSignature self body st) as Hout;
        destruct (try_except body h st) as [log' [u|e]]
    end; [exact I|].
    destruct Hout as (log1 & cause & _ & [(Hc & _ & ->)|(Hc & -> & ->)]);
      exists cause; [left; auto|right].
    repeat split; [exact Hc | apply last_snoc].
Qed.

Lemma in_list_cases (x : string) (names : list string) :
  in_list x names = true -> In x names.
Proof.
  unfold in_list. intros H. apply existsb_exists in H as (y & Hin & Heq).
  apply String.eqb_eq in Heq. now subst.
Qed.

(** X21.  With the provider, every RSA and ECDSA scheme of the lists of
    [verify_signature] is parsed without an error: once the PEM text loads,
    the result is that of the one call of [key.verify] under the two except
    clauses, and the hash passed is the one whose size ends the name of the
    scheme, in ECDSA for an ecdsa scheme, with PSS and the same hash for its
    mask generation for a pss scheme, and with PKCS1v15 otherwise. *)
Theorem verify_signature_scheme_names_parse
    (self : Key.t) (signature : Signature.t) (data : bytes)
    (log : list event) (sig : bytes) (pem : string) (key : PublicKey) :
  SSlibKey.crypto_import_failed CRYPTO_IMPORT_ERROR = false ->
  Signature.keyid signature = Key.keyid self ->
  fromhex (Signature.signature signature) = Some sig ->
  in_list (Key.scheme self)
    ["rsassa-pss-sha224"; "rsassa-pss-sha256"; "rsassa-pss-sha384";
     "rsassa-pss-sha512"; "rsa-pkcs1v15-sha224"; "rsa-pkcs1v15-sha256";
     "rsa-pkcs1v15-sha384"; "rsa-pkcs1v15-sha512";
     "ecdsa-sha2-nistp256"; "ecdsa-sha2-nistp384"] = true ->
  dict_get (Key.keyval self) "public" = Some (VStr pem) ->
  load_pem_public_key (list_byte_of_string pem) = Return key ->
  exists (hash : HashAlgorithm) (args : verify_arguments),
    (exists front : string, Key.scheme self = front +:+ hash_bits hash)
    /\ (if substringb "ecdsa" (Key.scheme self) then args = EC_arguments hash
        else if substringb "pss" (Key.scheme self)
             then args = RSA_arguments (PSS hash) hash
             else args = RSA_arguments PKCS1v15 hash)
    /\ verify_signature self signature data log
       = try_except
           (SSlibKey.key_verify PublicKey verify key sig data args)
           (SSlibKey.handlers InvalidSignature self)
           (log ++ [Ev_fromhex (VStr (Signature.signature signature));
                    Ev_load_pem_public_key (list_byte_of_string pem)]).
Proof.
  intros Hok Hid Hhex Hsch Hpub Hload.
  assert (Hpem : forall log1,
             SSlibKey._from_pem PublicKey load_pem_public_key self log1
             = (log1 ++ [Ev_load_pem_public_key (list_byte_of_string pem)],
                Return key)).
  { intros log1. unfold SSlibKey._from_pem, SSlibKey.keyval_public.
    rewrite Hpub. unfold bind, ret, emit, lift. now rewrite Hload. }
  unfold SSlibKey.verify_signature.
  rewrite Hid, String.eqb_refl. cbn [negb].
  erewrite bind_run.
  2:{ unfold SSlibKey.bytes_fromhex. rewrite Hhex. reflexivity. }
  rewrite Hok. unfold try_except at 1.
  apply in_list_cases in Hsch. cbn [In] in Hsch.
  repeat (destruct Hsch as [Hsch|Hsch]); try contradiction;
    rewrite <- Hsch;
    match goal with
    | |- context [in_list ?s ?l] =>
        let b := eval vm_compute in (in_list s l) in
        change (in_list s l) with b
    end; cbv iota;
    try match goal with
    | |- context [in_list ?s ?l] =>
        let b := eval vm_compute in (in_list s l) in
        change (in_list s l) with b
    end; cbv iota;
    erewrite bind_run by apply Hpem;
    try match goal with
      | |- context [tail (split_dash ?s)] =>
          let t := eval vm_compute in (tail (split_dash s)) in
          change (tail (split_dash s)) with t
      end;
    try match goal with
      | |- context [last3 ?s] =>
          let t := eval vm_compute in ("sha" +:+ last3 s) in
          change ("sha" +:+ last3 s) with t
      end;
    cbv iota zeta;
    match goal with
    | |- context [SSlibKey._get_hash_algorithm ?n] =>
        let t := eval vm_compute in (SSlibKey._get_hash_algorithm n) in
        change (SSlibKey._get_hash_algorithm n) with t
    end;
    erewrite bind_run by reflexivity;
    try (match goal with
         | |- context [SSlibKey._get_rsa_padding ?n ?h] =>
             let t := eval vm_compute in (SSlibKey._get_rsa_padding n h) in
             change (SSlibKey._get_rsa_padding n h) with t
         end;
         erewrite bind_run by reflexivity);
    match goal with
    | |- context [SSlibKey.key_verify _ _ _ _ _ ?args] =>
        match args with
        | RSA_arguments _ ?h => exists h, args
        | EC_arguments ?h => exists h, args
        end
    end;
    (split;
     [match goal with
      | |- exists front : string, ?s = _ =>
          exists (String.substring 0 (String.length s - 3) s);
          vm_compute; reflexivity
      end|]);
    (split; [vm_compute; reflexivity|]);
    rewrite <- app_assoc; reflexivity.
Qed.
End VerifierOutcome.

(** ** The further properties at sample inputs *)

Lemma encode_canonical_sink_keeps_partial_output_witness :
  exists (chunks : list string) (e : exn),
    encode_canonical sample_repr sample_unencodable (Some list_append) []
    = (feed list_append [] chunks, Raise e)
    /\ encode_canonical (S := list string) sample_repr sample_unencodable None []
       = ([], Raise e)
    /\ exn_cls e = FormatError
    /\ head chunks = Some "[".
Proof.
  apply (encode_canonical_sink_keeps_partial_output sample_repr sample_unencodable
           (list string) list_append []).
  reflexivity.
Defined.

Lemma encode_canonical_text_decodes_witness :
  decode (text_of sample_repr sample_nested) = Some (canonical_form sample_nested).
Proof.
  apply (encode_canonical_text_decodes sample_repr sample_nested
           (text_of sample_repr sample_nested)).
  reflexivity.
Defined.

Lemma encode_canonical_same_text_iff_same_canonical_form_witness :
  encoded_text sample_repr (VDict dict_yx)
  = Some (text_of sample_repr (VDict dict_xy))
  <-> encodable (VDict dict_yx) = true
      /\ canonical_form (VDict dict_yx) = canonical_form (VDict dict_xy).
Proof.
  apply (encode_canonical_same_text_iff_same_canonical_form sample_repr
           (VDict dict_xy) (VDict dict_yx) (text_of sample_repr (VDict dict_xy))).
  reflexivity.
Defined.


Lemma to_dict_unrecognized_field_overrides_witness :
  exists out : pydict,
    SSlibKey.to_dict sample_shadowing_key sample_shadowing_heap
    = (sample_shadowing_heap, Return out)
    /\ NoDup (map fst out)
    /\ forall k : string,
         dict_get out k
         = match dict_get [("keytype", VStr "other"); ("custom", VStr "x")] k with
           | Some v => Some v
           | None =>
               if String.eqb k "keytype" then Some (VStr "ed25519")
               else if String.eqb k "scheme" then Some (VStr "ed25519")
               else if String.eqb k "keyval"
                    then Some (VDict [("public", VStr "abcd")])
                    else None
           end.
Proof.
  apply (to_dict_unrecognized_field_overrides sample_shadowing_key
           sample_shadowing_heap [("keytype", VStr "other"); ("custom", VStr "x")]).
  - apply lookup_singleton_eq.
  - apply (bool_decide_unpack _). vm_compute. exact I.
Defined.

Lemma sslibkey_from_dict_returns_iff_witness :
  (exists (h' : heap) (key : Key.t),
      SSlibKey.from_dict sample_repr "id" 0%nat sample_heap = (h', Return key))
  <-> (exists (kt sch pub : string) (kv : pydict),
          dict_get sample_key_dict "keytype" = Some (VStr kt)
          /\ dict_get sample_key_dict "scheme" = Some (VStr sch)
          /\ dict_get sample_key_dict "keyval" = Some (VDict kv)
          /\ dict_get kv "public" = Some (VStr pub)).
Proof.
  apply (sslibkey_from_dict_returns_iff sample_repr "id" 0%nat sample_heap
           sample_key_dict).
  apply lookup_singleton_eq.
Defined.

Lemma sslibkey_from_dict_failure_keeps_pops_witness :
  ((dict_get sample_dict_without_scheme "scheme" = None ->
    SSlibKey.from_dict sample_repr "id" 0%nat
      {[ 0%nat := sample_dict_without_scheme ]}
    = (<[0%nat := dict_remove sample_dict_without_scheme "keytype"]>
         {[ 0%nat := sample_dict_without_scheme ]},
       Raise (Exn KeyError "scheme" None)))
   /\ (forall (sch : value) (kv : pydict),
         dict_get sample_dict_without_scheme "scheme" = Some sch ->
         dict_get sample_dict_without_scheme "keyval" = Some (VDict kv) ->
         (forall pub : string, dict_get kv "public" <> Some (VStr pub)) ->
         SSlibKey.from_dict sample_repr "id" 0%nat
           {[ 0%nat := sample_dict_without_scheme ]}
         = (<[0%nat := unrecognized_of sample_dict_without_scheme]>
              {[ 0%nat := sample_dict_without_scheme ]},
            Raise (Exn ValueError
                     ("public key string required for scheme "
                        +:+ py_str sample_repr sch) None))))
  /\ ((dict_get sample_dict_without_public "scheme" = None ->
       SSlibKey.from_dict sample_repr "id" 0%nat
         {[ 0%nat := sample_dict_without_public ]}
       = (<[0%nat := dict_remove sample_dict_without_public "keytype"]>
            {[ 0%nat := sample_dict_without_public ]},
          Raise (Exn KeyError "scheme" None)))
      /\ (forall (sch : value) (kv : pydict),
            dict_get sample_dict_without_public "scheme" = Some sch ->
            dict_get sample_dict_without_public "keyval" = Some (VDict kv) ->
            (forall pub : string, dict_get kv "public" <> Some (VStr pub)) ->
            SSlibKey.from_dict sample_repr "id" 0%nat
              {[ 0%nat := sample_dict_without_public ]}
            = (<[0%nat := unrecognized_of sample_dict_without_public]>
                 {[ 0%nat := sample_dict_without_public ]},
               Raise (Exn ValueError
                        ("public key string required for scheme "
                           +:+ py_str sample_repr sch) None)))).
Proof.
  split.
  - apply (sslibkey_from_dict_failure_keeps_pops sample_repr "id" 0%nat
             {[ 0%nat := sample_dict_without_scheme ]} sample_dict_without_scheme
             (VStr "ed25519")).
    + apply lookup_singleton_eq.
    + reflexivity.
  - apply (sslibkey_from_dict_failure_keeps_pops sample_repr "id" 0%nat
             {[ 0%nat := sample_dict_without_public ]} sample_dict_without_public
             (VStr "ed25519")).
    + apply lookup_singleton_eq.
    + reflexivity.
Defined.

(** Both halves at work: the dict without a scheme loses its keytype, the
    dict without a public key is left with its one unrecognized field. *)
Example sslibkey_from_dict_failures :
  SSlibKey.from_dict sample_repr "id" 0%nat {[ 0%nat := sample_dict_without_scheme ]}
  = ({[ 0%nat := [("keyval", VDict [("public", VStr "abcd")])] ]},
     Raise (Exn KeyError "scheme" None))
  /\ SSlibKey.from_dict sample_repr "id" 0%nat
       {[ 0%nat := sample_dict_without_public ]}
     = ({[ 0%nat := [("custom", VStr "x")] ]},
        Raise (Exn ValueError "public key string required for scheme ed25519" None)).
Proof.
  split.
  - rewrite (SSlibKey_from_dict_cases sample_repr "id" 0%nat _
               sample_dict_without_scheme (lookup_singleton_eq _ _)).
    cbn [sample_dict_without_scheme dict_get String.eqb Ascii.eqb Bool.eqb dict_remove].
    now rewrite insert_singleton_eq.
  - rewrite (SSlibKey_from_dict_cases sample_repr "id" 0%nat _
               sample_dict_without_public (lookup_singleton_eq _ _)).
    cbn. now rewrite insert_singleton_eq.
Qed.

Lemma sslibkey_from_dict_after_to_dict_witness :
  exists out : pydict,
    SSlibKey.to_dict sample_ed25519_key sample_unrecognized_heap
    = (sample_unrecognized_heap, Return out)
    /\ forall (key_dict : loc) (h1 : heap),
         h1 !! key_dict = Some out ->
         SSlibKey.from_dict sample_repr "k1" key_dict h1
         = (<[key_dict := [("custom", VStr "x")]]> h1,
            Return (Key.mk "k1" "ed25519" "ed25519" [("public", VStr "abcd")]
                      key_dict)).
Proof.
  apply (sslibkey_from_dict_after_to_dict sample_repr sample_ed25519_key
           sample_unrecognized_heap [("custom", VStr "x")] "abcd").
  - apply lookup_singleton_eq.
  - apply (bool_decide_unpack _). vm_compute. exact I.
  - reflexivity.
  - reflexivity.
Defined.

Lemma securesystemslib_key_round_trip_witness :
  exists (h' : heap) (key : Key.t),
    SSlibKey.from_securesystemslib_key
      (SSlibKey.to_securesystemslib_key sample_rsa_key_with_private) sample_heap
    = (h', Return key)
    /\ Key.keyid key = "k1"
    /\ Key.keytype key = "other"
    /\ Key.scheme key = "rsassa-pss-sha256"
    /\ Key.keyval key = [("public", VStr "PEM")]
    /\ h' !! Key.unrecognized_fields key = Some []
    /\ forall (signature : Signature.t) (data : bytes) (log : list event),
         SSlibKey.verify_signature None accept_checkvalid unit accept_load
           accept_load accept_verify key signature data log
         = SSlibKey.verify_signature None accept_checkvalid unit accept_load
             accept_load accept_verify sample_rsa_key_with_private signature
             data log.
Proof.
  apply (securesystemslib_key_round_trip None accept_checkvalid unit accept_load
           accept_load accept_verify sample_rsa_key_with_private sample_heap
           (VStr "PEM")).
  reflexivity.
Defined.

Lemma key_from_dict_missing_field_is_none_witness :
  Key.from_dict sample_repr sample_wildcard_table "id" 0%nat
    {[ 0%nat := sample_dict_without_type ]}
  = match sample_wildcard_table !! (None, None) with
    | Some key_impl => key_impl "id" 0%nat {[ 0%nat := sample_dict_without_type ]}
    | None =>
        ({[ 0%nat := sample_dict_without_type ]},
         Raise (Exn ValueError
                  ("Unsupported public key " +:+ sample_repr VNone +:+ "/"
                     +:+ sample_repr VNone) None))
    end.
Proof.
  apply (key_from_dict_missing_field_is_none sample_repr sample_wildcard_table
           "id" 0%nat {[ 0%nat := sample_dict_without_type ]}
           sample_dict_without_type).
  - apply lookup_singleton_eq.
  - left. reflexivity.
  - left. reflexivity.
Defined.

Lemma verify_signature_reads_keyid_scheme_public_witness :
  SSlibKey.verify_signature None accept_checkvalid unit accept_load accept_load
    accept_verify sample_rsa_key signature_of_k1 [] []
  = SSlibKey.verify_signature None accept_checkvalid unit accept_load accept_load
      accept_verify sample_rsa_key_with_private signature_of_k1 [] [].
Proof.
  apply (verify_signature_reads_keyid_scheme_public None accept_checkvalid unit
           accept_load accept_load accept_verify sample_rsa_key
           sample_rsa_key_with_private signature_of_k1 [] []).
  - reflexivity.
  - reflexivity.
  - reflexivity.
Defined.

Lemma verify_signature_returns_only_if_verifier_accepts_witness :
  Signature.keyid signature_of_k1 = Key.keyid sample_rsa_key
  /\ exists (sig : bytes) (public : string),
       fromhex (Signature.signature signature_of_k1) = Some sig
       /\ dict_get (Key.keyval sample_rsa_key) "public" = Some (VStr public)
       /\ exists (key : unit) (args : verify_arguments),
            accept_verify key sig [] args = Return tt
            /\ last (fst (SSlibKey.verify_signature None accept_checkvalid unit
                            accept_load accept_load accept_verify sample_rsa_key
                            signature_of_k1 [] []))
               = Some (Ev_verify sig [] args)
            /\ match args with
               | Ed25519_arguments =>
                   Key.scheme sample_rsa_key = "ed25519"
                   /\ exists public_bytes : bytes,
                        fromhex public = Some public_bytes
                        /\ accept_load public_bytes = Return key
               | _ =>
                   Key.scheme sample_rsa_key <> "ed25519"
                   /\ accept_load (list_byte_of_string public) = Return key
               end.
Proof.
  apply (verify_signature_returns_only_if_verifier_accepts None accept_checkvalid
           unit accept_load accept_load accept_verify sample_rsa_key
           signature_of_k1 [] []
           (fst (SSlibKey.verify_signature None accept_checkvalid unit
                   accept_load accept_load accept_verify sample_rsa_key
                   signature_of_k1 [] []))).
  reflexivity.
Defined.

Lemma verify_signature_failure_keeps_cause_witness :
  match SSlibKey.verify_signature None accept_checkvalid unit accept_load
          accept_load reject_verify sample_rsa_key signature_of_k1 [] [] with
  | (log', Return _) => True
  | (log', Raise e) =>
      exists cause : exn,
        (exn_cls cause = InvalidSignature
         /\ e = Exn UnverifiedSignatureError
                  ("Failed to verify signature by " +:+ "k1") (Some cause))
        \/ (exn_cls cause <> InvalidSignature
            /\ e = Exn VerificationError
                     ("Unknown failure to verify signature by " +:+ "k1")
                     (Some cause)
            /\ last log' = Some (Ev_logger_info "k1" (exn_str cause)))
  end.
Proof.
  apply (verify_signature_failure_keeps_cause None accept_checkvalid unit
           accept_load accept_load reject_verify sample_rsa_key signature_of_k1
           [] [] [Byte.x00]).
  - reflexivity.
  - reflexivity.
Defined.

Lemma verify_signature_scheme_names_parse_witness :
  exists (hash : HashAlgorithm) (args : verify_arguments),
    (exists front : string, Key.scheme sample_rsa_key = front +:+ hash_bits hash)
    /\ (if substringb "ecdsa" (Key.scheme sample_rsa_key)
        then args = EC_arguments hash
        else if substringb "pss" (Key.scheme sample_rsa_key)
             then args = RSA_arguments (PSS hash) hash
             else args = RSA_arguments PKCS1v15 hash)
    /\ SSlibKey.verify_signature None accept_checkvalid unit accept_load
         accept_load accept_verify sample_rsa_key signature_of_k1 [] []
       = try_except
           (SSlibKey.key_verify unit accept_verify tt [Byte.x00] [] args)
           (SSlibKey.handlers InvalidSignature sample_rsa_key)
           ([] ++ [Ev_fromhex (VStr (Signature.signature signature_of_k1));
                   Ev_load_pem_public_key (list_byte_of_string "PEM")]).
Proof.
  apply (verify_signature_scheme_names_parse None accept_checkvalid unit
           accept_load accept_load accept_verify sample_rsa_key signature_of_k1
           [] [] [Byte.x00] "PEM" tt).
  - reflexivity.
  - reflexivity.
  - reflexivity.
  - reflexivity.
  - reflexivity.
  - reflexivity.
Defined.

(** ** The further definitions on examples *)

(** The standard base64 examples, without their padding, and back with a
    decoder that knows the padded forms of the examples only. *)
Example format_base64_examples :
  format_base64 no_buffer (VBytes (list_byte_of_string "Man")) = Return "TWFu"
  /\ format_base64 no_buffer (VBytes (list_byte_of_string "Ma")) = Return "TWE"
  /\ format_base64 no_buffer (VBytes (list_byte_of_string "M")) = Return "TQ"
  /\ format_base64 no_buffer (VBytes []) = Return EmptyString
  /\ format_base64 sample_buffer sample_bytearray = Return "TWE"
  /\ format_base64 no_buffer (VStr "Ma")
     = Raise (Exn FormatError
                "Invalid base64 encoding: a bytes-like object is required, not 'str'"
                None)
  /\ base64_encode (list_byte_of_string "Ma") = "TWE="
  /\ parse_base64 sample_repr
       (fun b => if String.eqb (string_of_list_byte b) "TWE="
                 then Return (list_byte_of_string "Ma")
                 else Raise (Exn (OtherException "binascii.Error")
                               "Incorrect padding" None))
       (VStr "TWE")
     = Return (list_byte_of_string "Ma").
Proof. repeat split. Qed.

(** Texts of the canonical form, read back. *)
Example decode_examples :
  decode "[1,2,3]" = Some (VList [VInt 1; VInt 2; VInt 3])
  /\ decode "[true,false,null,-7]"
     = Some (VList [VBool true; VBool false; VNone; VInt (-7)])
  /\ decode "[]" = Some (VList [])
  /\ decode "{}" = Some (VDict [])
  /\ decode (text_of sample_repr (VDict dict_yx)) = Some (VDict dict_xy)
  /\ decode "[1,2" = None
  /\ decode "[1,2]]" = None.
Proof. repeat split. Qed.
